(** * R. Pharma storefront: filter/sort pipeline, image prober, carousel,
      catalog loading, detail-page navigation and HTML escaping.

    The development embeds the decision logic of [products-page.js],
    [main.js] (ProductManager, UIManager, Carousel) and
    [product-detail.js] and proves the properties the storefront's
    specification states about them.

    Conventions of the embedding
    - JavaScript strings are Rocq [string]s: sequences of 8-bit code
      units, read as the code units U+0000..U+00FF of a JS string.  The
      string built-ins are modelled on that range.  Literal text of the
      sources beyond it (the currency sign, the pill glyph) stands as
      its UTF-8 bytes and is never inspected.
    - JavaScript numbers that the modelled code compares or subtracts
      (prices, [maxPrice]) are finite, so they are rationals [Q]; integers
      (product ids, the carousel interval) are [Z], exact as JS numbers
      are below 2^53; a number that may be NaN ([parseInt]) is an
      [option Z] with [None] for NaN.
    - The environment (image loads, [localeCompare], the fetch outcome,
      [Math.random], [toFixed], the page location) is a parameter of the
      function that consults it.
    - Arrays live in a heap of array cells addressed by references, so
      that in-place mutation ([sort]) and copying ([filter], spread) are
      visible in the model.
    - Code that may throw runs in an exception monad with [try_catch]. *)

From Stdlib Require Import List String Ascii Bool Arith ZArith QArith Lia Lqa.
From Stdlib Require Import Permutation Sorted OrderedTypeEx.
From Stdlib Require Import DecimalString DecimalPos.
Import ListNotations.

Close Scope Q_scope.

(* ================================================================== *)
(** * Part I: definitions                                              *)
(* ================================================================== *)

(** ** The JavaScript built-ins the code calls *)

Module JS.

Local Open Scope string_scope.
Local Open Scope char_scope.

(** The double-quote character. *)
Definition dquote : ascii := "034".

(** A line break of a template literal followed by [n] spaces of
    indentation. *)
Fixpoint spaces (n : nat) : string :=
  match n with
  | O => EmptyString
  | S k => String " " (spaces k)
  end.

Definition br (n : nat) : string := String "010" (spaces n).

(** Truthiness of a string ([if (s)], [!s], [a || b]). *)
Definition truthy (s : string) : bool :=
  match s with EmptyString => false | String _ _ => true end.

(** [a || b] on strings. *)
Definition or_else (a b : string) : string := if truthy a then a else b.

(** Truthiness of a number that may be NaN: NaN and 0 are falsy. *)
Definition truthy_number (n : option Z) : bool :=
  match n with
  | None => false
  | Some z => negb (Z.eqb z 0)
  end.

(** [a > b] and [v > 0] on finite numbers. *)
Definition gt (a b : Q) : bool := negb (Qle_bool a b).

(** *** String.prototype.toLowerCase, code unit by code unit.
    Within U+0000..U+00FF the upper-case letters are A..Z and
    U+00C0..U+00DE without U+00D7; each maps to the code unit 32 above. *)
Definition lower_char (c : ascii) : ascii :=
  let n := N_of_ascii c in
  if ((65 <=? n) && (n <=? 90) ||
      (192 <=? n) && (n <=? 222) && negb (n =? 215))%N
  then ascii_of_N (n + 32) else c.

Fixpoint toLowerCase (s : string) : string :=
  match s with
  | EmptyString => EmptyString
  | String c s' => String (lower_char c) (toLowerCase s')
  end.

(** *** String.prototype.startsWith / includes *)
Fixpoint startsWith (s p : string) {struct p} : bool :=
  match p, s with
  | EmptyString, _ => true
  | String _ _, EmptyString => false
  | String a p', String b s' => Ascii.eqb a b && startsWith s' p'
  end.

Fixpoint includes (s q : string) : bool :=
  startsWith s q ||
  match s with
  | EmptyString => false
  | String _ s' => includes s' q
  end.

(** *** String.prototype.trim: white space and line terminators
    (TAB, LF, VT, FF, CR, SP, NBSP in this range). *)
Definition is_space (c : ascii) : bool :=
  existsb (Ascii.eqb c) ["009"; "010"; "011"; "012"; "013"; "032"; "160"].

Fixpoint trimStart (s : string) : string :=
  match s with
  | EmptyString => EmptyString
  | String c s' => if is_space c then trimStart s' else s
  end.

Fixpoint trimEnd (s : string) : string :=
  match s with
  | EmptyString => EmptyString
  | String c s' =>
      match trimEnd s' with
      | EmptyString => if is_space c then EmptyString else String c EmptyString
      | t => String c t
      end
  end.

Definition trim (s : string) : string := trimEnd (trimStart s).

(** *** Global replacement of a one-character pattern:
    [s.replace(/c/g, r)]. *)
Fixpoint replace_char (c : ascii) (r : string) (s : string) : string :=
  match s with
  | EmptyString => EmptyString
  | String a s' =>
      (if Ascii.eqb a c then r else String a EmptyString) ++ replace_char c r s'
  end.

(** *** Hexadecimal digits and percent escapes *)
Definition hex_digit (c : ascii) : option N :=
  let n := N_of_ascii c in
  if ((48 <=? n) && (n <=? 57))%N then Some (n - 48)%N
  else if ((65 <=? n) && (n <=? 70))%N then Some (n - 55)%N
  else if ((97 <=? n) && (n <=? 102))%N then Some (n - 87)%N
  else None.

Definition hex_byte (h l : ascii) : option N :=
  match hex_digit h, hex_digit l with
  | Some a, Some b => Some (16 * a + b)%N
  | _, _ => None
  end.

Definition hex_char (n : N) : ascii :=
  if (n <? 10)%N then ascii_of_N (48 + n) else ascii_of_N (55 + n).

Definition percent (b : N) : string :=
  String "%" (String (hex_char (b / 16)) (String (hex_char (b mod 16)) EmptyString)).

(** *** decodeURIComponent.  [None] stands for the URIError the
    built-in throws on a malformed escape.  An escape of a byte below
    0x80 is that code unit; the lead bytes C2 and C3 with one
    continuation byte are the two-byte UTF-8 forms of U+0080..U+00FF.
    Longer UTF-8 forms denote code points above U+00FF, which the
    8-bit strings of this model do not hold: they are [None] too,
    although the built-in decodes them.  On such an identifier the model
    is not the code; what is proved of [probeImages] either assumes the
    decoded value, or holds whatever the decoder returns, or starts
    from [encodeURIComponent] of a string of the model. *)
Fixpoint decodeURIComponent (s : string) : option string :=
  match s with
  | EmptyString => Some EmptyString
  | String c s1 =>
      if negb (Ascii.eqb c "%") then option_map (String c) (decodeURIComponent s1)
      else
        match s1 with
        | String h (String l s3) =>
            match hex_byte h l with
            | None => None
            | Some b =>
                if (b <? 128)%N then
                  option_map (String (ascii_of_N b)) (decodeURIComponent s3)
                else if ((b =? 194) || (b =? 195))%N then
                  match s3 with
                  | String p (String h' (String l' s6)) =>
                      if negb (Ascii.eqb p "%") then None
                      else
                        match hex_byte h' l' with
                        | None => None
                        | Some b' =>
                            if ((128 <=? b') && (b' <? 192))%N then
                              option_map
                                (String (ascii_of_N ((b - 192) * 64 + (b' - 128))))
                                (decodeURIComponent s6)
                            else None
                        end
                  | _ => None
                  end
                else None
            end
        | _ => None
        end
  end.

(** *** encodeURIComponent: the unreserved characters
    [A-Z a-z 0-9 - _ . ! ~ * ' ( )] are kept, every other code unit is
    replaced by the percent escapes of its UTF-8 bytes. *)
Definition unreserved (c : ascii) : bool :=
  let n := N_of_ascii c in
  ((65 <=? n) && (n <=? 90) || (97 <=? n) && (n <=? 122) ||
   (48 <=? n) && (n <=? 57))%N ||
  existsb (Ascii.eqb c) ["-"; "_"; "."; "!"; "~"; "*"; "'"; "("; ")"].

Definition encode_char (c : ascii) : string :=
  let n := N_of_ascii c in
  if unreserved c then String c EmptyString
  else if (n <? 128)%N then percent n
  else percent (192 + n / 64) ++ percent (128 + n mod 64).

Fixpoint encodeURIComponent (s : string) : string :=
  match s with
  | EmptyString => EmptyString
  | String c s' => encode_char c ++ encodeURIComponent s'
  end.

(** [s.replace(/%2F/g, '/')]: leftmost, non-overlapping matches. *)
Fixpoint replace_2F (s : string) : string :=
  match s with
  | EmptyString => EmptyString
  | String c s1 =>
      match s1 with
      | String d (String e s3) =>
          if Ascii.eqb c "%" && Ascii.eqb d "2" && Ascii.eqb e "F"
          then String "/" (replace_2F s3)
          else String c (replace_2F s1)
      | _ => String c (replace_2F s1)
      end
  end.

(** *** String(n) for a non-negative integer, for an integer, and for
    a number that may be NaN. *)
Definition String_of_nat (n : nat) : string :=
  NilZero.string_of_uint (Nat.to_uint n).

Definition String_of_Z (z : Z) : string :=
  NilZero.string_of_int (Z.to_int z).

Definition String_of_number (n : option Z) : string :=
  match n with
  | Some z => String_of_Z z
  | None => "NaN"
  end.

(** *** parseInt(s) without a radix: leading white space is skipped, a
    sign is read, a [0x]/[0X] prefix selects radix 16, then the longest
    run of digits is read; no digit at all gives NaN ([None]). *)
Definition digit (radix : N) (c : ascii) : option Z :=
  match hex_digit c with
  | Some d => if (d <? radix)%N then Some (Z.of_N d) else None
  | None => None
  end.

Fixpoint digits (radix : N) (acc : option Z) (s : string) : option Z :=
  match s with
  | EmptyString => acc
  | String c s' =>
      match digit radix c with
      | None => acc
      | Some d =>
          digits radix
            (Some (Z.of_N radix * match acc with Some a => a | None => 0 end + d)%Z) s'
      end
  end.

Definition parseInt (s : string) : option Z :=
  let s1 := trimStart s in
  let '(neg, s2) :=
    match s1 with
    | String c r =>
        if Ascii.eqb c "-" then (true, r)
        else if Ascii.eqb c "+" then (false, r)
        else (false, s1)
    | EmptyString => (false, s1)
    end in
  let magnitude :=
    match s2 with
    | String z (String x r) =>
        if Ascii.eqb z "0" && (Ascii.eqb x "x" || Ascii.eqb x "X")
        then digits 16 None r
        else digits 10 None s2
    | _ => digits 10 None s2
    end in
  option_map (fun v => if neg : bool then (- v)%Z else v) magnitude.

(** *** Array.prototype.sort(comparefn).
    The built-in is a stable sort: [comparefn(x, y) > 0] puts [y]
    before [x], any other result keeps an earlier element first.  For
    a consistent comparator the result is determined uniquely, and
    stable insertion computes it. *)
Fixpoint sort_insert {A : Type} (comparefn : A -> A -> Q) (x : A) (l : list A)
  : list A :=
  match l with
  | [] => [x]
  | y :: l' =>
      if gt (comparefn x y) 0%Q then y :: sort_insert comparefn x l'
      else x :: l
  end.

Definition sort {A : Type} (comparefn : A -> A -> Q) (l : list A) : list A :=
  fold_right (sort_insert comparefn) [] l.

(** A comparator is consistent (ECMAScript, Array.prototype.sort) when
    "compares equal" is an equivalence, "compares less" is transitive
    and the two argument orders agree. *)
Record ConsistentComparator {A : Type} (comparefn : A -> A -> Q) : Prop := {
  cc_refl : forall a, (comparefn a a == 0)%Q;
  cc_flip : forall a b, (comparefn a b < 0)%Q <-> (0 < comparefn b a)%Q;
  cc_eq_trans : forall a b c,
      (comparefn a b == 0)%Q -> (comparefn b c == 0)%Q -> (comparefn a c == 0)%Q;
  cc_lt_trans : forall a b c,
      (comparefn a b < 0)%Q -> (comparefn b c < 0)%Q -> (comparefn a c < 0)%Q
}.

(** *** Array.prototype.slice(0, end): a negative [end] counts from the
    end of the array, and the bounds are clamped to the array. *)
Definition slice0 {A : Type} (end_ : Z) (l : list A) : list A :=
  let len := Z.of_nat (List.length l) in
  let final := if (end_ <? 0)%Z then Z.max (len + end_) 0 else Z.min end_ len in
  List.firstn (Z.to_nat final) l.

(** [a.join('')] on an array of strings. *)
Definition join (l : list string) : string := String.concat EmptyString l.

End JS.

(** ** Data model *)

(** A product of the catalog ([products.json]). *)
Module Product.
Record t : Type := mk {
  id : Z;
  name : string;
  description : string;
  details : string;
  category : string;
  price : Q;
  icon : string
}.
End Product.

(** The [filters] object of the listing page. *)
Module Filters.
Record t : Type := mk {
  search : string;
  category : string;
  maxPrice : Q;
  sortBy : string
}.
End Filters.

(** ** Arrays of products in a heap

    [filter] and the spread [[...a]] allocate a fresh array, [sort]
    rewrites the array it is called on. *)
Module Heap.
Definition ref := nat.

Record t : Type := mk {
  next : ref;                         (* first reference not yet in use *)
  cell : ref -> list Product.t        (* contents of each array *)
}.

Definition allocated (h : t) (r : ref) : Prop := r < next h.

Definition alloc (v : list Product.t) (h : t) : ref * t :=
  (next h,
   {| next := S (next h);
      cell := fun r => if Nat.eqb r (next h) then v else cell h r |}).

Definition store (r : ref) (v : list Product.t) (h : t) : t :=
  {| next := next h;
     cell := fun r' => if Nat.eqb r' r then v else cell h r' |}.

(** [a.filter(f)]: a new array. *)
Definition array_filter (f : Product.t -> bool) (a : ref) (h : t) : ref * t :=
  alloc (List.filter f (cell h a)) h.

(** [[...a]]: a new array with the same elements. *)
Definition array_spread (a : ref) (h : t) : ref * t :=
  alloc (cell h a) h.

(** [a.sort(comparefn)]: sorts [a] in place and returns [a]. *)
Definition array_sort (comparefn : Product.t -> Product.t -> Q) (a : ref) (h : t)
  : ref * t :=
  (a, store a (JS.sort comparefn (cell h a)) h).
End Heap.

(** ** products-page.js: the listing page *)

Module ProductsPage.

Local Open Scope string_scope.

(** The module-scoped variables of the page: two array references and
    the filter object. *)
Record state : Type := mk {
  heap : Heap.t;
  allProducts : Heap.ref;
  filteredProducts : Heap.ref;
  filters : Filters.t
}.

(** The array a variable currently refers to. *)
Definition catalog (s : state) : list Product.t :=
  Heap.cell (heap s) (allProducts s).

Definition view (s : state) : list Product.t :=
  Heap.cell (heap s) (filteredProducts s).

(** The callback of [allProducts.filter] in [applyFilters]. *)
Definition keep (filters : Filters.t) (product : Product.t) : bool :=
  let search_rejects :=
    if JS.truthy (Filters.search filters) then
      let q := JS.toLowerCase (Filters.search filters) in
      let matchSearch :=
        JS.includes (JS.toLowerCase (Product.name product)) q ||
        JS.includes (JS.toLowerCase (Product.description product)) q in
      negb matchSearch
    else false in
  if search_rejects then false
  else if JS.truthy (Filters.category filters) &&
          negb (String.eqb (Product.category product) (Filters.category filters))
  then false
  else if JS.gt (Product.price product) (Filters.maxPrice filters)
  then false
  else true.

(** The comparator [applySort] hands to [sort], by [filters.sortBy]. *)
Definition comparator (localeCompare : string -> string -> Q) (sortBy : string)
  : Product.t -> Product.t -> Q :=
  if String.eqb sortBy "price-low" then
    fun a b => (Product.price a - Product.price b)%Q
  else if String.eqb sortBy "price-high" then
    fun a b => (Product.price b - Product.price a)%Q
  else (* case 'name': default: *)
    fun a b => localeCompare (Product.name a) (Product.name b).

Definition applySort (localeCompare : string -> string -> Q) (s : state) : state :=
  let '(sorted, h1) := Heap.array_spread (filteredProducts s) (heap s) in
  let '(_, h2) :=
    Heap.array_sort (comparator localeCompare (Filters.sortBy (filters s)))
                    sorted h1 in
  {| heap := h2;
     allProducts := allProducts s;
     filteredProducts := sorted;
     filters := filters s |}.

Definition applyFilters (localeCompare : string -> string -> Q) (s : state) : state :=
  let '(r, h1) := Heap.array_filter (keep (filters s)) (allProducts s) (heap s) in
  applySort localeCompare
    {| heap := h1;
       allProducts := allProducts s;
       filteredProducts := r;
       filters := filters s |}.

(** [init] after the catalog has been loaded into a fresh array:
    [filteredProducts = [...allProducts]], then [applyFilters]. *)
Definition initial_filters : Filters.t :=
  {| Filters.search := EmptyString; Filters.category := EmptyString;
     Filters.maxPrice := 250%Q; Filters.sortBy := "name" |}.

Definition loaded (products : list Product.t) : state :=
  let '(a, h0) := Heap.alloc products {| Heap.next := 0; Heap.cell := fun _ => [] |} in
  let '(f, h1) := Heap.array_spread a h0 in
  {| heap := h1; allProducts := a; filteredProducts := f;
     filters := initial_filters |}.

Definition init (localeCompare : string -> string -> Q) (products : list Product.t)
  : state :=
  applyFilters localeCompare (loaded products).

(** [escapeHtml]: five global replacements, [&] first. *)
Definition escapeHtml (unsafe : string) : string :=
  JS.replace_char "'" "&#039;"
    (JS.replace_char JS.dquote "&quot;"
       (JS.replace_char ">" "&gt;"
          (JS.replace_char "<" "&lt;"
             (JS.replace_char "&" "&amp;" unsafe)))).

(** [createProductCard]: the template literal, piece by piece.
    [toFixed] is Number.prototype.toFixed. *)
Definition createProductCard (toFixed : Q -> nat -> string) (product : Product.t)
  : string :=
  let dq := String JS.dquote EmptyString in
  let br := JS.br in
  String.concat EmptyString [
    br 12; "<div class="; dq; "product-card"; dq; " role="; dq; "listitem";
      dq; ">";
    br 16; "<div class="; dq; "product-image product-image-carousel"; dq;
      " data-folder="; dq;
      JS.encodeURIComponent (JS.or_else (Product.icon product) EmptyString); dq;
      "></div>";
    br 16; "<div class="; dq; "product-info"; dq; ">";
    br 20; "<span class="; dq; "product-category"; dq; ">";
      escapeHtml (JS.or_else (Product.category product) "Medicine");
      "</span>";
    br 20; "<h3 class="; dq; "product-name"; dq; ">";
      escapeHtml (Product.name product); "</h3>";
    br 20; "<p class="; dq; "product-description"; dq; ">";
      escapeHtml (Product.description product); "</p>";
    br 20; "<div class="; dq; "product-price"; dq; ">â‚¹";
      toFixed (Product.price product) 2; "</div>";
    br 20; "<div class="; dq; "product-actions"; dq; ">";
    br 24; "<a href="; dq; "product-detail.html?id=";
      JS.String_of_Z (Product.id product); dq; " class="; dq;
      "btn btn-sm btn-secondary"; dq; ">Details</a>";
    br 20; "</div>";
    br 16; "</div>";
    br 12; "</div>";
    br 8 ].

(** The event handlers assign the properties of [filters] before
    they call [applyFilters]. *)
Definition with_filters (f : Filters.t) (s : state) : state :=
  {| heap := heap s; allProducts := allProducts s;
     filteredProducts := filteredProducts s; filters := f |}.

(** The pipeline as a function of the catalog and the filter state:
    what [applyFilters] leaves in [filteredProducts] when the catalog
    holds [products] and the filter object is [f]. *)
Definition apply (localeCompare : string -> string -> Q)
           (products : list Product.t) (f : Filters.t) : list Product.t :=
  view (applyFilters localeCompare (with_filters f (loaded products))).

End ProductsPage.

(** ** main.js: ProductManager *)

Module ProductManager.

Local Open Scope string_scope.

(** A response: its [ok] and [status] properties and what
    [response.json()] resolves to, [None] when the body is not JSON and
    the promise rejects. *)
Record response : Type := mk_response {
  ok : bool;
  status : Z;
  json : option (list Product.t)
}.

(** What [fetch(productsPath)] settles to. *)
Inductive fetch_outcome : Type :=
| Rejected (error : string)
| Fulfilled (r : response).

Inductive log_entry : Type :=
| Log (message : string)
| Error (message : string) (error : string).

(** The module variable [products] and the console. *)
Record world : Type := mk {
  products : list Product.t;
  console : list log_entry
}.

(** Computations that may throw. *)
Inductive completion (A : Type) : Type :=
| Normal (value : A)
| Throw (error : string).
Arguments Normal {A} value.
Arguments Throw {A} error.

Definition M (A : Type) : Type := world -> completion A * world.

Definition ret {A : Type} (v : A) : M A := fun w => (Normal v, w).

Definition bind {A B : Type} (m : M A) (k : A -> M B) : M B :=
  fun w =>
    match m w with
    | (Normal v, w') => k v w'
    | (Throw e, w') => (Throw e, w')
    end.

Definition throw {A : Type} (e : string) : M A := fun w => (Throw e, w).

Definition try_catch {A : Type} (body : M A) (handler : string -> M A) : M A :=
  fun w =>
    match body w with
    | (Normal v, w') => (Normal v, w')
    | (Throw e, w') => handler e w'
    end.

Definition get_products : M (list Product.t) :=
  fun w => (Normal (products w), w).

Definition set_products (l : list Product.t) : M unit :=
  fun w => (Normal tt, {| products := l; console := console w |}).

Definition console_log (message : string) : M unit :=
  fun w => (Normal tt,
            {| products := products w; console := console w ++ [Log message] |}).

Definition console_error (message error : string) : M unit :=
  fun w => (Normal tt,
            {| products := products w;
               console := console w ++ [Error message error] |}).

Notation "x <- m ;; k" := (bind m (fun x => k))
  (at level 61, m at next level, right associativity).
Notation "m ;;; k" := (bind m (fun _ => k))
  (at level 61, right associativity).

(** [await fetch(path)]. *)
Definition await_fetch (fetch : string -> fetch_outcome) (path : string)
  : M response :=
  match fetch path with
  | Rejected e => throw e
  | Fulfilled r => ret r
  end.

(** [await response.json()]. *)
Definition await_json (r : response) : M (list Product.t) :=
  match json r with
  | Some l => ret l
  | None => throw "SyntaxError"
  end.

Definition loadProducts (pathname : string) (fetch : string -> fetch_outcome)
  : M (list Product.t) :=
  try_catch
    (let productsPath :=
       if JS.includes pathname "/products/" then "products.json"
       else "products/products.json" in
     response <- await_fetch fetch productsPath ;;
     (if negb (ok response)
      then throw ("HTTP error! status: " ++ JS.String_of_Z (status response))
      else ret tt) ;;;
     l <- await_json response ;;
     set_products l ;;;
     console_log ("✓ Loaded " ++ JS.String_of_nat (List.length l) ++ " products") ;;;
     get_products)
    (fun error =>
       console_error "Failed to load products:" error ;;;
       ret []).

(** [getById(id)]: [products.find(p => p.id === parseInt(id))].  The
    caller passes a number; [parseInt] converts it to its string and
    reads that.  The integers of this model are exact and printed as
    plain decimal numerals at every size; a JS number is an exact
    integer below 2^53 only, and is printed in exponent notation from
    10^21 on ([String(1e21)] is [1e+21], which [parseInt] reads as 1).
    The definition is the code's function for ids below 2^53 in
    absolute value, and what is proved of it carries that bound. *)
Definition getById (id : option Z) : M (option Product.t) :=
  fun w =>
    (Normal
       (List.find
          (fun p =>
             match JS.parseInt (JS.String_of_number id) with
             | Some n => Z.eqb (Product.id p) n
             | None => false
             end)
          (products w)),
     w).

Definition initial : world := {| products := []; console := [] |}.

(** [getAll()]. *)
Definition getAll : M (list Product.t) := get_products.

(** [getFeatured(count = 6)]: [products.slice(0, count)]; [None] is a
    call without the argument. *)
Definition getFeatured (count : option Z) : M (list Product.t) :=
  fun w =>
    let count := match count with Some n => n | None => 6%Z end in
    (Normal (JS.slice0 count (products w)), w).

(** [search(query)]. *)
Definition search (query : string) : M (list Product.t) :=
  fun w =>
    let q := JS.toLowerCase query in
    (Normal
       (List.filter
          (fun p =>
             JS.includes (JS.toLowerCase (Product.name p)) q ||
             JS.includes (JS.toLowerCase (Product.description p)) q)
          (products w)),
     w).

End ProductManager.

(** ** main.js: UIManager *)

Module UIManager.

Local Open Scope string_scope.

Definition escapeHtml (unsafe : string) : string :=
  JS.replace_char "'" "&#039;"
    (JS.replace_char JS.dquote "&quot;"
       (JS.replace_char ">" "&gt;"
          (JS.replace_char "<" "&lt;"
             (JS.replace_char "&" "&amp;" unsafe)))).

Definition createProductCard (toFixed : Q -> nat -> string) (product : Product.t)
  : string :=
  let dq := String JS.dquote EmptyString in
  let br := JS.br in
  String.concat EmptyString [
    br 12; "<div class="; dq; "product-card"; dq; " role="; dq; "listitem";
      dq; ">";
    br 16; "<div class="; dq; "product-image product-image-carousel"; dq;
      " data-folder="; dq;
      JS.encodeURIComponent (JS.or_else (Product.icon product) EmptyString); dq;
      "></div>";
    br 16; "<div class="; dq; "product-info"; dq; ">";
    br 20; "<span class="; dq; "product-category"; dq; ">";
      JS.or_else (Product.category product) "Medicine"; "</span>";
    br 20; "<h3 class="; dq; "product-name"; dq; ">";
      escapeHtml (Product.name product); "</h3>";
    br 20; "<p class="; dq; "product-description"; dq; ">";
      escapeHtml (Product.description product); "</p>";
    br 20; "<div class="; dq; "product-price"; dq; ">₹";
      toFixed (Product.price product) 2; "</div>";
    br 20; "<div class="; dq; "product-actions"; dq; ">";
    br 24; "<a href="; dq; "products/product-detail.html?id=";
      JS.String_of_Z (Product.id product); dq; " class="; dq;
      "btn btn-sm btn-secondary"; dq; ">View Details</a>";
    br 20; "</div>";
    br 16; "</div>";
    br 12; "</div>";
    br 8 ].

(** [displayFeaturedProducts]: the cards of the featured products, joined,
    as the [innerHTML] of the [featuredProducts] container; [container]
    is its former content, [None] when the page has no such element. *)
Definition displayFeaturedProducts (toFixed : Q -> nat -> string)
           (container : option string) : ProductManager.M (option string) :=
  match container with
  | None => ProductManager.ret None
  | Some _ =>
      ProductManager.bind (ProductManager.getFeatured None) (fun products =>
      ProductManager.ret
        (Some (JS.join (List.map (createProductCard toFixed) products))))
  end.

End UIManager.

(** ** main.js: Carousel *)

(** The part of the DOM the carousel code builds: elements with their
    attributes (properties such as [className], [id], [src] are listed
    under the attribute they reflect) and children, markup assigned
    through [innerHTML], and text. *)
Module Dom.
#[local] Unset Elimination Schemes.
Inductive node : Type :=
| Element (tag : string) (attrs : list (string * string)) (children : list node)
| Markup (html : string)
| Text (content : string).
#[local] Set Elimination Schemes.

(** The container element handed to [Carousel.create]. *)
Record container : Type := mk {
  content : list node;
  classList : list string;
  aria_label : option string
}.

Definition attr (key : string) (n : node) : option string :=
  match n with
  | Element _ attrs _ =>
      option_map snd (List.find (fun kv => String.eqb (fst kv) key) attrs)
  | _ => None
  end.

Definition children (n : node) : list node :=
  match n with
  | Element _ _ c => c
  | _ => []
  end.

Definition has_class (cls : string) (n : node) : bool :=
  match attr "class" n with
  | Some c => String.eqb c cls
  | None => false
  end.

(** [classList.add(token)]. *)
Definition classList_add (token : string) (l : list string) : list string :=
  if existsb (String.eqb token) l then l else l ++ [token].
End Dom.

Module Carousel.

Local Open Scope string_scope.

Definition MAX_IMAGES : nat := 12.
Definition EXTENSIONS : list string := ["jpeg"; "jpg"; "png"].

Definition basePath (pathname : string) : string :=
  if JS.includes pathname "/products/" then "../" else EmptyString.

(** The candidate URL [`${basePath}${encodedFolder}/${i}.${ext}`]. *)
Definition candidate (base encodedFolder : string) (i : nat) (ext : string) : string :=
  base ++ encodedFolder ++ "/" ++ JS.String_of_nat i ++ "." ++ ext.

(** A probe sequence yields a value and the list of the URLs it tried
    to load, in order. *)
Definition probing (A : Type) : Type := (A * list string)%type.

Section Probe.
(** [loadImage url] resolves to [true] when the image loads. *)
Variable loadImage : string -> bool.
Variable base : string.
Variable encodedFolder : string.

(** The inner loop [for (const ext of EXTENSIONS)]: the URL of the
    first extension that loads, if any. *)
Fixpoint try_extensions (i : nat) (exts : list string) : probing (option string) :=
  match exts with
  | [] => (None, [])
  | ext :: rest =>
      let url := candidate base encodedFolder i ext in
      if loadImage url then (Some url, [url])
      else let '(found, tried) := try_extensions i rest in (found, url :: tried)
  end.

(** The outer loop [for (let i = ...; i <= MAX_IMAGES; i++)], at
    index [i] with [remaining] = [MAX_IMAGES + 1 - i] iterations to go. *)
Fixpoint probe_from (i remaining : nat) : probing (list string) :=
  match remaining with
  | O => ([], [])
  | S k =>
      match try_extensions i EXTENSIONS with
      | (Some url, tried) =>
          let '(urls, tried') := probe_from (S i) k in
          (url :: urls, (tried ++ tried')%list)
      | (None, tried) => ([], tried)
      end
  end.
End Probe.

(** [probeImages(folder)].  The value is [None] when
    [decodeURIComponent] throws (the promise rejects). *)
Definition probeImages (loadImage : string -> bool) (pathname : string)
           (folder : string) : probing (option (list string)) :=
  if negb (JS.truthy folder) then (Some [], [])
  else
    match JS.decodeURIComponent folder with
    | None => (None, [])
    | Some d =>
        let decoded := JS.trim d in
        if negb (JS.truthy decoded) then (Some [], [])
        else
          let encodedFolder := JS.replace_2F (JS.encodeURIComponent decoded) in
          let '(urls, tried) :=
            probe_from loadImage (basePath pathname) encodedFolder 1 MAX_IMAGES in
          (Some urls, tried)
    end.

(** The [opts] argument of [create]; [None] is an absent property. *)
Record options : Type := mk_options {
  auto : option bool;
  interval : option Z;
  controls : option bool
}.

(** The configuration handed to [new bootstrap.Carousel]; [None] is
    the value [false]. *)
Record config : Type := mk_config {
  cfg_interval : option Z;
  cfg_ride : option string;
  cfg_touch : bool
}.

(** What a call of [create] leaves behind. *)
Record outcome : Type := mk_outcome {
  container_after : option Dom.container;
  returned : option Dom.node;
  initialised : option config
}.

Definition default {A : Type} (d : A) (o : option A) : A :=
  match o with Some v => v | None => d end.

(** The [urls.forEach((u, idx) => ...)] loop, from index [idx]. *)
Fixpoint items (alt : string) (idx : nat) (urls : list string) : list Dom.node :=
  match urls with
  | [] => []
  | u :: rest =>
      Dom.Element "div"
        [("class", "carousel-item" ++ (if Nat.eqb idx 0 then " active" else EmptyString))]
        [Dom.Element "img"
           [("src", u); ("class", "d-block w-100 carousel-image"); ("alt", alt)] []]
      :: items alt (S idx) rest
  end.

Definition control (id direction label : string) : Dom.node :=
  let dq := String JS.dquote EmptyString in
  Dom.Element "button"
    [("class", "carousel-control-" ++ direction); ("type", "button");
     ("data-bs-target", "#" ++ id); ("data-bs-slide", direction)]
    [Dom.Markup
       (String.concat EmptyString
          ["<span class="; dq; "carousel-control-"; direction; "-icon"; dq;
           " aria-hidden="; dq; "true"; dq; "></span><span class="; dq;
           "visually-hidden"; dq; ">"; label; "</span>"])].

(** [create(container, urls, opts)].  [random_id] is
    [Math.random().toString(36).slice(2, 9)]; [bootstrap] tells whether
    [window.bootstrap.Carousel] is there. *)
Definition create (random_id : string) (bootstrap : bool)
           (container : option Dom.container) (urls : list string)
           (opts : options) : outcome :=
  let auto := default true (auto opts) in
  let interval := default 7000%Z (interval opts) in
  let controls := default false (controls opts) in
  match container with
  | None => {| container_after := None; returned := None; initialised := None |}
  | Some c =>
      match urls with
      | [] =>
          {| container_after :=
               Some {| Dom.content := [Dom.Text "💊"];
                       Dom.classList :=
                         Dom.classList_add "product-image-fallback" (Dom.classList c);
                       Dom.aria_label := Dom.aria_label c |};
             returned := None;
             initialised := None |}
      | _ :: _ =>
          let id := "bs-carousel-" ++ random_id in
          let attrs :=
            ([("class", "carousel slide"); ("id", id)] ++
             (if auto then [("data-bs-ride", "carousel")] else []) ++
             (if negb (Z.eqb interval 0)
              then [("data-bs-interval", JS.String_of_Z interval)] else []))%list in
          let alt := JS.or_else (default EmptyString (Dom.aria_label c)) "product image" in
          let inner :=
            Dom.Element "div" [("class", "carousel-inner")] (items alt 0 urls) in
          let buttons :=
            if controls
            then [control id "prev" "Previous"; control id "next" "Next"]
            else [] in
          let carousel := Dom.Element "div" attrs (inner :: buttons) in
          {| container_after :=
               Some {| Dom.content := [carousel];
                       Dom.classList := Dom.classList c;
                       Dom.aria_label := Dom.aria_label c |};
             returned := Some carousel;
             initialised :=
               if bootstrap
               then Some {| cfg_interval := if auto then Some interval else None;
                            cfg_ride := if auto then Some "carousel" else None;
                            cfg_touch := false |}
               else None |}
      end
  end.

(** Whether previous/next controls are among the children of a
    carousel element. *)
Definition has_controls (carousel : Dom.node) : bool :=
  existsb
    (fun n => Dom.has_class "carousel-control-prev" n ||
              Dom.has_class "carousel-control-next" n)
    (Dom.children carousel).

(** The options [initAutoCarousels] passes to [create]. *)
Definition auto_options : options :=
  {| auto := Some true; interval := Some 7000%Z; controls := Some false |}.

(** One callback of [initAutoCarousels]: [probeImages] of the node's
    [data-folder] ([node.dataset.folder || '']), then [create] on the
    node.  When [probeImages] rejects, [create] is not reached and the
    value is [None]. *)
Definition init_node (loadImage : string -> bool) (pathname : string)
           (random_id : string) (bootstrap : bool)
           (folder : option string) (node : Dom.container)
  : probing (option outcome) :=
  match probeImages loadImage pathname
          (JS.or_else (default EmptyString folder) EmptyString) with
  | (Some urls, tried) =>
      (Some (create random_id bootstrap (Some node) urls auto_options), tried)
  | (None, tried) => (None, tried)
  end.

(** [initAutoCarousels]: the callback on every node of class
    [product-image-carousel], each with its own random id.  The nodes
    are handled independently of one another. *)
Fixpoint init_nodes (loadImage : string -> bool) (pathname : string)
         (random_id : nat -> string) (bootstrap : bool) (k : nat)
         (nodes : list (option string * Dom.container))
  : list (probing (option outcome)) :=
  match nodes with
  | [] => []
  | (folder, node) :: rest =>
      init_node loadImage pathname (random_id k) bootstrap folder node
      :: init_nodes loadImage pathname random_id bootstrap (S k) rest
  end.

Definition initAutoCarousels (loadImage : string -> bool) (pathname : string)
           (random_id : nat -> string) (bootstrap : bool)
           (nodes : list (option string * Dom.container))
  : list (probing (option outcome)) :=
  init_nodes loadImage pathname random_id bootstrap 0 nodes.

End Carousel.

(** ** product-detail.js: the detail page *)

Module ProductDetailPage.

Local Open Scope string_scope.

(** What [init] puts into the [productDetail] container. *)
Inductive page : Type :=
| Detail (currentProduct : Product.t)
| ErrorMessage (message : string).

Definition escapeHtml (unsafe : string) : string :=
  JS.replace_char "'" "&#039;"
    (JS.replace_char JS.dquote "&quot;"
       (JS.replace_char ">" "&gt;"
          (JS.replace_char "<" "&lt;"
             (JS.replace_char "&" "&amp;" unsafe)))).

(** [init]; [idParam] is [urlParams.get('id')], [None] for [null]. *)
Definition init (pathname : string)
           (fetch : string -> ProductManager.fetch_outcome)
           (idParam : option string) : ProductManager.M page :=
  ProductManager.bind (ProductManager.loadProducts pathname fetch) (fun allProducts =>
  let productId :=
    JS.parseInt (match idParam with Some v => v | None => "null" end) in
  if JS.truthy_number productId then
    ProductManager.bind (ProductManager.getById productId) (fun currentProduct =>
    match currentProduct with
    | Some p => ProductManager.ret (Detail p)
    | None => ProductManager.ret (ErrorMessage "Product not found")
    end)
  else ProductManager.ret (ErrorMessage "No product specified")).

(** The template literal [detailHTML] of [displayProductDetail]. *)
Definition detailHTML (toFixed : Q -> nat -> string) (product : Product.t) : string :=
  let dq := String JS.dquote EmptyString in
  let br := JS.br in
  String.concat EmptyString [
    br 12; "<div class="; dq; "product-detail-grid"; dq; ">";
    br 16; "<div class="; dq; "product-detail-image product-detail-carousel";
      dq; " data-folder="; dq;
      JS.encodeURIComponent (JS.or_else (Product.icon product) EmptyString); dq; ">";
    br 16; "</div>";
    br 0;
    br 16; "<div class="; dq; "product-detail-info"; dq; ">";
    br 20; "<h1>"; escapeHtml (Product.name product); "</h1>";
    br 20;
    br 20; "<div class="; dq; "product-meta"; dq; ">";
    br 24; "<div class="; dq; "meta-item"; dq; ">";
    br 28; "<span class="; dq; "meta-label"; dq; ">Category</span>";
    br 28; "<span class="; dq; "meta-value"; dq; " style="; dq;
      "text-transform: capitalize;"; dq; ">";
      escapeHtml (JS.or_else (Product.category product) "Medicine");
      "</span>";
    br 24; "</div>";
    br 20; "</div>";
    br 0;
    br 20; "<p class="; dq; "product-description-full"; dq; ">";
    br 24; escapeHtml (Product.description product);
    br 20; "</p>";
    br 0;
    br 20; "<div class="; dq; "product-features"; dq; ">";
    br 24; "<h3>Key Information</h3>";
    br 24; "<p>"; escapeHtml (Product.details product); "</p>";
    br 20; "</div>";
    br 0;
    br 20; "<div class="; dq; "product-price-display"; dq; ">";
    br 24; "₹"; toFixed (Product.price product) 2;
    br 20; "</div>";
    br 0;
    br 20; "<div class="; dq; "action-buttons"; dq; ">";
    br 24; "<a href="; dq; "index.html"; dq; " class="; dq;
      "btn btn-primary btn-lg"; dq; ">Browse More Products</a>";
    br 24; "<a href="; dq; "../contact/index.html"; dq; " class="; dq;
      "btn btn-secondary btn-lg"; dq; ">Inquire Now</a>";
    br 20; "</div>";
    br 16; "</div>";
    br 12; "</div>";
    br 8 ].

(** The card of one related product in [displayRelatedProducts]. *)
Definition relatedCard (toFixed : Q -> nat -> string) (p : Product.t) : string :=
  let dq := String JS.dquote EmptyString in
  let br := JS.br in
  String.concat EmptyString [
    br 12; "<div class="; dq; "product-card"; dq; " role="; dq; "listitem";
      dq; ">";
    br 16; "<div class="; dq; "product-image product-image-carousel"; dq;
      " data-folder="; dq;
      JS.encodeURIComponent (JS.or_else (Product.icon p) EmptyString); dq; "></div>";
    br 16; "<div class="; dq; "product-info"; dq; ">";
    br 20; "<span class="; dq; "product-category"; dq; ">";
      escapeHtml (JS.or_else (Product.category p) "Medicine"); "</span>";
    br 20; "<h3 class="; dq; "product-name"; dq; ">";
      escapeHtml (Product.name p); "</h3>";
    br 20; "<p class="; dq; "product-description"; dq; ">";
      escapeHtml (Product.description p); "</p>";
    br 20; "<div class="; dq; "product-price"; dq; ">₹";
      toFixed (Product.price p) 2; "</div>";
    br 20; "<div class="; dq; "product-actions"; dq; ">";
    br 24; "<a href="; dq; "product-detail.html?id=";
      JS.String_of_Z (Product.id p); dq; " class="; dq;
      "btn btn-sm btn-secondary"; dq; ">View Details</a>";
    br 20; "</div>";
    br 16; "</div>";
    br 12; "</div>";
    br 8 ].

(** The [related] list of [displayRelatedProducts]: the products of the
    category of [product], [product] aside, and the first four of them. *)
Definition related (allProducts : list Product.t) (product : Product.t)
  : list Product.t :=
  JS.slice0 4
    (List.filter
       (fun p =>
          String.eqb (Product.category p) (Product.category product) &&
          negb (Z.eqb (Product.id p) (Product.id product)))
       allProducts).

(** What [displayRelatedProducts] writes into the [relatedProducts]
    container. *)
Definition displayRelatedProducts (toFixed : Q -> nat -> string)
           (allProducts : list Product.t) (product : Product.t) : string :=
  let dq := String JS.dquote EmptyString in
  match related allProducts product with
  | [] =>
      String.concat EmptyString
        ["<p style="; dq;
         "grid-column: 1/-1; text-align: center; padding: 2rem; color: #666;";
         dq; ">No related products found.</p>"]
  | r => JS.join (List.map (relatedCard toFixed) r)
  end.

(** The options of the carousel of the product shown. *)
Definition detail_options : Carousel.options :=
  {| Carousel.auto := Some false; Carousel.interval := Some 5000%Z;
     Carousel.controls := Some true |}.

(** The carousel of [displayProductDetail]: [probeImages] of the
    [data-folder] of the container, then [create] with manual controls.
    A rejection is caught and ignored: the value is [None] and the
    container is left as it was. *)
Definition init_detail_carousel (loadImage : string -> bool) (pathname : string)
           (random_id : string) (bootstrap : bool)
           (folder : option string) (node : Dom.container)
  : Carousel.probing (option Carousel.outcome) :=
  match Carousel.probeImages loadImage pathname
          (JS.or_else (Carousel.default EmptyString folder) EmptyString) with
  | (Some urls, tried) =>
      (Some (Carousel.create random_id bootstrap (Some node) urls detail_options),
       tried)
  | (None, tried) => (None, tried)
  end.

(** *** [init] with its writes to the document *)

(** The elements and properties of the document that the page writes:
    the [innerHTML] of the [productDetail] and [relatedProducts]
    containers, [document.title], the [textContent] of the
    [breadcrumbProduct] element and the [content] attribute of the
    description [meta] element; [None]: the document has no such
    element. *)
Record document : Type := mk_document {
  productDetail : option string;
  relatedProducts : option string;
  title : string;
  breadcrumbProduct : option string;
  metaDescription : option string
}.

(** A step that writes the document and may throw. *)
Definition D (A : Type) : Type :=
  document -> ProductManager.completion A * document.

Definition and_then (a b : D unit) : D unit :=
  fun d =>
    match a d with
    | (ProductManager.Normal _, d') => b d'
    | (ProductManager.Throw e, d') => (ProductManager.Throw e, d')
    end.

(** Assigning a property of [null]. *)
Definition TypeError : string := "TypeError: Cannot set properties of null".

(** The template literal of [showErrorMessage]. *)
Definition errorHTML (message : string) : string :=
  let dq := String JS.dquote EmptyString in
  let br := JS.br in
  String.concat EmptyString [
    br 12; "<div style="; dq;
      "text-align: center; padding: 3rem; background: var(--bg-light); border-radius: var(--radius-lg);";
      dq; ">";
    br 16; "<h2 style="; dq; "color: var(--text-primary); margin-bottom: 1rem;";
      dq; ">⚠️ "; message; "</h2>";
    br 16; "<p style="; dq; "color: var(--text-secondary); margin-bottom: 2rem;";
      dq; ">The product you're looking for could not be found.</p>";
    br 16; "<a href="; dq; "index.html"; dq; " class="; dq; "btn btn-primary";
      dq; ">Browse All Products</a>";
    br 12; "</div>";
    br 8 ].

(** [container.innerHTML = html] on the [productDetail] container. *)
Definition write_productDetail (html : string) : D unit :=
  fun d =>
    match productDetail d with
    | None => (ProductManager.Throw TypeError, d)
    | Some _ =>
        (ProductManager.Normal tt,
         {| productDetail := Some html;
            relatedProducts := relatedProducts d;
            title := title d;
            breadcrumbProduct := breadcrumbProduct d;
            metaDescription := metaDescription d |})
    end.

(** [showErrorMessage(message)]. *)
Definition showErrorMessage (message : string) : D unit :=
  write_productDetail (errorHTML message).

(** [displayProductDetail()].  (The carousel is set up afterwards, in an
    asynchronous function of its own that swallows what it throws:
    [init_detail_carousel].) *)
Definition displayProductDetail (toFixed : Q -> nat -> string)
           (product : Product.t) : D unit :=
  write_productDetail (detailHTML toFixed product).

(** [displayRelatedProducts()], with the write to its container. *)
Definition write_relatedProducts (toFixed : Q -> nat -> string)
           (allProducts : list Product.t) (product : Product.t) : D unit :=
  fun d =>
    match relatedProducts d with
    | None => (ProductManager.Throw TypeError, d)
    | Some _ =>
        (ProductManager.Normal tt,
         {| productDetail := productDetail d;
            relatedProducts :=
              Some (displayRelatedProducts toFixed allProducts product);
            title := title d;
            breadcrumbProduct := breadcrumbProduct d;
            metaDescription := metaDescription d |})
    end.

(** [updatePageMeta()]. *)
Definition updatePageMeta (product : Product.t) : D unit :=
  fun d =>
    let title' :=
      Product.name product ++
      " - R. Pharma Exports | Professional Healthcare Solutions" in
    match breadcrumbProduct d with
    | None =>
        (ProductManager.Throw TypeError,
         {| productDetail := productDetail d;
            relatedProducts := relatedProducts d;
            title := title';
            breadcrumbProduct := None;
            metaDescription := metaDescription d |})
    | Some _ =>
        (ProductManager.Normal tt,
         {| productDetail := productDetail d;
            relatedProducts := relatedProducts d;
            title := title';
            breadcrumbProduct := Some (Product.name product);
            metaDescription :=
              option_map
                (fun _ =>
                   Product.name product ++ " - " ++ Product.description product ++
                   ". Professional pharmaceutical product from R. Pharma Exports.")
                (metaDescription d) |})
    end.

(** [init], as the source has it: the catalog store and the document
    are both written, and a TypeError of a write to a missing element
    ends it (the promise of [init] rejects). *)
Definition init_document (toFixed : Q -> nat -> string) (pathname : string)
           (fetch : string -> ProductManager.fetch_outcome)
           (idParam : option string)
           (w : ProductManager.world) (d : document)
  : ProductManager.completion unit * (ProductManager.world * document) :=
  match ProductManager.loadProducts pathname fetch w with
  | (ProductManager.Throw e, w1) => (ProductManager.Throw e, (w1, d))
  | (ProductManager.Normal allProducts, w1) =>
      let productId :=
        JS.parseInt (match idParam with Some v => v | None => "null" end) in
      if JS.truthy_number productId then
        match ProductManager.getById productId w1 with
        | (ProductManager.Throw e, w2) => (ProductManager.Throw e, (w2, d))
        | (ProductManager.Normal currentProduct, w2) =>
            let '(c, d') :=
              match currentProduct with
              | Some product =>
                  and_then (displayProductDetail toFixed product)
                    (and_then (write_relatedProducts toFixed allProducts product)
                       (updatePageMeta product)) d
              | None => showErrorMessage "Product not found" d
              end in
            (c, (w2, d'))
        end
      else
        let '(c, d') := showErrorMessage "No product specified" d in
        (c, (w1, d'))
  end.

End ProductDetailPage.

(** ** What the specification's words mean *)

Module Spec.

Local Open Scope string_scope.

(** *** Matching without regard to letter case.  The upper-case
    letters of the range are A..Z and the accented capitals U+00C0..U+00DE
    (U+00D7, the multiplication sign, is not a letter); the lower-case
    form of each stands 32 code units above it. *)
Definition is_upper (c : ascii) : bool :=
  let n := N_of_ascii c in
  ((65 <=? n) && (n <=? 90) || (192 <=? n) && (n <=? 222) && negb (n =? 215))%N.

(** [b] is the lower-case form of the upper-case letter [a]. *)
Definition lower_of (a b : ascii) : bool :=
  is_upper a && (N_of_ascii b =? N_of_ascii a + 32)%N.

(** [a] and [b] are the same character, or the two cases of one letter. *)
Definition same_letter (a b : ascii) : bool :=
  Ascii.eqb a b || lower_of a b || lower_of b a.

(** Two strings are equal up to letter case: the same length, and the
    same letter at every position. *)
Fixpoint equal_ignoring_case (x y : string) : bool :=
  match x, y with
  | EmptyString, EmptyString => true
  | String a x', String b y' => same_letter a b && equal_ignoring_case x' y'
  | _, _ => false
  end.

(** [q] matches inside [s] without regard to letter case: some
    substring of [s] equals [q] up to letter case. *)
Definition matches_ignoring_case (q s : string) : Prop :=
  exists pre mid post,
    s = pre ++ mid ++ post /\ equal_ignoring_case mid q = true.

(** The 256 code units. *)
Definition all_ascii : list ascii := List.map ascii_of_nat (List.seq 0 256).

Definition search_ok (f : Filters.t) (p : Product.t) : Prop :=
  Filters.search f = EmptyString \/
  matches_ignoring_case (Filters.search f) (Product.name p) \/
  matches_ignoring_case (Filters.search f) (Product.description p).

Definition category_ok (f : Filters.t) (p : Product.t) : Prop :=
  Filters.category f = EmptyString \/ Product.category p = Filters.category f.

Definition price_ok (f : Filters.t) (p : Product.t) : Prop :=
  (Product.price p <= Filters.maxPrice f)%Q.

(** The order a comparator induces: [a] may stand before [b]. *)
Definition before {A : Type} (comparefn : A -> A -> Q) (a b : A) : Prop :=
  (comparefn a b <= 0)%Q.

(** Every adjacent pair [(a, b)] of [l] satisfies [R a b]. *)
Definition adjacent_pairs {A : Type} (R : A -> A -> Prop) (l : list A) : Prop :=
  forall l1 a b l2, l = (l1 ++ a :: b :: l2)%list -> R a b.

(** [out] keeps the order [inp] gives to the elements of each key
    class: for every key, the elements with that key come in the same
    order in both. *)
Definition keeps_order_of_equals {A K : Type} (has_key : K -> A -> bool)
           (inp out : list A) : Prop :=
  forall k, List.filter (has_key k) out = List.filter (has_key k) inp.

(** The key classes of the three sort orders: equal prices, and names
    that [localeCompare] reports equal. *)
Definition has_price (q : Q) (p : Product.t) : bool :=
  Qeq_bool (Product.price p) q.

Definition has_name (localeCompare : string -> string -> Q) (n : string)
           (p : Product.t) : bool :=
  Qeq_bool (localeCompare n (Product.name p)) 0%Q.

(** *** The image prober.  [url i ext] is the candidate URL of index
    [i] with extension [ext]. *)
Section Probing.
Variable loadImage : string -> bool.
Variable url : nat -> string -> string.

(** [ext] is the first extension, in the fixed priority order, whose
    candidate URL for index [i] loads. *)
Definition first_loading (i : nat) (ext : string) : Prop :=
  exists earlier later,
    Carousel.EXTENSIONS = (earlier ++ ext :: later)%list /\
    (forall e, In e earlier -> loadImage (url i e) = false) /\
    loadImage (url i ext) = true.

Definition none_loading (i : nat) : Prop :=
  forall e, In e Carousel.EXTENSIONS -> loadImage (url i e) = false.

Definition some_loading (i : nat) : Prop :=
  exists e, In e Carousel.EXTENSIONS /\ loadImage (url i e) = true.

(** [urls] is what probing must return: one URL per index 1, 2, ...
    in ascending order, each with the first loading extension, up to
    the first index where nothing loads or up to index 12. *)
Definition probed (urls : list string) : Prop :=
  List.length urls <= 12 /\
  (forall k, k < List.length urls ->
     exists ext, first_loading (S k) ext /\
                 nth_error urls k = Some (url (S k) ext)) /\
  (List.length urls < 12 -> none_loading (S (List.length urls))).

(** No load is attempted past index 12. *)
Definition within_cap (tried : list string) : Prop :=
  forall u, In u tried ->
    exists i ext, 1 <= i <= 12 /\ In ext Carousel.EXTENSIONS /\ u = url i ext.
End Probing.

(** *** Catalog loading: the fetch fails, or answers with a
    non-success status. *)
Definition fetch_failed (o : ProductManager.fetch_outcome) : Prop :=
  match o with
  | ProductManager.Rejected _ => True
  | ProductManager.Fulfilled r => ProductManager.ok r = false
  end.

(** The path [loadProducts] fetches. *)
Definition productsPath (pathname : string) : string :=
  if JS.includes pathname "/products/" then "products.json"
  else "products/products.json".

(** *** The carousel: the first item is the active one, no other is. *)
Definition first_item_active (inner : Dom.node) : Prop :=
  exists first rest,
    Dom.children inner = first :: rest /\
    Dom.has_class "carousel-item active" first = true /\
    forall n, In n rest -> Dom.has_class "carousel-item" n = true.

(** *** The detail page: what the identifier in the query is. *)



(** *** Escaping *)

(** The characters that open or close markup or an attribute value. *)
Definition markup_char (c : ascii) : bool :=
  existsb (Ascii.eqb c) ["<"; ">"; JS.dquote; "'"]%char.

Definition entities : list string :=
  ["&amp;"; "&lt;"; "&gt;"; "&quot;"; "&#039;"].

(** [c] occurs in [s]. *)
Definition occurs (c : ascii) (s : string) : Prop :=
  exists pre post, s = pre ++ String c post.

(** Every [&] of [s] starts one of the five entities. *)
Definition ampersands_start_entities (s : string) : Prop :=
  forall pre post,
    s = pre ++ String "&" post ->
    exists e rest, In e entities /\ String "&" post = e ++ rest.

(** The same, as a test. *)
Fixpoint ampersands_checked (s : string) : bool :=
  match s with
  | EmptyString => true
  | String c s' =>
      (if Ascii.eqb c "&" then existsb (JS.startsWith s) entities else true) &&
      ampersands_checked s'
  end.

(** What the five replacements make of one character. *)
Definition escaped_char (c : ascii) : string :=
  if Ascii.eqb c "&" then "&amp;"
  else if Ascii.eqb c "<" then "&lt;"
  else if Ascii.eqb c ">" then "&gt;"
  else if Ascii.eqb c JS.dquote then "&quot;"
  else if Ascii.eqb c "'" then "&#039;"
  else String c EmptyString.

(** The markup characters of a piece of HTML, in order. *)
Fixpoint skeleton (s : string) : string :=
  match s with
  | EmptyString => EmptyString
  | String c s' =>
      if markup_char c then String c (skeleton s') else skeleton s'
  end.

(** The product [p] with another name and description. *)
Definition with_text (n d : string) (p : Product.t) : Product.t :=
  {| Product.id := Product.id p;
     Product.name := n;
     Product.description := d;
     Product.details := Product.details p;
     Product.category := Product.category p;
     Product.price := Product.price p;
     Product.icon := Product.icon p |}.

(** *** More on escaping *)

(** The five characters [escapeHtml] replaces. *)
Definition special_char (c : ascii) : bool :=
  existsb (Ascii.eqb c) ["&"; "<"; ">"; JS.dquote; "'"]%char.

(** A text without any of them. *)
Fixpoint plain (s : string) : bool :=
  match s with
  | EmptyString => true
  | String c s' => negb (special_char c) && plain s'
  end.

(** The characters that delimit tags and double-quoted attribute
    values, and those of a piece of HTML in order. *)
Definition structural_char (c : ascii) : bool :=
  existsb (Ascii.eqb c) ["<"; ">"; JS.dquote]%char.

Fixpoint structure (s : string) : string :=
  match s with
  | EmptyString => EmptyString
  | String c s' =>
      if structural_char c then String c (structure s') else structure s'
  end.

(** The product [p] with other text in every text field. *)
Definition with_fields (n d dt c i : string) (p : Product.t) : Product.t :=
  {| Product.id := Product.id p;
     Product.name := n;
     Product.description := d;
     Product.details := dt;
     Product.category := c;
     Product.price := Product.price p;
     Product.icon := i |}.

(** The product [p] with another category. *)
Definition with_category (c : string) (p : Product.t) : Product.t :=
  {| Product.id := Product.id p;
     Product.name := Product.name p;
     Product.description := Product.description p;
     Product.details := Product.details p;
     Product.category := c;
     Product.price := Product.price p;
     Product.icon := Product.icon p |}.

(** *** The folder part of a candidate URL: every [/] of the folder
    name kept, every other character as [encodeURIComponent] writes it. *)
Definition encoded_path_char (c : ascii) : string :=
  if Ascii.eqb c "/" then "/" else JS.encode_char c.

Fixpoint encoded_path (s : string) : string :=
  match s with
  | EmptyString => EmptyString
  | String c s' => encoded_path_char c ++ encoded_path s'
  end.

(** *** Reading a rendered carousel *)

(** The [src] of the image of each item of the inner element, in order. *)
Definition image_sources (inner : Dom.node) : list (option string) :=
  List.map
    (fun item =>
       match Dom.children item with
       | [img] => Dom.attr "src" img
       | _ => None
       end)
    (Dom.children inner).

(** The container shows the fallback glyph and is marked as fallback. *)
Definition shows_fallback (c : Dom.container) : Prop :=
  (exists glyph, Dom.content c = [Dom.Text glyph]) /\
  In "product-image-fallback" (Dom.classList c).

(** *** The detail page, continued *)


(** The document [d] with [html] in the [productDetail] container and
    everything else as it was. *)
Definition showing (html : string) (d : ProductDetailPage.document)
  : ProductDetailPage.document :=
  {| ProductDetailPage.productDetail := Some html;
     ProductDetailPage.relatedProducts := ProductDetailPage.relatedProducts d;
     ProductDetailPage.title := ProductDetailPage.title d;
     ProductDetailPage.breadcrumbProduct := ProductDetailPage.breadcrumbProduct d;
     ProductDetailPage.metaDescription := ProductDetailPage.metaDescription d |}.

End Spec.

(** A concrete [localeCompare]: the code-unit order of the strings, as
    the numbers -1, 0, 1. *)
Definition codeunit_compare (a b : string) : Q :=
  match String.compare a b with
  | Lt => (-1)%Q
  | Eq => 0%Q
  | Gt => 1%Q
  end.

(** The catalog of the specification's scenarios. *)
Definition amlo : Product.t :=
  {| Product.id := 1; Product.name := "Amlo"; Product.description := EmptyString;
     Product.details := EmptyString; Product.category := "cardiac";
     Product.price := 10%Q; Product.icon := EmptyString |}.

Definition zinc : Product.t :=
  {| Product.id := 2; Product.name := "Zinc"; Product.description := EmptyString;
     Product.details := EmptyString; Product.category := "supplement";
     Product.price := 5%Q; Product.icon := EmptyString |}.

Definition scenario_catalog : list Product.t := [amlo; zinc].

(** An image host for the examples: a folder [meds] with images 1, 2, 3
    and 5 under various extensions. *)
Definition meds_host (url : string) : bool :=
  existsb (String.eqb url)
          ["meds/1.jpg"; "meds/1.png"; "meds/2.png"; "meds/3.jpeg"; "meds/5.png"]%string.

(** A host on which every load succeeds. *)
Definition any_host (url : string) : bool := true.

(** Hosts for the catalog: one that is down, one that answers 404, one
    that serves the scenario catalog. *)
Definition fetch_down (path : string) : ProductManager.fetch_outcome :=
  ProductManager.Rejected "TypeError: Failed to fetch".

Definition fetch_404 (path : string) : ProductManager.fetch_outcome :=
  ProductManager.Fulfilled
    {| ProductManager.ok := false; ProductManager.status := 404;
       ProductManager.json := None |}.

Definition fetch_scenario (path : string) : ProductManager.fetch_outcome :=
  ProductManager.Fulfilled
    {| ProductManager.ok := true; ProductManager.status := 200;
       ProductManager.json := Some scenario_catalog |}.

(** Options and a container for the carousel examples. *)
Definition listing_options : Carousel.options :=
  {| Carousel.auto := Some true; Carousel.interval := Some 7000%Z;
     Carousel.controls := Some false |}.

Definition auto_with_controls : Carousel.options :=
  {| Carousel.auto := Some true; Carousel.interval := None;
     Carousel.controls := Some true |}.

Definition card_image : Dom.container :=
  {| Dom.content := []; Dom.classList := ["product-image"; "product-image-carousel"]%string;
     Dom.aria_label := None |}.

(** ** products-page.js: the controller of the listing page

    The rest of the [ProductsPage] module: the event listeners,
    [clearAllFilters] and the functions that write the page.  It is set
    apart because it uses the catalog store. *)

Module ProductsPageUI.

Local Open Scope string_scope.

(** The elements of the page the controller looks up by id, each with
    the property the code writes ([value], [textContent], [innerHTML],
    [style.display]); [None]: the page has no such element. *)
Record dom : Type := mk_dom {
  searchInput : option string;
  categoryFilter : option string;
  priceRange : option string;
  priceValue : option string;
  sortSelect : option string;
  productsGrid : option string;
  productsCount : option string;
  noResults : option string
}.

(** The page: the variables of the module and the elements. *)
Record page : Type := mk_page {
  state : ProductsPage.state;
  ui : dom
}.

(** How a listener ends: normally, with the TypeError of writing a
    property of [null], or outside this model (a [maxPrice] that is NaN,
    which the finite [Filters.maxPrice] does not hold).  The page is as
    the listener left it. *)
Inductive result : Type :=
| Done (p : page)
| TypeError (p : page)
| NotModelled.

Definition set_filters (f : Filters.t) (p : page) : page :=
  {| state := ProductsPage.with_filters f (state p); ui := ui p |}.

Definition set_ui (d : dom) (p : page) : page :=
  {| state := state p; ui := d |}.

(** [displayProducts(productsToDisplay)]: the [innerHTML] of the grid.
    (The microtask it queues is [Carousel.initAutoCarousels].) *)
Definition displayProducts (toFixed : Q -> nat -> string)
           (productsToDisplay : list Product.t) (d : dom) : dom :=
  match productsGrid d with
  | None => d
  | Some _ =>
      let html :=
        if Nat.eqb (List.length productsToDisplay) 0 then EmptyString
        else JS.join (List.map (ProductsPage.createProductCard toFixed)
                               productsToDisplay) in
      {| searchInput := searchInput d; categoryFilter := categoryFilter d;
         priceRange := priceRange d; priceValue := priceValue d;
         sortSelect := sortSelect d; productsGrid := Some html;
         productsCount := productsCount d; noResults := noResults d |}
  end.

(** [updateProductCount()]. *)
Definition updateProductCount (filteredProducts : list Product.t) (d : dom) : dom :=
  match productsCount d with
  | None => d
  | Some _ =>
      {| searchInput := searchInput d; categoryFilter := categoryFilter d;
         priceRange := priceRange d; priceValue := priceValue d;
         sortSelect := sortSelect d; productsGrid := productsGrid d;
         productsCount := Some (JS.String_of_nat (List.length filteredProducts));
         noResults := noResults d |}
  end.

(** [updateNoResultsMessage()]. *)
Definition updateNoResultsMessage (filteredProducts : list Product.t) (d : dom) : dom :=
  match noResults d with
  | None => d
  | Some _ =>
      {| searchInput := searchInput d; categoryFilter := categoryFilter d;
         priceRange := priceRange d; priceValue := priceValue d;
         sortSelect := sortSelect d; productsGrid := productsGrid d;
         productsCount := productsCount d;
         noResults :=
           Some (if Nat.eqb (List.length filteredProducts) 0
                 then "block" else "none") |}
  end.

(** [updateUI()]. *)
Definition updateUI (toFixed : Q -> nat -> string) (p : page) : page :=
  let filteredProducts := ProductsPage.view (state p) in
  set_ui
    (updateNoResultsMessage filteredProducts
       (updateProductCount filteredProducts
          (displayProducts toFixed filteredProducts (ui p))))
    p.

(** [applyFilters(); updateUI();], the tail of every listener. *)
Definition refresh (localeCompare : string -> string -> Q)
           (toFixed : Q -> nat -> string) (p : page) : page :=
  updateUI toFixed
    {| state := ProductsPage.applyFilters localeCompare (state p); ui := ui p |}.

(** [document.getElementById('priceValue').textContent = text]. *)
Definition write_priceValue (text : string) (d : dom) : option dom :=
  match priceValue d with
  | None => None
  | Some _ =>
      Some {| searchInput := searchInput d; categoryFilter := categoryFilter d;
              priceRange := priceRange d; priceValue := Some text;
              sortSelect := sortSelect d; productsGrid := productsGrid d;
              productsCount := productsCount d; noResults := noResults d |}
  end.

(** [clearAllFilters()]. *)
Definition clearAllFilters (localeCompare : string -> string -> Q)
           (toFixed : Q -> nat -> string) (p : page) : result :=
  let p1 := set_filters ProductsPage.initial_filters p in
  let d := ui p1 in
  let d1 :=
    {| searchInput := option_map (fun _ => EmptyString) (searchInput d);
       categoryFilter := option_map (fun _ => EmptyString) (categoryFilter d);
       priceRange := priceRange d; priceValue := priceValue d;
       sortSelect := sortSelect d; productsGrid := productsGrid d;
       productsCount := productsCount d; noResults := noResults d |} in
  let after_price :=
    match priceRange d1 with
    | None => Some d1
    | Some _ =>
        write_priceValue "250"
          {| searchInput := searchInput d1; categoryFilter := categoryFilter d1;
             priceRange := Some "250"; priceValue := priceValue d1;
             sortSelect := sortSelect d1; productsGrid := productsGrid d1;
             productsCount := productsCount d1; noResults := noResults d1 |}
    end in
  match after_price with
  | None =>
      TypeError
        (set_ui
           {| searchInput := searchInput d1; categoryFilter := categoryFilter d1;
              priceRange := Some "250"; priceValue := priceValue d1;
              sortSelect := sortSelect d1; productsGrid := productsGrid d1;
              productsCount := productsCount d1; noResults := noResults d1 |}
           p1)
  | Some d2 =>
      let d3 :=
        {| searchInput := searchInput d2; categoryFilter := categoryFilter d2;
           priceRange := priceRange d2; priceValue := priceValue d2;
           sortSelect := option_map (fun _ => "name") (sortSelect d2);
           productsGrid := productsGrid d2;
           productsCount := productsCount d2; noResults := noResults d2 |} in
      Done (refresh localeCompare toFixed (set_ui d3 p1))
  end.

(** The events [setupEventListeners] listens to, each with
    [e.target.value]. *)
Inductive event : Type :=
| SearchInput (value : string)
| CategoryChange (value : string)
| PriceInput (value : string)
| SortChange (value : string)
| ClearClick.

(** The listener of each event.  An element that does not exist has no
    listener.  The element of an input event already holds the value.
    [ClearClick] is the click on either of the two buttons, both of
    which run [clearAllFilters]. *)
Definition listener (localeCompare : string -> string -> Q)
           (toFixed : Q -> nat -> string) (e : event) (p : page) : result :=
  let f := ProductsPage.filters (state p) in
  let d := ui p in
  match e with
  | SearchInput value =>
      match searchInput d with
      | None => Done p
      | Some _ =>
          Done (refresh localeCompare toFixed
                  (set_filters
                     {| Filters.search := value;
                        Filters.category := Filters.category f;
                        Filters.maxPrice := Filters.maxPrice f;
                        Filters.sortBy := Filters.sortBy f |}
                     (set_ui
                        {| searchInput := Some value;
                           categoryFilter := categoryFilter d;
                           priceRange := priceRange d; priceValue := priceValue d;
                           sortSelect := sortSelect d; productsGrid := productsGrid d;
                           productsCount := productsCount d;
                           noResults := noResults d |} p)))
      end
  | CategoryChange value =>
      match categoryFilter d with
      | None => Done p
      | Some _ =>
          Done (refresh localeCompare toFixed
                  (set_filters
                     {| Filters.search := Filters.search f;
                        Filters.category := value;
                        Filters.maxPrice := Filters.maxPrice f;
                        Filters.sortBy := Filters.sortBy f |}
                     (set_ui
                        {| searchInput := searchInput d;
                           categoryFilter := Some value;
                           priceRange := priceRange d; priceValue := priceValue d;
                           sortSelect := sortSelect d; productsGrid := productsGrid d;
                           productsCount := productsCount d;
                           noResults := noResults d |} p)))
      end
  | PriceInput value =>
      match priceRange d with
      | None => Done p
      | Some _ =>
          match JS.parseInt value with
          | None => NotModelled
          | Some maxPrice =>
              let p1 :=
                set_filters
                  {| Filters.search := Filters.search f;
                     Filters.category := Filters.category f;
                     Filters.maxPrice := inject_Z maxPrice;
                     Filters.sortBy := Filters.sortBy f |}
                  (set_ui
                     {| searchInput := searchInput d;
                        categoryFilter := categoryFilter d;
                        priceRange := Some value; priceValue := priceValue d;
                        sortSelect := sortSelect d; productsGrid := productsGrid d;
                        productsCount := productsCount d;
                        noResults := noResults d |} p) in
              match write_priceValue (JS.String_of_Z maxPrice) (ui p1) with
              | None => TypeError p1
              | Some d1 => Done (refresh localeCompare toFixed (set_ui d1 p1))
              end
          end
      end
  | SortChange value =>
      match sortSelect d with
      | None => Done p
      | Some _ =>
          Done (refresh localeCompare toFixed
                  (set_filters
                     {| Filters.search := Filters.search f;
                        Filters.category := Filters.category f;
                        Filters.maxPrice := Filters.maxPrice f;
                        Filters.sortBy := value |}
                     (set_ui
                        {| searchInput := searchInput d;
                           categoryFilter := categoryFilter d;
                           priceRange := priceRange d; priceValue := priceValue d;
                           sortSelect := Some value; productsGrid := productsGrid d;
                           productsCount := productsCount d;
                           noResults := noResults d |} p)))
      end
  | ClearClick => clearAllFilters localeCompare toFixed p
  end.

(** [init()]: load the catalog, copy it, filter and show. *)
Definition init (localeCompare : string -> string -> Q)
           (toFixed : Q -> nat -> string) (pathname : string)
           (fetch : string -> ProductManager.fetch_outcome) (d : dom)
  : ProductManager.M page :=
  ProductManager.bind (ProductManager.loadProducts pathname fetch) (fun allProducts =>
  ProductManager.ret
    (updateUI toFixed
       {| state := ProductsPage.init localeCompare allProducts; ui := d |})).

(** A session: the events one after the other.  After an error the page
    stays as the listener left it and goes on listening; [None] when a
    listener leaves the model. *)
Fixpoint session (localeCompare : string -> string -> Q)
         (toFixed : Q -> nat -> string) (events : list event) (p : page)
  : option page :=
  match events with
  | [] => Some p
  | e :: rest =>
      match listener localeCompare toFixed e p with
      | Done p' => session localeCompare toFixed rest p'
      | TypeError p' => session localeCompare toFixed rest p'
      | NotModelled => None
      end
  end.

End ProductsPageUI.

(** A page with every element, as [products/index.html] has them. *)
Definition full_dom : ProductsPageUI.dom :=
  {| ProductsPageUI.searchInput := Some EmptyString;
     ProductsPageUI.categoryFilter := Some EmptyString;
     ProductsPageUI.priceRange := Some "250"%string;
     ProductsPageUI.priceValue := Some "250"%string;
     ProductsPageUI.sortSelect := Some "name"%string;
     ProductsPageUI.productsGrid := Some EmptyString;
     ProductsPageUI.productsCount := Some "0"%string;
     ProductsPageUI.noResults := Some "none"%string |}.

(** *** What the listing page shows *)

Module Listing.

Definition present {A : Type} (o : option A) : bool :=
  match o with Some _ => true | None => false end.

(** Which of the eight elements the page has. *)
Definition elements (d : ProductsPageUI.dom) : list bool :=
  [ present (ProductsPageUI.searchInput d);
    present (ProductsPageUI.categoryFilter d);
    present (ProductsPageUI.priceRange d);
    present (ProductsPageUI.priceValue d);
    present (ProductsPageUI.sortSelect d);
    present (ProductsPageUI.productsGrid d);
    present (ProductsPageUI.productsCount d);
    present (ProductsPageUI.noResults d) ].

(** The three elements [updateUI] writes. *)
Definition outputs (d : ProductsPageUI.dom)
  : option string * option string * option string :=
  (ProductsPageUI.productsGrid d, ProductsPageUI.productsCount d,
   ProductsPageUI.noResults d).

(** The elements show the list [v]: one card for each product in the
    order of the list, the number of products, and the no-results
    message displayed exactly when there is none. *)
Definition shows (toFixed : Q -> nat -> string) (v : list Product.t)
           (d : ProductsPageUI.dom) : Prop :=
  (forall g, ProductsPageUI.productsGrid d = Some g ->
             g = String.concat EmptyString
                   (List.map (ProductsPage.createProductCard toFixed) v)) /\
  (forall c, ProductsPageUI.productsCount d = Some c ->
             c = JS.String_of_nat (List.length v)) /\
  (forall m, ProductsPageUI.noResults d = Some m ->
             m = match v with [] => "block" | _ :: _ => "none" end%string).

(** The events of the model: every value of the price slider reads as
    an integer (the value of a range input is a numeral). *)
Definition in_model (e : ProductsPageUI.event) : bool :=
  match e with
  | ProductsPageUI.PriceInput value => present (JS.parseInt value)
  | _ => true
  end.

End Listing.

(** ** main.js: the DOMContentLoaded listener *)

Module Main.

Local Open Scope string_scope.

(** [s.split('/')]: never empty. *)
Fixpoint split_slash (s : string) : list string :=
  match s with
  | EmptyString => [EmptyString]
  | String c s' =>
      if Ascii.eqb c "/" then EmptyString :: split_slash s'
      else match split_slash s' with
           | [] => [String c EmptyString]
           | x :: xs => String c x :: xs
           end
  end.

(** [path.split('/').pop() || 'index.html']. *)
Definition page_of (path : string) : string :=
  JS.or_else (List.last (split_slash path) EmptyString) "index.html".

(** A link of class [nav-link]: its [href] attribute ([None]: it has
    none) and its class list. *)
Record nav_link : Type := mk_link {
  href : option string;
  classList : list string
}.

(** The [forEach] over the links.  [getAttribute('href')] of a link
    without the attribute is [null], and [split] on it a TypeError: the
    links before it are done, the others are not reached.  The boolean
    tells whether the loop completed. *)
Fixpoint mark_active (currentPage : string) (links : list nav_link)
  : list nav_link * bool :=
  match links with
  | [] => ([], true)
  | link :: rest =>
      match href link with
      | None => (link :: rest, false)
      | Some h =>
          let link' :=
            if String.eqb (page_of h) currentPage
            then {| href := href link;
                    classList := Dom.classList_add "active" (classList link) |}
            else link in
          let '(rest', completed) := mark_active currentPage rest in
          (link' :: rest', completed)
      end
  end.

(** The listener up to the navigation links: the catalog is loaded, the
    featured products are rendered into the [featuredProducts] container
    and the link of the current page is marked.  (The carousels of the
    cards are [Carousel.initAutoCarousels].) *)
Definition onDOMContentLoaded (toFixed : Q -> nat -> string) (pathname : string)
           (fetch : string -> ProductManager.fetch_outcome)
           (featuredProducts : option string) (links : list nav_link)
  : ProductManager.M (option string * (list nav_link * bool)) :=
  ProductManager.bind (ProductManager.loadProducts pathname fetch) (fun _ =>
  ProductManager.bind (UIManager.displayFeaturedProducts toFixed featuredProducts)
    (fun featured =>
  ProductManager.ret (featured, mark_active (page_of pathname) links))).

End Main.

(** A page with the slider and the grid, and without the price label. *)
Definition slider_only_dom : ProductsPageUI.dom :=
  {| ProductsPageUI.searchInput := None;
     ProductsPageUI.categoryFilter := None;
     ProductsPageUI.priceRange := Some "250"%string;
     ProductsPageUI.priceValue := None;
     ProductsPageUI.sortSelect := Some "price-low"%string;
     ProductsPageUI.productsGrid := Some EmptyString;
     ProductsPageUI.productsCount := Some "0"%string;
     ProductsPageUI.noResults := Some "none"%string |}.

(** A file name: no [/] in it. *)
Fixpoint no_slash (s : string) : bool :=
  match s with
  | EmptyString => true
  | String c s' => negb (Ascii.eqb c "/") && no_slash s'
  end.

(** Navigation links for the examples: two with a target, one without
    the attribute. *)
Definition home_link : Main.nav_link :=
  {| Main.href := Some "../index.html"%string; Main.classList := ["nav-link"%string] |}.

Definition contact_link : Main.nav_link :=
  {| Main.href := Some "../contact/"%string; Main.classList := ["nav-link"%string] |}.

Definition bare_link : Main.nav_link :=
  {| Main.href := None; Main.classList := ["nav-link"%string] |}.


Definition bare_document : ProductDetailPage.document :=
  {| ProductDetailPage.productDetail := None;
     ProductDetailPage.relatedProducts := None;
     ProductDetailPage.title := "Product Details"%string;
     ProductDetailPage.breadcrumbProduct := None;
     ProductDetailPage.metaDescription := None |}.

(** The world after the scenario catalog has been loaded. *)
Definition scenario_world : ProductManager.world :=
  snd (ProductManager.loadProducts "/products/product-detail.html" fetch_scenario
         ProductManager.initial).

(** A product whose category is a piece of markup. *)
Definition markup_category_product : Product.t :=
  {| Product.id := 3; Product.name := "Aspirin"; Product.description := "Tablets";
     Product.details := EmptyString;
     Product.category := "<img src=x onerror=alert(1)>";
     Product.price := 4%Q; Product.icon := EmptyString |}.

(* ================================================================== *)
(** * Part II: properties                                              *)
(* ================================================================== *)

(** ** Array.prototype.sort *)

Section SortFacts.
Context {A : Type}.
Variable comparefn : A -> A -> Q.

Lemma gt_true_iff (a b : Q) : JS.gt a b = true <-> (b < a)%Q.
Proof.
  unfold JS.gt. rewrite negb_true_iff.
  split; intro H.
  - apply Qnot_le_lt. intro Hle. apply Qle_bool_iff in Hle. congruence.
  - destruct (Qle_bool a b) eqn:E; [|reflexivity].
    apply Qle_bool_iff in E. exfalso. apply (Qlt_not_le _ _ H E).
Qed.

Lemma gt_false_iff (a b : Q) : JS.gt a b = false <-> (a <= b)%Q.
Proof.
  unfold JS.gt. rewrite negb_false_iff. apply Qle_bool_iff.
Qed.

Lemma sort_insert_perm (x : A) (l : list A) :
  Permutation (x :: l) (JS.sort_insert comparefn x l).
Proof.
  induction l as [|y l IH]; simpl.
  - apply Permutation_refl.
  - destruct (JS.gt (comparefn x y) 0).
    + eapply perm_trans; [apply perm_swap|]. now apply perm_skip.
    + apply Permutation_refl.
Qed.

Lemma sort_perm (l : list A) : Permutation l (JS.sort comparefn l).
Proof.
  induction l as [|x l IH]; simpl.
  - constructor.
  - eapply perm_trans; [apply perm_skip, IH|]. apply sort_insert_perm.
Qed.

Section Sortedness.
(** All that sortedness of the result asks of the comparator. *)
Hypothesis flip : forall a b, (0 < comparefn a b)%Q -> (comparefn b a <= 0)%Q.

Lemma sort_insert_sorted (x : A) (l : list A) :
  Sorted (Spec.before comparefn) l -> Sorted (Spec.before comparefn) (JS.sort_insert comparefn x l).
Proof.
  induction 1 as [|y l Hs IH Hhd]; simpl.
  - repeat constructor.
  - destruct (JS.gt (comparefn x y) 0) eqn:E.
    + constructor; [exact IH|].
      apply gt_true_iff in E.
      destruct l as [|z l]; simpl.
      * constructor. now apply flip.
      * destruct (JS.gt (comparefn x z) 0).
        -- inversion Hhd; subst. now constructor.
        -- constructor. now apply flip.
    + apply gt_false_iff in E.
      constructor; [now constructor|now constructor].
Qed.

Lemma sort_sorted (l : list A) : Sorted (Spec.before comparefn) (JS.sort comparefn l).
Proof.
  induction l as [|x l IH]; simpl.
  - constructor.
  - now apply sort_insert_sorted.
Qed.
End Sortedness.

Section Stability.
(** All that stability asks: the elements a predicate selects are
    never put in the other order by the comparator. *)
Variable same : A -> bool.
Hypothesis same_class : forall z y,
    same z = true -> same y = true -> (comparefn z y <= 0)%Q.

Lemma sort_insert_stable (z : A) (l : list A) :
  List.filter same (JS.sort_insert comparefn z l) = List.filter same (z :: l).
Proof.
  induction l as [|y l IH]; [reflexivity|].
  simpl JS.sort_insert.
  destruct (JS.gt (comparefn z y) 0) eqn:E; [|reflexivity].
  apply gt_true_iff in E.
  cbn [List.filter] in *. rewrite IH.
  destruct (same z) eqn:Ez; destruct (same y) eqn:Ey; try reflexivity.
  exfalso. apply (Qlt_not_le _ _ E). exact (same_class _ _ Ez Ey).
Qed.

Lemma sort_stable (l : list A) :
  List.filter same (JS.sort comparefn l) = List.filter same l.
Proof.
  induction l as [|z l IH]; [reflexivity|].
  simpl JS.sort. rewrite sort_insert_stable.
  cbn [List.filter]. now rewrite IH.
Qed.
End Stability.

Lemma sorted_adjacent (R : A -> A -> Prop) (l : list A) :
  Sorted R l -> Spec.adjacent_pairs R l.
Proof.
  intros Hs l1. revert l Hs.
  induction l1 as [|c l1 IH]; intros l Hs a b l2 ->; simpl in Hs.
  - inversion Hs as [|? ? _ Hhd]; subst. now inversion Hhd.
  - inversion Hs as [|? ? Hs' _]; subst. now apply (IH _ Hs' a b l2).
Qed.

(** Sorting a sorted array changes nothing. *)
Lemma sort_sorted_id (l : list A) :
  Sorted (Spec.before comparefn) l -> JS.sort comparefn l = l.
Proof.
  induction 1 as [|x l Hs IH Hhd]; [reflexivity|].
  simpl. rewrite IH.
  destruct Hhd as [|y l Hxy]; [reflexivity|].
  simpl. apply gt_false_iff in Hxy. now rewrite Hxy.
Qed.
End SortFacts.

(** ** The contract of Array.prototype.sort determines its result

    For a consistent comparator there is one sorted, stable
    rearrangement of an array, and [JS.sort] computes it: the choice of
    algorithm in the model is immaterial. *)

Section SortDetermined.
Context {A : Type}.
Variable comparefn : A -> A -> Q.
Hypothesis consistent : JS.ConsistentComparator comparefn.

Lemma cc_sym (a b : A) : (comparefn a b == 0)%Q -> (comparefn b a == 0)%Q.
Proof.
  intros H.
  destruct (Q_dec (comparefn b a) 0) as [[Hlt|Hgt]|Heq]; [| |exact Heq].
  - apply (JS.cc_flip _ consistent) in Hlt. rewrite H in Hlt. discriminate.
  - apply (JS.cc_flip _ consistent) in Hgt. rewrite H in Hgt. discriminate.
Qed.

Lemma cc_lt_eq_trans (a b c : A) :
  (comparefn a b < 0)%Q -> (comparefn b c == 0)%Q -> (comparefn a c < 0)%Q.
Proof.
  intros Hab Hbc.
  destruct (Q_dec (comparefn a c) 0) as [[Hlt|Hgt]|Heq]; [exact Hlt|exfalso..].
  - apply (JS.cc_flip _ consistent) in Hgt.
    pose proof (JS.cc_lt_trans _ consistent _ _ _ Hgt Hab) as Hcb.
    apply cc_sym in Hbc. rewrite Hbc in Hcb. discriminate.
  - pose proof (JS.cc_eq_trans _ consistent _ _ _ Heq (cc_sym _ _ Hbc)) as Hab'.
    rewrite Hab' in Hab. discriminate.
Qed.

Lemma cc_eq_lt_trans (a b c : A) :
  (comparefn a b == 0)%Q -> (comparefn b c < 0)%Q -> (comparefn a c < 0)%Q.
Proof.
  intros Hab Hbc.
  destruct (Q_dec (comparefn a c) 0) as [[Hlt|Hgt]|Heq]; [exact Hlt|exfalso..].
  - apply (JS.cc_flip _ consistent) in Hgt.
    pose proof (JS.cc_lt_trans _ consistent _ _ _ Hbc Hgt) as Hba.
    apply cc_sym in Hab. rewrite Hab in Hba. discriminate.
  - pose proof (JS.cc_eq_trans _ consistent _ _ _ (cc_sym _ _ Hab) Heq) as Hbc'.
    rewrite Hbc' in Hbc. discriminate.
Qed.

Lemma before_trans (a b c : A) :
  Spec.before comparefn a b -> Spec.before comparefn b c -> Spec.before comparefn a c.
Proof.
  unfold Spec.before. intros Hab Hbc.
  apply Qle_lteq in Hab. apply Qle_lteq in Hbc. apply Qle_lteq.
  destruct Hab as [Hab|Hab], Hbc as [Hbc|Hbc].
  - left. exact (JS.cc_lt_trans _ consistent _ _ _ Hab Hbc).
  - left. exact (cc_lt_eq_trans _ _ _ Hab Hbc).
  - left. exact (cc_eq_lt_trans _ _ _ Hab Hbc).
  - right. exact (JS.cc_eq_trans _ consistent _ _ _ Hab Hbc).
Qed.

Lemma before_both_equal (a b : A) :
  Spec.before comparefn a b -> Spec.before comparefn b a -> (comparefn a b == 0)%Q.
Proof.
  unfold Spec.before. intros Hab Hba.
  apply Qle_lteq in Hab. destruct Hab as [Hab|Hab]; [exfalso|exact Hab].
  apply (JS.cc_flip _ consistent) in Hab. exact (Qlt_not_le _ _ Hab Hba).
Qed.

Lemma sorted_head_least (x : A) (t : list A) (y : A) :
  Sorted (Spec.before comparefn) (x :: t) -> In y (x :: t) ->
  Spec.before comparefn x y.
Proof.
  intros Hs Hy.
  apply Sorted_StronglySorted in Hs; [|exact before_trans].
  inversion Hs as [|? ? _ Hall]; subst.
  destruct Hy as [<-|Hy].
  - unfold Spec.before. rewrite (JS.cc_refl _ consistent). apply Qle_refl.
  - rewrite Forall_forall in Hall. now apply Hall.
Qed.

(** Two sorted arrangements of the same elements that order every class
    of equals alike are the same list. *)
Lemma sorted_stable_unique (o1 o2 : list A) :
  Sorted (Spec.before comparefn) o1 ->
  Sorted (Spec.before comparefn) o2 ->
  Permutation o1 o2 ->
  Spec.keeps_order_of_equals (fun x y => Qeq_bool (comparefn x y) 0) o1 o2 ->
  o1 = o2.
Proof.
  revert o2. induction o1 as [|x t1 IH]; intros o2 Hs1 Hs2 Hp Hk.
  - apply Permutation_nil in Hp. now subst.
  - destruct o2 as [|x' t2];
      [apply Permutation_sym, Permutation_nil in Hp; discriminate|].
    assert (Hxx' : (comparefn x x' == 0)%Q).
    { apply before_both_equal.
      - apply (sorted_head_least x t1 x' Hs1).
        apply (Permutation_in _ (Permutation_sym Hp)). now left.
      - apply (sorted_head_least x' t2 x Hs2).
        apply (Permutation_in _ Hp). now left. }
    assert (Hx : x' = x).
    { specialize (Hk x). cbn [List.filter] in Hk.
      apply Qeq_bool_iff in Hxx'. rewrite Hxx' in Hk.
      pose proof (JS.cc_refl _ consistent x) as Hr.
      apply Qeq_bool_iff in Hr. rewrite Hr in Hk. now injection Hk. }
    subst x'. f_equal.
    apply IH.
    + now inversion Hs1.
    + now inversion Hs2.
    + exact (Permutation_cons_inv Hp).
    + intros y. specialize (Hk y). cbn [List.filter] in Hk.
      destruct (Qeq_bool (comparefn y x) 0); [now injection Hk|exact Hk].
Qed.

(** Whatever array meets the contract of [sort] is the one [JS.sort]
    computes. *)
Lemma sort_determined (l out : list A) :
  Permutation l out ->
  Sorted (Spec.before comparefn) out ->
  Spec.keeps_order_of_equals (fun x y => Qeq_bool (comparefn x y) 0) l out ->
  out = JS.sort comparefn l.
Proof.
  intros Hp Hs Hk.
  apply sorted_stable_unique.
  - exact Hs.
  - apply sort_sorted. intros a b Hab.
    apply (JS.cc_flip _ consistent) in Hab. now apply Qlt_le_weak.
  - eapply perm_trans; [apply Permutation_sym, Hp|apply sort_perm].
  - intros x. rewrite Hk. apply sort_stable.
    intros z y Hz Hy. apply Qeq_bool_iff in Hz, Hy.
    rewrite (JS.cc_eq_trans _ consistent _ _ _ (cc_sym _ _ Hz) Hy). apply Qle_refl.
Qed.
End SortDetermined.

(** ** Strings *)

Section StringFacts.
Local Open Scope string_scope.

Lemma truthy_false_iff (s : string) : JS.truthy s = false <-> s = EmptyString.
Proof. destruct s; simpl; split; congruence. Qed.

Lemma append_assoc (a b c : string) : (a ++ b) ++ c = a ++ b ++ c.
Proof. induction a as [|x a IH]; simpl; [reflexivity|now rewrite IH]. Qed.

Lemma append_nil_r (a : string) : a ++ EmptyString = a.
Proof. induction a as [|x a IH]; simpl; [reflexivity|now rewrite IH]. Qed.

Lemma length_append (a b : string) :
  String.length (a ++ b) = String.length a + String.length b.
Proof. induction a as [|x a IH]; simpl; [reflexivity|now rewrite IH]. Qed.

Lemma append_inv_head (a b c : string) : a ++ b = a ++ c -> b = c.
Proof.
  induction a as [|x a IH]; simpl; intros H; [exact H|].
  injection H as H. now apply IH.
Qed.

Lemma append_inv_tail (a b c : string) : a ++ c = b ++ c -> a = b.
Proof.
  revert b. induction a as [|x a IH]; intros [|y b] H; simpl in H.
  - reflexivity.
  - exfalso. apply (f_equal String.length) in H. simpl in H.
    rewrite length_append in H. lia.
  - exfalso. apply (f_equal String.length) in H. simpl in H.
    rewrite length_append in H. lia.
  - injection H as -> H. f_equal. now apply IH.
Qed.

Lemma concat_cons (x : string) (l : list string) :
  String.concat EmptyString (x :: l) = x ++ String.concat EmptyString l.
Proof.
  destruct l as [|y l]; [symmetry; apply append_nil_r|reflexivity].
Qed.

Lemma startsWith_iff (s p : string) :
  JS.startsWith s p = true <-> exists post, s = p ++ post.
Proof.
  revert s. induction p as [|a p IH]; intros s.
  - split; [intros _; now exists s|intros _; now destruct s].
  - destruct s as [|b s]; simpl.
    + split; [discriminate|intros [post H]; discriminate].
    + rewrite andb_true_iff, IH. split.
      * intros [Hab [post ->]]. apply Ascii.eqb_eq in Hab. subst. now exists post.
      * intros [post H]. injection H as -> ->. split; [apply Ascii.eqb_refl|now exists post].
Qed.

Lemma includes_iff (s q : string) :
  JS.includes s q = true <-> exists pre post, s = pre ++ q ++ post.
Proof.
  induction s as [|c s IH];
    [change (JS.includes EmptyString q) with (JS.startsWith EmptyString q || false)
    |change (JS.includes (String c s) q)
       with (JS.startsWith (String c s) q || JS.includes s q)];
    rewrite orb_true_iff, startsWith_iff.
  - split.
    + intros [[post H]|H]; [now exists EmptyString, post|discriminate].
    + intros [pre [post H]]. left. destruct pre; [now exists post|discriminate].
  - rewrite IH. split.
    + intros [[post H]|[pre [post H]]].
      * now exists EmptyString, post.
      * exists (String c pre), post. simpl. now rewrite H.
    + intros [[|d pre] [post H]]; simpl in H.
      * left. now exists post.
      * right. injection H as _ H. now exists pre, post.
Qed.

Lemma toLowerCase_app (a b : string) :
  JS.toLowerCase (a ++ b) = JS.toLowerCase a ++ JS.toLowerCase b.
Proof. induction a as [|x a IH]; simpl; [reflexivity|now rewrite IH]. Qed.

Lemma toLowerCase_split (s x y : string) :
  JS.toLowerCase s = x ++ y ->
  exists a b, s = a ++ b /\ JS.toLowerCase a = x /\ JS.toLowerCase b = y.
Proof.
  revert s. induction x as [|c x IH]; intros s H; simpl in H.
  - now exists EmptyString, s.
  - destruct s as [|d s]; [discriminate|].
    simpl in H. injection H as Hc H.
    destruct (IH _ H) as [a [b [-> [Ha Hb]]]].
    exists (String d a), b. simpl. now rewrite Ha, Hc.
Qed.

Lemma in_all_ascii (a : ascii) : In a Spec.all_ascii.
Proof.
  unfold Spec.all_ascii. rewrite <- (ascii_nat_embedding a).
  apply in_map, in_seq. pose proof (nat_ascii_bounded a). lia.
Qed.

(** Two code units are the same letter exactly when [toLowerCase] maps
    them to one code unit: checked on all pairs. *)
Lemma same_letter_iff (a b : ascii) :
  Spec.same_letter a b = true <-> JS.lower_char a = JS.lower_char b.
Proof.
  assert (checked :
            forallb (fun a =>
              forallb (fun b =>
                Bool.eqb (Spec.same_letter a b)
                         (Ascii.eqb (JS.lower_char a) (JS.lower_char b)))
                Spec.all_ascii) Spec.all_ascii = true)
    by (vm_compute; reflexivity).
  rewrite forallb_forall in checked.
  specialize (checked a (in_all_ascii a)).
  rewrite forallb_forall in checked.
  specialize (checked b (in_all_ascii b)).
  apply Bool.eqb_prop in checked. rewrite checked. apply Ascii.eqb_eq.
Qed.

Lemma equal_ignoring_case_iff (x y : string) :
  Spec.equal_ignoring_case x y = true <-> JS.toLowerCase x = JS.toLowerCase y.
Proof.
  revert y. induction x as [|a x IH]; intros [|b y]; simpl;
    try (split; [reflexivity|reflexivity]); try (split; discriminate).
  rewrite andb_true_iff, same_letter_iff, IH. split.
  - intros [-> ->]. reflexivity.
  - intros H. injection H as Ha Hx. now split.
Qed.

(** The test the filter performs is a match without regard to case. *)
Lemma includes_lower_iff (s q : string) :
  JS.includes (JS.toLowerCase s) (JS.toLowerCase q) = true <->
  Spec.matches_ignoring_case q s.
Proof.
  rewrite includes_iff. unfold Spec.matches_ignoring_case. split.
  - intros [pre [post H]].
    apply toLowerCase_split in H. destruct H as [a [bc [-> [_ H]]]].
    apply toLowerCase_split in H. destruct H as [b [c [-> [Hb _]]]].
    exists a, b, c. split; [reflexivity|]. now apply equal_ignoring_case_iff.
  - intros [pre [mid [post [-> H]]]]. apply equal_ignoring_case_iff in H.
    exists (JS.toLowerCase pre), (JS.toLowerCase post).
    now rewrite !toLowerCase_app, H.
Qed.
End StringFacts.

(** ** The filter callback *)

Lemma keep_true_iff (f : Filters.t) (p : Product.t) :
  ProductsPage.keep f p = true <->
  Spec.search_ok f p /\ Spec.category_ok f p /\ Spec.price_ok f p.
Proof.
  unfold ProductsPage.keep, Spec.search_ok, Spec.category_ok, Spec.price_ok.
  cbv zeta.
  destruct (JS.truthy (Filters.search f)) eqn:Es.
  - assert (Hs : Filters.search f <> EmptyString)
      by (intro H; apply truthy_false_iff in H; congruence).
    destruct (JS.includes (JS.toLowerCase (Product.name p))
                (JS.toLowerCase (Filters.search f))) eqn:En;
      [|destruct (JS.includes (JS.toLowerCase (Product.description p))
                    (JS.toLowerCase (Filters.search f))) eqn:Ed]; simpl.
    3:{ split; [discriminate|]. intros [[H|[H|H]] _]; [contradiction| |];
        apply includes_lower_iff in H; congruence. }
    all: assert (Hm : Filters.search f = EmptyString \/
              Spec.matches_ignoring_case (Filters.search f) (Product.name p) \/
              Spec.matches_ignoring_case (Filters.search f) (Product.description p))
        by (first [apply includes_lower_iff in En; now (right; left)
                  |apply includes_lower_iff in Ed; now (right; right)]).
    all: destruct (JS.truthy (Filters.category f)) eqn:Ec; simpl.
    all: try destruct (String.eqb_spec (Product.category p) (Filters.category f)) as [Hc|Hc];
      simpl.
    all: destruct (JS.gt (Product.price p) (Filters.maxPrice f)) eqn:Ep;
      [apply gt_true_iff in Ep|apply gt_false_iff in Ep].
    all: try apply truthy_false_iff in Ec.
    all: split; try discriminate; try (intros _; now auto).
    all: intros [_ [Hcat Hp]]; try (exfalso; apply (Qlt_not_le _ _ Ep Hp)).
    all: destruct Hcat as [Hcat|Hcat]; try contradiction.
    all: rewrite Hcat in Ec; discriminate.
  - apply truthy_false_iff in Es. simpl.
    destruct (JS.truthy (Filters.category f)) eqn:Ec; simpl.
    all: try destruct (String.eqb_spec (Product.category p) (Filters.category f)) as [Hc|Hc];
      simpl.
    all: destruct (JS.gt (Product.price p) (Filters.maxPrice f)) eqn:Ep;
      [apply gt_true_iff in Ep|apply gt_false_iff in Ep].
    all: try apply truthy_false_iff in Ec.
    all: split; try discriminate; try (intros _; now auto).
    all: intros [_ [Hcat Hp]]; try (exfalso; apply (Qlt_not_le _ _ Ep Hp)).
    all: destruct Hcat as [Hcat|Hcat]; try contradiction.
    all: rewrite Hcat in Ec; discriminate.
Qed.

(** ** Comparators *)

(** The code-unit order is a consistent comparator. *)
Lemma codeunit_compare_consistent : JS.ConsistentComparator codeunit_compare.
Proof.
  assert (sign : forall a b,
             (codeunit_compare a b < 0)%Q <-> String.compare a b = Lt).
  { intros a b. unfold codeunit_compare.
    destruct (String.compare a b); split; intro H;
      first [reflexivity | discriminate | lra | (exfalso; revert H; lra)]. }
  assert (zero : forall a b, (codeunit_compare a b == 0)%Q <-> a = b).
  { intros a b. rewrite <- String_as_OT.cmp_eq.
    unfold codeunit_compare, String_as_OT.cmp.
    destruct (String.compare a b); split; intro H;
      first [reflexivity | discriminate | lra | (exfalso; revert H; lra)]. }
  constructor.
  - intros a. now apply zero.
  - intros a b. rewrite sign. unfold codeunit_compare.
    rewrite (String.compare_antisym b a).
    destruct (String.compare a b); simpl; split; intro H;
      first [reflexivity | discriminate | lra | (exfalso; revert H; lra)].
  - intros a b c Hab Hbc. apply zero in Hab, Hbc. apply zero. congruence.
  - intros a b c Hab Hbc. apply sign in Hab, Hbc. apply sign.
    apply String_as_OT.cmp_lt in Hab, Hbc. apply String_as_OT.cmp_lt.
    exact (String_as_OT.lt_trans _ _ _ Hab Hbc).
Qed.

Section ComparatorFacts.
Variable localeCompare : string -> string -> Q.
Hypothesis consistent : JS.ConsistentComparator localeCompare.

(** Every comparator [applySort] selects can be flipped... *)
Lemma comparator_flip_price (sortBy : string) (a b : Product.t) :
  (String.eqb sortBy "price-low" || String.eqb sortBy "price-high" = true) ->
  (0 < ProductsPage.comparator localeCompare sortBy a b)%Q ->
  (ProductsPage.comparator localeCompare sortBy b a <= 0)%Q.
Proof.
  unfold ProductsPage.comparator.
  destruct (String.eqb sortBy "price-low"); [intros _; lra|].
  destruct (String.eqb sortBy "price-high"); [intros _; lra|discriminate].
Qed.

Lemma comparator_flip_name (sortBy : string) (a b : Product.t) :
  (String.eqb sortBy "price-low" || String.eqb sortBy "price-high" = false) ->
  (0 < ProductsPage.comparator localeCompare sortBy a b)%Q ->
  (ProductsPage.comparator localeCompare sortBy b a <= 0)%Q.
Proof.
  unfold ProductsPage.comparator.
  destruct (String.eqb sortBy "price-low"); [discriminate|].
  destruct (String.eqb sortBy "price-high"); [discriminate|]. intros _.
  intros H. apply (JS.cc_flip _ consistent) in H. now apply Qlt_le_weak.
Qed.

(** ... never reorders two products of one price... *)
Lemma comparator_same_price (sortBy : string) (q : Q) (z y : Product.t) :
  Spec.has_price q z = true -> Spec.has_price q y = true ->
  (String.eqb sortBy "price-low" || String.eqb sortBy "price-high" = true) ->
  (ProductsPage.comparator localeCompare sortBy z y <= 0)%Q.
Proof.
  unfold Spec.has_price, ProductsPage.comparator. intros Hz Hy.
  apply Qeq_bool_iff in Hz, Hy.
  destruct (String.eqb sortBy "price-low"); [intros _; lra|].
  destruct (String.eqb sortBy "price-high"); [intros _; lra|discriminate].
Qed.

(** ... and never reorders two products whose names compare equal. *)
Lemma comparator_same_name (sortBy : string) (n : string) (z y : Product.t) :
  Spec.has_name localeCompare n z = true ->
  Spec.has_name localeCompare n y = true ->
  (String.eqb sortBy "price-low" || String.eqb sortBy "price-high" = false) ->
  (ProductsPage.comparator localeCompare sortBy z y <= 0)%Q.
Proof.
  unfold Spec.has_name, ProductsPage.comparator. intros Hz Hy.
  apply Qeq_bool_iff in Hz, Hy.
  destruct (String.eqb sortBy "price-low"); [discriminate|].
  destruct (String.eqb sortBy "price-high"); [discriminate|]. intros _.
  apply (cc_sym _ consistent) in Hz.
  rewrite (JS.cc_eq_trans _ consistent _ _ _ Hz Hy). apply Qle_refl.
Qed.

(** The comparators of [applySort] are consistent when [localeCompare] is. *)
Lemma comparator_consistent (sortBy : string) :
  JS.ConsistentComparator (ProductsPage.comparator localeCompare sortBy).
Proof.
  unfold ProductsPage.comparator.
  destruct (String.eqb sortBy "price-low");
    [|destruct (String.eqb sortBy "price-high")].
  - constructor; intros; lra.
  - constructor; intros; lra.
  - constructor; intros.
    + apply (JS.cc_refl _ consistent).
    + apply (JS.cc_flip _ consistent).
    + eapply (JS.cc_eq_trans _ consistent); eassumption.
    + eapply (JS.cc_lt_trans _ consistent); eassumption.
Qed.
End ComparatorFacts.

(** ** The listing page: what [applySort] and [applyFilters] compute *)

Section Pipeline.
Variable localeCompare : string -> string -> Q.

Lemma applySort_view (s : ProductsPage.state) :
  ProductsPage.view (ProductsPage.applySort localeCompare s) =
  JS.sort (ProductsPage.comparator localeCompare
             (Filters.sortBy (ProductsPage.filters s)))
          (ProductsPage.view s).
Proof.
  unfold ProductsPage.applySort, ProductsPage.view; simpl.
  now rewrite !Nat.eqb_refl.
Qed.

Lemma applyFilters_view (s : ProductsPage.state) :
  ProductsPage.view (ProductsPage.applyFilters localeCompare s) =
  JS.sort (ProductsPage.comparator localeCompare
             (Filters.sortBy (ProductsPage.filters s)))
          (List.filter (ProductsPage.keep (ProductsPage.filters s))
                       (ProductsPage.catalog s)).
Proof.
  unfold ProductsPage.applyFilters. simpl. rewrite applySort_view.
  unfold ProductsPage.view, ProductsPage.catalog; simpl.
  now rewrite Nat.eqb_refl.
Qed.

(** Arrays that exist before a step are the same after it. *)
Lemma applySort_frame (s : ProductsPage.state) (r : Heap.ref) :
  Heap.allocated (ProductsPage.heap s) r ->
  Heap.cell (ProductsPage.heap (ProductsPage.applySort localeCompare s)) r =
  Heap.cell (ProductsPage.heap s) r.
Proof.
  unfold Heap.allocated, ProductsPage.applySort; simpl. intros Hr.
  destruct (Nat.eqb_spec r (Heap.next (ProductsPage.heap s))); [lia|reflexivity].
Qed.

Lemma applyFilters_frame (s : ProductsPage.state) (r : Heap.ref) :
  Heap.allocated (ProductsPage.heap s) r ->
  Heap.cell (ProductsPage.heap (ProductsPage.applyFilters localeCompare s)) r =
  Heap.cell (ProductsPage.heap s) r.
Proof.
  unfold Heap.allocated, ProductsPage.applyFilters, ProductsPage.applySort; simpl.
  intros Hr.
  repeat match goal with
         | |- context [Nat.eqb ?a ?b] => destruct (Nat.eqb_spec a b)
         end; try lia; reflexivity.
Qed.

Lemma applyFilters_allocated (s : ProductsPage.state) (r : Heap.ref) :
  Heap.allocated (ProductsPage.heap s) r ->
  Heap.allocated (ProductsPage.heap (ProductsPage.applyFilters localeCompare s)) r.
Proof.
  unfold Heap.allocated, ProductsPage.applyFilters, ProductsPage.applySort; simpl. lia.
Qed.

Lemma applyFilters_variables (s : ProductsPage.state) :
  ProductsPage.allProducts (ProductsPage.applyFilters localeCompare s) =
    ProductsPage.allProducts s /\
  ProductsPage.filters (ProductsPage.applyFilters localeCompare s) =
    ProductsPage.filters s.
Proof. split; reflexivity. Qed.

(** Any array that is a sorted, stable rearrangement of the filtered
    products is the one [applySort] leaves in [filteredProducts]. *)
Lemma applySort_determined (s : ProductsPage.state) (out : list Product.t) :
  JS.ConsistentComparator localeCompare ->
  let comparefn :=
    ProductsPage.comparator localeCompare (Filters.sortBy (ProductsPage.filters s)) in
  Permutation (ProductsPage.view s) out ->
  Sorted (Spec.before comparefn) out ->
  Spec.keeps_order_of_equals (fun x y => Qeq_bool (comparefn x y) 0)
    (ProductsPage.view s) out ->
  out = ProductsPage.view (ProductsPage.applySort localeCompare s).
Proof.
  intros Hc comparefn Hp Hs Hk. rewrite applySort_view.
  apply sort_determined; try assumption.
  now apply comparator_consistent.
Qed.
End Pipeline.

(** ** The filter/sort pipeline: the claims *)

(** C1.  For every catalog and every filter state, what [applyFilters]
    leaves in [filteredProducts] holds exactly the products of the
    catalog that pass the three inclusion predicates (search without
    regard to case in the name or the description, skipped when the
    search is empty; equality with the category filter, skipped when it
    is empty; price at most [maxPrice]) and no other product. *)
Theorem applyFilters_selects_exactly :
  forall (localeCompare : string -> string -> Q) (s : ProductsPage.state)
         (p : Product.t),
    In p (ProductsPage.view (ProductsPage.applyFilters localeCompare s)) <->
    In p (ProductsPage.catalog s) /\
    Spec.search_ok (ProductsPage.filters s) p /\
    Spec.category_ok (ProductsPage.filters s) p /\
    Spec.price_ok (ProductsPage.filters s) p.
Proof.
  intros lc s p. rewrite applyFilters_view.
  rewrite <- keep_true_iff, <- filter_In.
  split; intro H.
  - eapply Permutation_in; [apply Permutation_sym, sort_perm|exact H].
  - eapply Permutation_in; [apply sort_perm|exact H].
Qed.

(** The filtered products are the selected ones with their multiplicity. *)
Lemma applyFilters_permutation (localeCompare : string -> string -> Q)
      (s : ProductsPage.state) :
  Permutation
    (List.filter (ProductsPage.keep (ProductsPage.filters s)) (ProductsPage.catalog s))
    (ProductsPage.view (ProductsPage.applyFilters localeCompare s)).
Proof. rewrite applyFilters_view. apply sort_perm. Qed.

(** The same for the pipeline as a function of catalog and filter state. *)
Corollary apply_selects_exactly :
  forall (localeCompare : string -> string -> Q) (products : list Product.t)
         (f : Filters.t) (p : Product.t),
    In p (ProductsPage.apply localeCompare products f) <->
    In p products /\ Spec.search_ok f p /\ Spec.category_ok f p /\ Spec.price_ok f p.
Proof.
  intros lc products f p. unfold ProductsPage.apply.
  rewrite applyFilters_view, <- keep_true_iff, <- filter_In.
  change (ProductsPage.catalog (ProductsPage.with_filters f (ProductsPage.loaded products)))
    with products.
  split; intro H.
  - eapply Permutation_in; [apply Permutation_sym, sort_perm|exact H].
  - eapply Permutation_in; [apply sort_perm|exact H].
Qed.

(** C2.  For every array of filtered products and every [sortBy],
    [applySort] rearranges it stably (the same products; products of
    equal key keep their order) so that adjacent pairs have ascending
    prices for ['price-low'], descending prices for ['price-high'], and
    names ascending by [localeCompare] for ['name'] and for every other
    value of [sortBy].  The name order relies on [localeCompare] being a
    consistent comparator. *)
Theorem applySort_orders :
  forall (localeCompare : string -> string -> Q) (s : ProductsPage.state),
    let sortBy := Filters.sortBy (ProductsPage.filters s) in
    let inp := ProductsPage.view s in
    let out := ProductsPage.view (ProductsPage.applySort localeCompare s) in
    Permutation inp out /\
    (sortBy = "price-low"%string ->
       Spec.adjacent_pairs
         (fun a b => (Product.price a <= Product.price b)%Q) out /\
       Spec.keeps_order_of_equals Spec.has_price inp out) /\
    (sortBy = "price-high"%string ->
       Spec.adjacent_pairs
         (fun a b => (Product.price b <= Product.price a)%Q) out /\
       Spec.keeps_order_of_equals Spec.has_price inp out) /\
    (sortBy <> "price-low"%string -> sortBy <> "price-high"%string ->
     JS.ConsistentComparator localeCompare ->
       Spec.adjacent_pairs
         (fun a b => (localeCompare (Product.name a) (Product.name b) <= 0)%Q) out /\
       Spec.keeps_order_of_equals (Spec.has_name localeCompare) inp out).
Proof.
  intros lc s sortBy inp out. subst out. rewrite applySort_view. fold sortBy inp.
  split; [apply sort_perm|].
  split; [|split].
  - intros E.
    assert (Hp : (String.eqb sortBy "price-low" || String.eqb sortBy "price-high")%bool = true)
      by (rewrite E; reflexivity).
    split.
    + assert (Hs := sort_sorted (ProductsPage.comparator lc sortBy)
                      (fun a b => comparator_flip_price lc sortBy a b Hp) inp).
      apply sorted_adjacent in Hs. intros l1 a b l2 Hl.
      specialize (Hs l1 a b l2 Hl). unfold Spec.before, ProductsPage.comparator in Hs.
      rewrite E in Hs. simpl in Hs. lra.
    + intros q. apply sort_stable. intros z y Hz Hy.
      exact (comparator_same_price lc sortBy q z y Hz Hy Hp).
  - intros E.
    assert (Hp : (String.eqb sortBy "price-low" || String.eqb sortBy "price-high")%bool = true)
      by (rewrite E; reflexivity).
    split.
    + assert (Hs := sort_sorted (ProductsPage.comparator lc sortBy)
                      (fun a b => comparator_flip_price lc sortBy a b Hp) inp).
      apply sorted_adjacent in Hs. intros l1 a b l2 Hl.
      specialize (Hs l1 a b l2 Hl). unfold Spec.before, ProductsPage.comparator in Hs.
      rewrite E in Hs. simpl in Hs. lra.
    + intros q. apply sort_stable. intros z y Hz Hy.
      exact (comparator_same_price lc sortBy q z y Hz Hy Hp).
  - intros Hlow Hhigh Hc.
    assert (Hp : (String.eqb sortBy "price-low" || String.eqb sortBy "price-high")%bool = false).
    { apply orb_false_iff. split; apply String.eqb_neq; assumption. }
    split.
    + assert (Hs := sort_sorted (ProductsPage.comparator lc sortBy)
                      (fun a b => comparator_flip_name lc Hc sortBy a b Hp) inp).
      apply sorted_adjacent in Hs. intros l1 a b l2 Hl.
      specialize (Hs l1 a b l2 Hl). unfold Spec.before, ProductsPage.comparator in Hs.
      apply orb_false_iff in Hp. destruct Hp as [H1 H2].
      now rewrite H1, H2 in Hs.
    + intros n. apply sort_stable. intros z y Hz Hy.
      exact (comparator_same_name lc Hc sortBy n z y Hz Hy Hp).
Qed.

Lemma applySort_orders_witness :
  Spec.adjacent_pairs
    (fun a b => (codeunit_compare (Product.name a) (Product.name b) <= 0)%Q)
    (ProductsPage.view
       (ProductsPage.applySort codeunit_compare (ProductsPage.loaded [zinc; amlo]))) /\
  ProductsPage.view
    (ProductsPage.applySort codeunit_compare (ProductsPage.loaded [zinc; amlo])) =
  [amlo; zinc].
Proof.
  split; [|reflexivity].
  destruct (applySort_orders codeunit_compare (ProductsPage.loaded [zinc; amlo]))
    as [_ [_ [_ Hname]]].
  apply Hname.
  - discriminate.
  - discriminate.
  - exact codeunit_compare_consistent.
Defined.

(** C4.  Filtering and sorting never mutate the catalog: after
    [applyFilters] (with its [applySort] step, and after [applySort]
    alone) the variable [allProducts] refers to the same array, and that
    array holds the same products in the same order as before. *)
Theorem applyFilters_preserves_catalog :
  forall (localeCompare : string -> string -> Q) (s : ProductsPage.state),
    Heap.allocated (ProductsPage.heap s) (ProductsPage.allProducts s) ->
    let s' := ProductsPage.applyFilters localeCompare s in
    ProductsPage.allProducts s' = ProductsPage.allProducts s /\
    ProductsPage.catalog s' = ProductsPage.catalog s /\
    ProductsPage.catalog (ProductsPage.applySort localeCompare s) =
      ProductsPage.catalog s /\
    Heap.allocated (ProductsPage.heap s') (ProductsPage.allProducts s').
Proof.
  intros lc s Ha s'. subst s'.
  split; [reflexivity|]. split; [|split].
  - unfold ProductsPage.catalog.
    now rewrite (proj1 (applyFilters_variables lc s)), applyFilters_frame.
  - unfold ProductsPage.catalog.
    change (ProductsPage.allProducts (ProductsPage.applySort lc s))
      with (ProductsPage.allProducts s).
    now rewrite applySort_frame.
  - now apply applyFilters_allocated.
Qed.

Lemma applyFilters_preserves_catalog_witness :
  ProductsPage.catalog
    (ProductsPage.applyFilters codeunit_compare (ProductsPage.loaded [zinc; amlo])) =
  [zinc; amlo].
Proof.
  apply (applyFilters_preserves_catalog codeunit_compare
           (ProductsPage.loaded [zinc; amlo])).
  unfold Heap.allocated. simpl. lia.
Defined.

(** C5.  The pipeline is idempotent: running [applyFilters] a second
    time, the filter object unchanged, leaves in [filteredProducts]
    exactly the list the first run left there, in the same order. *)
Theorem applyFilters_idempotent :
  forall (localeCompare : string -> string -> Q) (s : ProductsPage.state),
    Heap.allocated (ProductsPage.heap s) (ProductsPage.allProducts s) ->
    ProductsPage.view
      (ProductsPage.applyFilters localeCompare
         (ProductsPage.applyFilters localeCompare s)) =
    ProductsPage.view (ProductsPage.applyFilters localeCompare s).
Proof.
  intros lc s Ha.
  rewrite (applyFilters_view lc (ProductsPage.applyFilters lc s)).
  rewrite (applyFilters_view lc s).
  unfold ProductsPage.catalog.
  rewrite (proj1 (applyFilters_variables lc s)), (proj2 (applyFilters_variables lc s)).
  now rewrite applyFilters_frame.
Qed.

Lemma applyFilters_idempotent_witness :
  ProductsPage.view
    (ProductsPage.applyFilters codeunit_compare
       (ProductsPage.applyFilters codeunit_compare (ProductsPage.loaded [zinc; amlo]))) =
  ProductsPage.view
    (ProductsPage.applyFilters codeunit_compare (ProductsPage.loaded [zinc; amlo])).
Proof.
  apply applyFilters_idempotent. unfold Heap.allocated. simpl. lia.
Defined.

(** Feeding the pipeline its own output changes nothing either, for a
    consistent [localeCompare]. *)
Lemma apply_fixpoint :
  forall (localeCompare : string -> string -> Q) (products : list Product.t)
         (f : Filters.t),
    JS.ConsistentComparator localeCompare ->
    ProductsPage.apply localeCompare
      (ProductsPage.apply localeCompare products f) f =
    ProductsPage.apply localeCompare products f.
Proof.
  intros lc products f Hc. unfold ProductsPage.apply.
  rewrite !applyFilters_view.
  change (ProductsPage.filters (ProductsPage.with_filters f ?s)) with f.
  set (cmp := ProductsPage.comparator lc (Filters.sortBy f)).
  set (out := JS.sort cmp _) at 2.
  change (ProductsPage.catalog (ProductsPage.with_filters f (ProductsPage.loaded out)))
    with out.
  assert (Hflip : forall a b, (0 < cmp a b)%Q -> (cmp b a <= 0)%Q).
  { intros a b. subst cmp.
    destruct (String.eqb (Filters.sortBy f) "price-low" ||
              String.eqb (Filters.sortBy f) "price-high")%bool eqn:E.
    - now apply comparator_flip_price.
    - now apply comparator_flip_name. }
  assert (Hall : List.filter (ProductsPage.keep f) out = out).
  { apply forallb_filter_id. apply forallb_forall. intros p Hp.
    subst out. apply (Permutation_in _ (Permutation_sym (sort_perm cmp _))) in Hp.
    now apply filter_In in Hp. }
  rewrite Hall. subst out. apply sort_sorted_id. now apply sort_sorted.
Qed.

(** The scenarios of the specification. *)
Example scenario_max_price_8 :
  ProductsPage.apply codeunit_compare scenario_catalog
    {| Filters.search := EmptyString; Filters.category := EmptyString;
       Filters.maxPrice := 8%Q; Filters.sortBy := "price-low" |} = [zinc].
Proof. reflexivity. Qed.

Example scenario_by_name :
  ProductsPage.apply codeunit_compare scenario_catalog
    {| Filters.search := EmptyString; Filters.category := EmptyString;
       Filters.maxPrice := 100%Q; Filters.sortBy := "name" |} = [amlo; zinc].
Proof. reflexivity. Qed.

(** ** The image prober *)

Section ProbeFacts.
Variable loadImage : string -> bool.
Variable base encodedFolder : string.

Local Abbreviation url := (Carousel.candidate base encodedFolder).

(** The inner loop over a tail [exts] of the extension list. *)
Lemma try_extensions_found (i : nat) (exts : list string) (u : string)
      (tried : list string) :
  Carousel.try_extensions loadImage base encodedFolder i exts = (Some u, tried) ->
  exists earlier ext later,
    exts = (earlier ++ ext :: later)%list /\
    (forall e, In e earlier -> loadImage (url i e) = false) /\
    loadImage (url i ext) = true /\
    u = url i ext /\
    tried = List.map (url i) (earlier ++ [ext]).
Proof.
  revert tried. induction exts as [|e exts IH]; intros tried; simpl; [discriminate|].
  fold (url i e).
  destruct (loadImage (url i e)) eqn:E.
  - intros H. injection H as <- <-.
    exists [], e, exts. simpl. repeat split; try assumption. intros ? [].
  - destruct (Carousel.try_extensions loadImage base encodedFolder i exts)
      as [found tried'] eqn:Et.
    intros H. injection H as -> <-.
    destruct (IH _ eq_refl) as [earlier [ext [later [-> [Hf [Hl [Hu Ht]]]]]]].
    exists (e :: earlier), ext, later. simpl. repeat split; try assumption.
    + intros e' [<-|H]; [assumption|now apply Hf].
    + now rewrite Ht.
Qed.

Lemma try_extensions_none (i : nat) (exts : list string) (tried : list string) :
  Carousel.try_extensions loadImage base encodedFolder i exts = (None, tried) ->
  (forall e, In e exts -> loadImage (url i e) = false) /\
  tried = List.map (url i) exts.
Proof.
  revert tried. induction exts as [|e exts IH]; intros tried; simpl.
  - intros H. injection H as <-. split; [intros ? []|reflexivity].
  - fold (url i e). destruct (loadImage (url i e)) eqn:E; [discriminate|].
    destruct (Carousel.try_extensions loadImage base encodedFolder i exts)
      as [found tried'] eqn:Et.
    intros H. injection H as -> <-.
    destruct (IH _ eq_refl) as [Hf ->]. split; [|reflexivity].
    intros e' [<-|H]; [assumption|now apply Hf].
Qed.

(** The outer loop from index [i] with [n] iterations to go. *)
Lemma probe_from_spec (n i : nat) (urls tried : list string) :
  Carousel.probe_from loadImage base encodedFolder i n = (urls, tried) ->
  List.length urls <= n /\
  (forall k, k < List.length urls ->
     exists ext, Spec.first_loading loadImage url (i + k) ext /\
                 nth_error urls k = Some (url (i + k) ext)) /\
  (List.length urls < n ->
     Spec.none_loading loadImage url (i + List.length urls)) /\
  (forall u, In u tried ->
     exists j ext, i <= j < i + n /\ In ext Carousel.EXTENSIONS /\ u = url j ext).
Proof.
  revert i urls tried.
  induction n as [|n IH]; intros i urls tried; cbn [Carousel.probe_from].
  - intros H. injection H as <- <-. simpl.
    repeat split; try lia; intros; try lia.
  - destruct (Carousel.try_extensions loadImage base encodedFolder i Carousel.EXTENSIONS)
      as [[u|] t] eqn:Et.
    + destruct (Carousel.probe_from loadImage base encodedFolder (S i) n)
        as [urls' tried'] eqn:Ep.
      intros H. injection H as <- <-.
      destruct (IH _ _ _ Ep) as [Hlen [Hidx [Hstop Htried]]].
      destruct (try_extensions_found _ _ _ _ Et)
        as [earlier [ext [later [Hexts [Hf [Hl [-> ->]]]]]]].
      cbn [List.length]. repeat split.
      * lia.
      * intros [|k] Hk.
        -- exists ext. rewrite Nat.add_0_r. split; [|reflexivity].
           now exists earlier, later.
        -- destruct (Hidx k ltac:(lia)) as [ext' [Hfl Hnth]].
           exists ext'. replace (i + S k) with (S i + k) by lia. now split.
      * intros Hlt. replace (i + S (List.length urls')) with (S i + List.length urls') by lia.
        apply Hstop. lia.
      * intros u' Hin. apply in_app_or in Hin. destruct Hin as [Hin|Hin].
        -- apply in_map_iff in Hin. destruct Hin as [e [<- He]].
           exists i, e. repeat split; try lia.
           rewrite Hexts. apply in_app_or in He. apply in_or_app.
           destruct He as [He|[<-|[]]]; [now left|right; now left].
        -- destruct (Htried _ Hin) as [j [e [Hj [He ->]]]].
           exists j, e. repeat split; try lia. assumption.
    + intros H. injection H as <- <-.
      destruct (try_extensions_none _ _ _ Et) as [Hf ->].
      cbn [List.length]. repeat split; try lia.
      * intros _. rewrite Nat.add_0_r. exact Hf.
      * intros u' Hin. apply in_map_iff in Hin. destruct Hin as [e [<- He]].
        exists i, e. repeat split; try lia. assumption.
Qed.
End ProbeFacts.

Lemma truthy_true_iff (s : string) : JS.truthy s = true <-> s <> EmptyString.
Proof. destruct s; simpl; split; congruence. Qed.

(** C8.  For a folder identifier that is empty, or that decodes and
    trims to the empty string, [probeImages] returns the empty sequence
    without attempting a single image load. *)
Theorem probeImages_empty_folder :
  forall (loadImage : string -> bool) (pathname folder : string),
    folder = EmptyString \/
    (exists d, JS.decodeURIComponent folder = Some d /\ JS.trim d = EmptyString) ->
    Carousel.probeImages loadImage pathname folder = (Some [], []).
Proof.
  intros loadImage pathname folder [->|[d [Hd Ht]]]; [reflexivity|].
  unfold Carousel.probeImages.
  destruct (JS.truthy folder); [|reflexivity].
  simpl. rewrite Hd, Ht. reflexivity.
Qed.

Lemma probeImages_empty_folder_witness :
  Carousel.probeImages any_host "/products/index.html" "%20%09" = (Some [], []).
Proof.
  apply probeImages_empty_folder. right.
  exists (String " " (String "009" EmptyString))%string. split; reflexivity.
Defined.

(** C3, as the code has it.  For every folder identifier that decodes
    and trims to a non-empty string, and every host, [probeImages]
    returns, in ascending index order, one URL per index 1, 2, ..., each
    with the first extension of [jpeg, jpg, png] whose candidate URL
    loads; it stops at the first index where no extension loads and never
    probes past index 12, so it returns between 0 and 12 URLs.  With
    images at the indices 1, 2, 3 and none at 4 it returns exactly 3. *)
Theorem probeImages_first_extension_until_gap :
  forall (loadImage : string -> bool) (pathname folder d : string),
    JS.decodeURIComponent folder = Some d ->
    JS.trim d <> EmptyString ->
    let url := Carousel.candidate (Carousel.basePath pathname)
                 (JS.replace_2F (JS.encodeURIComponent (JS.trim d))) in
    exists urls tried,
      Carousel.probeImages loadImage pathname folder = (Some urls, tried) /\
      Spec.probed loadImage url urls /\
      Spec.within_cap url tried /\
      ((forall i, 1 <= i <= 3 -> Spec.some_loading loadImage url i) ->
       Spec.none_loading loadImage url 4 ->
       List.length urls = 3).
Proof.
  intros loadImage pathname folder d Hd Ht url.
  unfold Carousel.probeImages.
  assert (Hf : JS.truthy folder = true).
  { destruct folder; [|reflexivity]. simpl in Hd. injection Hd as <-.
    now contradiction Ht. }
  rewrite Hf, Hd. simpl negb. cbv iota.
  apply truthy_true_iff in Ht. rewrite Ht. simpl negb. cbv iota.
  fold url.
  destruct (Carousel.probe_from loadImage (Carousel.basePath pathname)
              (JS.replace_2F (JS.encodeURIComponent (JS.trim d))) 1 Carousel.MAX_IMAGES)
    as [urls tried] eqn:Ep.
  apply probe_from_spec in Ep. fold url in Ep.
  destruct Ep as [Hlen [Hidx [Hstop Htried]]].
  unfold Carousel.MAX_IMAGES in *.
  assert (Hprobed : Spec.probed loadImage url urls).
  { split; [exact Hlen|]. split; [exact Hidx|exact Hstop]. }
  exists urls, tried. split; [reflexivity|]. split; [exact Hprobed|]. split.
  - intros u Hu. destruct (Htried u Hu) as [j [e [Hj [He ->]]]].
    exists j, e. repeat split; try lia; assumption.
  - intros H123 H4.
    destruct (Nat.lt_trichotomy (List.length urls) 3) as [Hlt|[Heq|Hgt]];
      [exfalso|exact Heq|exfalso].
    + destruct (H123 (S (List.length urls)) ltac:(lia)) as [e [He Hload]].
      specialize (Hstop ltac:(lia) e He). simpl in Hstop. congruence.
    + destruct (Hidx 3 Hgt) as [ext [[earlier [later [Hexts [_ Hload]]]] _]].
      simpl in Hload.
      assert (He : In ext Carousel.EXTENSIONS)
        by (rewrite Hexts; apply in_or_app; right; now left).
      specialize (H4 ext He). congruence.
Qed.

Lemma probeImages_first_extension_until_gap_witness :
  exists urls tried,
    Carousel.probeImages meds_host "/index.html" "meds" = (Some urls, tried) /\
    Spec.probed meds_host (Carousel.candidate EmptyString "meds") urls /\
    Spec.within_cap (Carousel.candidate EmptyString "meds") tried /\
    ((forall i, 1 <= i <= 3 -> Spec.some_loading meds_host (Carousel.candidate EmptyString "meds") i) ->
     Spec.none_loading meds_host (Carousel.candidate EmptyString "meds") 4 ->
     List.length urls = 3).
Proof.
  apply (probeImages_first_extension_until_gap meds_host "/index.html" "meds" "meds").
  - reflexivity.
  - discriminate.
Defined.

Example probeImages_meds :
  Carousel.probeImages meds_host "/index.html" "meds" =
  (Some ["meds/1.jpg"; "meds/2.png"; "meds/3.jpeg"]%string,
   ["meds/1.jpeg"; "meds/1.jpg"; "meds/2.jpeg"; "meds/2.jpg"; "meds/2.png";
    "meds/3.jpeg"; "meds/4.jpeg"; "meds/4.jpg"; "meds/4.png"]%string).
Proof. reflexivity. Qed.

(** C3 as it was stated, for every non-empty folder identifier, fails:
    the identifier of one space is not empty, yet on a host where every
    image loads nothing is probed and the result is empty, for any
    reading of the candidate URLs. *)
Lemma probeImages_blank_folder_not_probed :
  " "%string <> EmptyString /\
  Carousel.probeImages any_host "/index.html" (" "%string) = (Some [], []) /\
  ~ (exists urls tried url,
        Carousel.probeImages any_host "/index.html" (" "%string) = (Some urls, tried) /\
        Spec.probed any_host url urls).
Proof.
  split; [discriminate|]. split; [reflexivity|].
  intros [urls [tried [url [H [_ [_ Hstop]]]]]].
  change (Carousel.probeImages any_host "/index.html" (" "%string))
    with (Some (@nil string), @nil string) in H.
  injection H as <- <-.
  specialize (Hstop ltac:(simpl; lia) "jpeg"%string ltac:(now left)).
  discriminate.
Qed.

(** ** Catalog loading *)

(** C7, as the code has it.  [loadProducts] never raises to its
    caller, whatever the fetch does; when the fetch fails or answers
    with a non-success status the error is caught and logged, the
    function returns the empty list, and the catalog variable is left
    as it was.  So the caller sees an empty catalog; and when no catalog
    was stored before, everything that reads the store finds nothing:
    the lookup by id, the featured products and the search. *)
Theorem loadProducts_never_raises :
  forall (pathname : string) (fetch : string -> ProductManager.fetch_outcome)
         (w : ProductManager.world),
    exists l w',
      ProductManager.loadProducts pathname fetch w = (ProductManager.Normal l, w') /\
      (Spec.fetch_failed (fetch (Spec.productsPath pathname)) ->
       l = [] /\
       ProductManager.products w' = ProductManager.products w /\
       (exists e, ProductManager.console w' =
                  ProductManager.console w ++
                  [ProductManager.Error "Failed to load products:" e]) /\
       (ProductManager.products w = [] ->
        (forall id, ProductManager.getById id w' = (ProductManager.Normal None, w')) /\
        (forall count,
            ProductManager.getFeatured count w' = (ProductManager.Normal [], w')) /\
        (forall query,
            ProductManager.search query w' = (ProductManager.Normal [], w')))).
Proof.
  intros pathname fetch w.
  assert (Hempty : forall w' : ProductManager.world,
             ProductManager.products w' = [] ->
             (forall id, ProductManager.getById id w' = (ProductManager.Normal None, w')) /\
             (forall count,
                 ProductManager.getFeatured count w' = (ProductManager.Normal [], w')) /\
             (forall query,
                 ProductManager.search query w' = (ProductManager.Normal [], w'))).
  { intros w' Hw'. split; [|split].
    - intros id. unfold ProductManager.getById. rewrite Hw'. reflexivity.
    - intros count. unfold ProductManager.getFeatured, JS.slice0. rewrite Hw'.
      now rewrite firstn_nil.
    - intros query. unfold ProductManager.search. rewrite Hw'. reflexivity. }
  unfold ProductManager.loadProducts, ProductManager.try_catch, ProductManager.bind,
    ProductManager.await_fetch, Spec.productsPath.
  destruct (fetch (if JS.includes pathname "/products/"
                   then "products.json"%string else "products/products.json"%string))
    as [e|[ok status json]]; simpl.
  - eexists _, _. split; [reflexivity|]. intros _. simpl.
    split; [reflexivity|]. split; [reflexivity|]. split; [now exists e|].
    intros Hw. now apply Hempty.
  - destruct ok; simpl.
    + unfold ProductManager.await_json. destruct json as [l|]; simpl.
      * eexists _, _. split; [reflexivity|]. discriminate.
      * eexists _, _. split; [reflexivity|]. discriminate.
    + eexists _, _. split; [reflexivity|]. intros _. simpl.
      split; [reflexivity|]. split; [reflexivity|].
      split; [eexists; reflexivity|].
      intros Hw. now apply Hempty.
Qed.

Lemma loadProducts_never_raises_witness :
  exists l w',
    ProductManager.loadProducts "/index.html" fetch_404 ProductManager.initial =
      (ProductManager.Normal l, w') /\
    l = [] /\ ProductManager.products w' = [] /\
    ProductManager.getById (Some 2%Z) w' = (ProductManager.Normal None, w').
Proof.
  destruct (loadProducts_never_raises "/index.html" fetch_404 ProductManager.initial)
    as [l [w' [Hrun Hfail]]].
  destruct (Hfail eq_refl) as [Hl [Hp [_ Hnone]]].
  exists l, w'. split; [exact Hrun|]. split; [exact Hl|]. split; [exact Hp|].
  apply (Hnone eq_refl).
Defined.

(** C7 as it was stated, "so the system behaves as if zero products
    exist", fails when a catalog was stored before.  A page that runs
    the listener of main.js and [ProductDetailPage.init] loads the
    catalog twice; when the first load succeeds and the second fails,
    the second returns the empty list while the lookup by id still
    finds the product in the store, and the page shows it. *)
Lemma loadProducts_failure_keeps_stored_catalog :
  ProductManager.products scenario_world = scenario_catalog /\
  Spec.fetch_failed (fetch_404 (Spec.productsPath "/products/product-detail.html")) /\
  (exists w',
      ProductManager.loadProducts "/products/product-detail.html" fetch_404
        scenario_world = (ProductManager.Normal [], w') /\
      ProductManager.getById (Some 2%Z) w' = (ProductManager.Normal (Some zinc), w')) /\
  fst (ProductDetailPage.init "/products/product-detail.html" fetch_404
         (Some "2"%string) scenario_world) =
  ProductManager.Normal (ProductDetailPage.Detail zinc).
Proof.
  split; [reflexivity|]. split; [reflexivity|]. split; [|reflexivity].
  eexists. split; reflexivity.
Qed.

Example loadProducts_serves_scenario :
  fst (ProductManager.loadProducts "/products/index.html" fetch_scenario
         ProductManager.initial) = ProductManager.Normal scenario_catalog.
Proof. reflexivity. Qed.

(** ** The carousel renderer *)

Lemma items_not_first (alt : string) (idx : nat) (urls : list string) (n : Dom.node) :
  In n (Carousel.items alt (S idx) urls) -> Dom.has_class "carousel-item" n = true.
Proof.
  revert idx. induction urls as [|u urls IH]; intros idx; simpl; [intros []|].
  intros [<-|H]; [reflexivity|now apply (IH (S idx))].
Qed.

Lemma items_length (alt : string) (idx : nat) (urls : list string) :
  List.length (Carousel.items alt idx urls) = List.length urls.
Proof.
  revert idx. induction urls as [|u urls IH]; intros idx; simpl; [reflexivity|].
  now rewrite IH.
Qed.

(** C9, as the code has it.  For every non-empty URL list and every
    options value with [auto] true (or absent) and [controls] false (or
    absent), [create] empties the container and renders one carousel set
    to ride automatically with the given interval, its first item the
    only active one, one item per URL, and no previous/next controls. *)
Theorem create_auto_has_no_controls :
  forall (random_id : string) (bootstrap : bool) (c : Dom.container)
         (urls : list string) (opts : Carousel.options),
    urls <> [] ->
    Carousel.default true (Carousel.auto opts) = true ->
    Carousel.default false (Carousel.controls opts) = false ->
    let interval := Carousel.default 7000%Z (Carousel.interval opts) in
    let out := Carousel.create random_id bootstrap (Some c) urls opts in
    exists carousel inner,
      Carousel.returned out = Some carousel /\
      option_map Dom.content (Carousel.container_after out) = Some [carousel] /\
      Dom.attr "data-bs-ride" carousel = Some "carousel"%string /\
      (interval <> 0%Z ->
       Dom.attr "data-bs-interval" carousel = Some (JS.String_of_Z interval)) /\
      (bootstrap = true ->
       Carousel.initialised out =
       Some {| Carousel.cfg_interval := Some interval;
               Carousel.cfg_ride := Some "carousel"%string;
               Carousel.cfg_touch := false |}) /\
      Dom.children carousel = [inner] /\
      Carousel.has_controls carousel = false /\
      Spec.first_item_active inner /\
      List.length (Dom.children inner) = List.length urls.
Proof.
  intros random_id bootstrap c urls opts Hurls Hauto Hcontrols interval out.
  subst out. unfold Carousel.create. fold interval.
  rewrite Hauto, Hcontrols.
  destruct urls as [|u urls]; [contradiction|].
  eexists _, _. split; [reflexivity|]. split; [reflexivity|].
  split; [reflexivity|]. split; [|split; [|split; [|split; [|split]]]].
  - intros Hi. apply Z.eqb_neq in Hi. rewrite Hi. reflexivity.
  - intros ->. reflexivity.
  - reflexivity.
  - reflexivity.
  - exists (Dom.Element "div" [("class", "carousel-item active")]
              [Dom.Element "img"
                 [("src", u); ("class", "d-block w-100 carousel-image");
                  ("alt", JS.or_else (Carousel.default EmptyString (Dom.aria_label c))
                                     "product image")] []])%string,
           (Carousel.items
              (JS.or_else (Carousel.default EmptyString (Dom.aria_label c)) "product image")
              1 urls).
    split; [reflexivity|]. split; [reflexivity|].
    intros n. apply items_not_first.
  - cbn [Dom.children]. now rewrite items_length.
Qed.

Lemma create_auto_has_no_controls_witness :
  exists carousel,
    Carousel.returned
      (Carousel.create "k3x9q2a" true (Some card_image)
         ["meds/1.jpg"; "meds/2.png"]%string listing_options) = Some carousel /\
    Carousel.has_controls carousel = false.
Proof.
  destruct (create_auto_has_no_controls "k3x9q2a" true card_image
              ["meds/1.jpg"; "meds/2.png"]%string listing_options)
    as [carousel [inner [Hret [_ [_ [_ [_ [_ [Hno _]]]]]]]]].
  - discriminate.
  - reflexivity.
  - reflexivity.
  - exists carousel. split; [exact Hret|exact Hno].
Defined.

(** C9 as it was stated, for every options value with [auto] true,
    fails: with [controls] true as well, the carousel is set to ride
    automatically and the previous/next controls are rendered. *)
Lemma create_auto_with_controls_renders_controls :
  Carousel.default true (Carousel.auto auto_with_controls) = true /\
  exists carousel,
    Carousel.returned
      (Carousel.create "k3x9q2a" true (Some card_image) ["meds/1.jpg"]%string
         auto_with_controls) = Some carousel /\
    Dom.attr "data-bs-ride" carousel = Some "carousel"%string /\
    Carousel.has_controls carousel = true.
Proof.
  split; [reflexivity|]. eexists. split; [reflexivity|]. split; reflexivity.
Qed.

(** ** Numerals: [parseInt] reads back what [String] prints *)

Section Numerals.
Local Open Scope string_scope.

Lemma digits_cons (radix : N) (acc : option Z) (c : ascii) (s : string) (d : Z) :
  JS.digit radix c = Some d ->
  JS.digits radix acc (String c s) =
  JS.digits radix
    (Some (Z.of_N radix * match acc with Some a => a | None => 0 end + d)%Z) s.
Proof. intros H. simpl. now rewrite H. Qed.

Lemma digits_acc (u : Decimal.uint) (acc : positive) :
  JS.digits 10 (Some (Zpos acc)) (NilEmpty.string_of_uint u) =
  Some (Zpos (Pos.of_uint_acc u acc)).
Proof.
  revert acc.
  induction u; intros acc; cbn [NilEmpty.string_of_uint Pos.of_uint_acc];
    [reflexivity|..];
    (erewrite digits_cons by reflexivity);
    rewrite <- IHu; do 2 f_equal;
    try match goal with
        | |- context [Z.of_N (?n - 48)] =>
            let v := eval vm_compute in (Z.of_N (n - 48)) in
            change (Z.of_N (n - 48)) with v
        end; lia.
Qed.

Lemma digits_zero (u : Decimal.uint) :
  JS.digits 10 (Some 0%Z) (NilEmpty.string_of_uint u) =
  Some (Z.of_N (Pos.of_uint u)).
Proof.
  induction u; cbn [NilEmpty.string_of_uint Pos.of_uint];
    [reflexivity|..];
    (erewrite digits_cons by reflexivity);
    first [exact IHu | apply digits_acc].
Qed.

Lemma parseInt_numeral (u : Decimal.uint) :
  u <> Decimal.Nil ->
  JS.parseInt (NilEmpty.string_of_uint u) = Some (Z.of_N (Pos.of_uint u)) /\
  JS.parseInt (String "-" (NilEmpty.string_of_uint u)) =
    Some (- Z.of_N (Pos.of_uint u))%Z.
Proof.
  intros Hu.
  assert (H : JS.parseInt (NilEmpty.string_of_uint u) =
              option_map (fun v => v)
                (JS.digits 10 (Some 0%Z) (NilEmpty.string_of_uint u)) /\
              JS.parseInt (String "-" (NilEmpty.string_of_uint u)) =
              option_map Z.opp
                (JS.digits 10 (Some 0%Z) (NilEmpty.string_of_uint u))).
  { destruct u as [|u|u|u|u|u|u|u|u|u|u]; [contradiction|..];
      destruct u; split; reflexivity. }
  rewrite digits_zero in H. exact H.
Qed.

Lemma parseInt_String_of_Z (z : Z) : JS.parseInt (JS.String_of_Z z) = Some z.
Proof.
  unfold JS.String_of_Z. destruct z as [|p|p]; [reflexivity|..];
    unfold Z.to_int, NilZero.string_of_int, NilZero.string_of_uint;
    pose proof (DecimalPos.Unsigned.to_uint_nonnil p) as Hn;
    pose proof (DecimalPos.Unsigned.of_to p) as Hp;
    destruct (parseInt_numeral _ Hn) as [Hpos Hneg];
    destruct (Pos.to_uint p) eqn:E; try contradiction;
    rewrite ?Hpos, ?Hneg, Hp; reflexivity.
Qed.
End Numerals.

(** ** The detail page *)

Lemma loadProducts_returns (pathname : string)
      (fetch : string -> ProductManager.fetch_outcome) (w : ProductManager.world) :
  exists l w', ProductManager.loadProducts pathname fetch w = (ProductManager.Normal l, w').
Proof.
  unfold ProductManager.loadProducts, ProductManager.try_catch, ProductManager.bind,
    ProductManager.await_fetch.
  unfold ProductManager.await_json.
  destruct (fetch _) as [e|[[|] status [l|]]]; simpl; eexists _, _; reflexivity.
Qed.

Lemma find_none_by_id (z : Z) (l : list Product.t) :
  (forall p, In p l -> Product.id p <> z) ->
  List.find (fun p => Z.eqb (Product.id p) z) l = None.
Proof.
  induction l as [|p l IH]; intros H; simpl; [reflexivity|].
  destruct (Z.eqb_spec (Product.id p) z) as [E|_].
  - exfalso. apply (H p); [now left|exact E].
  - apply IH. intros q Hq. apply H. now right.
Qed.


Lemma showErrorMessage_shows (message : string) (d : ProductDetailPage.document) :
  ProductDetailPage.productDetail d <> None ->
  ProductDetailPage.showErrorMessage message d =
  (ProductManager.Normal tt, Spec.showing (ProductDetailPage.errorHTML message) d).
Proof.
  unfold ProductDetailPage.showErrorMessage, ProductDetailPage.write_productDetail.
  destruct (ProductDetailPage.productDetail d); [reflexivity|congruence].
Qed.



(** What the container shows is the page [init] selects: on a document
    with the three elements the page writes by id, [init] completes and
    the container holds the markup of the product or of the message. *)
Lemma init_document_shows_page :
  forall (toFixed : Q -> nat -> string) (pathname : string)
         (fetch : string -> ProductManager.fetch_outcome)
         (idParam : option string) (w : ProductManager.world)
         (d : ProductDetailPage.document),
    ProductDetailPage.productDetail d <> None ->
    ProductDetailPage.relatedProducts d <> None ->
    ProductDetailPage.breadcrumbProduct d <> None ->
    exists pg w' d',
      ProductDetailPage.init pathname fetch idParam w = (ProductManager.Normal pg, w') /\
      ProductDetailPage.init_document toFixed pathname fetch idParam w d =
        (ProductManager.Normal tt, (w', d')) /\
      ProductDetailPage.productDetail d' =
        Some match pg with
             | ProductDetailPage.Detail p => ProductDetailPage.detailHTML toFixed p
             | ProductDetailPage.ErrorMessage m => ProductDetailPage.errorHTML m
             end.
Proof.
  intros tf pathname fetch idParam w d H1 H2 H3.
  destruct (loadProducts_returns pathname fetch w) as [l [w1 Hload]].
  unfold ProductDetailPage.init, ProductDetailPage.init_document, ProductManager.bind.
  rewrite Hload.
  destruct (JS.truthy_number _).
  - unfold ProductManager.getById.
    destruct (List.find _ _) as [p|].
    + unfold ProductDetailPage.and_then, ProductDetailPage.displayProductDetail,
        ProductDetailPage.write_productDetail, ProductDetailPage.write_relatedProducts,
        ProductDetailPage.updatePageMeta.
      destruct d as [[pd|] [rp|] ti [bc|] md]; cbn in *; try congruence.
      eexists _, _, _. split; [reflexivity|]. split; reflexivity.
    + rewrite (showErrorMessage_shows _ d H1).
      eexists _, _, _. split; [reflexivity|]. split; reflexivity.
  - rewrite (showErrorMessage_shows _ d H1).
    eexists _, _, _. split; [reflexivity|]. split; reflexivity.
Qed.

Example init_shows_product :
  fst (ProductDetailPage.init "/products/product-detail.html" fetch_scenario
         (Some " 2abc"%string) ProductManager.initial) =
  ProductManager.Normal (ProductDetailPage.Detail zinc).
Proof. reflexivity. Qed.

(** Without the container the message cannot be shown: [init] ends in
    the TypeError of the write. *)
Example init_without_container :
  fst (ProductDetailPage.init_document (fun _ _ => "0.00"%string)
         "/products/product-detail.html" fetch_scenario None
         ProductManager.initial bare_document) =
  ProductManager.Throw ProductDetailPage.TypeError.
Proof. reflexivity. Qed.


(** ** Escaping *)

Section Escaping.
Local Open Scope string_scope.

(** The three copies of [escapeHtml] are one function. *)
Lemma escapeHtml_copies :
  UIManager.escapeHtml = ProductsPage.escapeHtml /\
  ProductDetailPage.escapeHtml = ProductsPage.escapeHtml.
Proof. split; reflexivity. Qed.

Lemma replace_char_app (c : ascii) (r x y : string) :
  JS.replace_char c r (x ++ y) = JS.replace_char c r x ++ JS.replace_char c r y.
Proof.
  induction x as [|a x IH]; simpl; [reflexivity|].
  now rewrite IH, append_assoc.
Qed.

Lemma replace_char_cons (c : ascii) (r : string) (a : ascii) (s : string) :
  JS.replace_char c r (String a s) =
  (if Ascii.eqb a c then r else String a EmptyString) ++ JS.replace_char c r s.
Proof. reflexivity. Qed.

(** The five passes amount to one pass, character by character. *)
Lemma escapeHtml_cons (a : ascii) (s : string) :
  ProductsPage.escapeHtml (String a s) =
  Spec.escaped_char a ++ ProductsPage.escapeHtml s.
Proof.
  unfold ProductsPage.escapeHtml, Spec.escaped_char.
  rewrite (replace_char_cons "&").
  destruct (Ascii.eqb_spec a "&") as [->|_];
    [now rewrite !replace_char_app|].
  cbn [String.append]. rewrite (replace_char_cons "<").
  destruct (Ascii.eqb_spec a "<") as [->|_];
    [now rewrite !replace_char_app|].
  cbn [String.append]. rewrite (replace_char_cons ">").
  destruct (Ascii.eqb_spec a ">") as [->|_];
    [now rewrite !replace_char_app|].
  cbn [String.append]. rewrite (replace_char_cons JS.dquote).
  destruct (Ascii.eqb_spec a JS.dquote) as [->|_];
    [now rewrite !replace_char_app|].
  cbn [String.append]. rewrite (replace_char_cons "'").
  destruct (Ascii.eqb_spec a "'") as [->|_]; reflexivity.
Qed.

Lemma skeleton_app (x y : string) :
  Spec.skeleton (x ++ y) = Spec.skeleton x ++ Spec.skeleton y.
Proof.
  induction x as [|a x IH]; simpl; [reflexivity|].
  destruct (Spec.markup_char a); simpl; now rewrite IH.
Qed.

Lemma skeleton_escaped_char (a : ascii) :
  Spec.skeleton (Spec.escaped_char a) = EmptyString.
Proof.
  unfold Spec.escaped_char.
  destruct (Ascii.eqb a "&") eqn:E1; [reflexivity|].
  destruct (Ascii.eqb a "<") eqn:E2; [reflexivity|].
  destruct (Ascii.eqb a ">") eqn:E3; [reflexivity|].
  destruct (Ascii.eqb a JS.dquote) eqn:E4; [reflexivity|].
  destruct (Ascii.eqb a "'") eqn:E5; [reflexivity|].
  simpl. unfold Spec.markup_char. simpl. now rewrite E2, E3, E4, E5.
Qed.

(** Escaped text holds no markup character at all. *)
Lemma skeleton_escapeHtml (s : string) :
  Spec.skeleton (ProductsPage.escapeHtml s) = EmptyString.
Proof.
  induction s as [|a s IH]; [reflexivity|].
  now rewrite escapeHtml_cons, skeleton_app, skeleton_escaped_char, IH.
Qed.

Lemma occurs_skeleton (c : ascii) (s : string) :
  Spec.markup_char c = true -> Spec.occurs c s -> Spec.skeleton s <> EmptyString.
Proof.
  intros Hc [pre [post ->]]. rewrite skeleton_app. simpl. rewrite Hc.
  destruct (Spec.skeleton pre); discriminate.
Qed.

Lemma ampersands_checked_escaped (a : ascii) (t : string) :
  Spec.ampersands_checked t = true ->
  Spec.ampersands_checked (Spec.escaped_char a ++ t) = true.
Proof.
  intros Ht. unfold Spec.escaped_char.
  destruct (Ascii.eqb a "&") eqn:E1; [exact Ht|].
  destruct (Ascii.eqb a "<") eqn:E2; [exact Ht|].
  destruct (Ascii.eqb a ">") eqn:E3; [exact Ht|].
  destruct (Ascii.eqb a JS.dquote) eqn:E4; [exact Ht|].
  destruct (Ascii.eqb a "'") eqn:E5; [exact Ht|].
  simpl. now rewrite E1.
Qed.

Lemma ampersands_checked_escapeHtml (s : string) :
  Spec.ampersands_checked (ProductsPage.escapeHtml s) = true.
Proof.
  induction s as [|a s IH]; [reflexivity|].
  rewrite escapeHtml_cons. now apply ampersands_checked_escaped.
Qed.

Lemma ampersands_checked_sound (s : string) :
  Spec.ampersands_checked s = true -> Spec.ampersands_start_entities s.
Proof.
  intros Hs pre. revert s Hs.
  induction pre as [|c pre IH]; intros s Hs post ->;
    cbn [String.append Spec.ampersands_checked] in Hs.
  - apply andb_true_iff in Hs. destruct Hs as [Hs _].
    rewrite Ascii.eqb_refl in Hs.
    apply existsb_exists in Hs. destruct Hs as [e [He Hstart]].
    apply startsWith_iff in Hstart. destruct Hstart as [rest Hrest].
    now exists e, rest.
  - apply andb_true_iff in Hs. destruct Hs as [_ Hs].
    exact (IH _ Hs post eq_refl).
Qed.

Lemma skeleton_concat (l : list string) :
  Spec.skeleton (String.concat EmptyString l) =
  String.concat EmptyString (List.map Spec.skeleton l).
Proof.
  induction l as [|x [|y l] IH]; [reflexivity|reflexivity|].
  change (String.concat EmptyString (x :: y :: l))
    with (x ++ String.concat EmptyString (y :: l)).
  rewrite skeleton_app, IH. reflexivity.
Qed.
End Escaping.

(** What [escapeHtml] does, and where the name and the description go.
    For every input, the output of [escapeHtml] holds none of the
    characters [<], [>], double quote and apostrophe, and every [&] in it
    starts one of the five entities.  The three pages use the same
    function, and in the listing card, the featured card, the detail
    markup and the related card the name and the description are put in
    through it: whatever they are, the markup characters of the HTML are
    the same. *)
Theorem escapeHtml_neutralises_markup :
  (forall (s : string) (c : ascii),
      Spec.markup_char c = true -> ~ Spec.occurs c (ProductsPage.escapeHtml s)) /\
  (forall s : string, Spec.ampersands_start_entities (ProductsPage.escapeHtml s)) /\
  (UIManager.escapeHtml = ProductsPage.escapeHtml /\
   ProductDetailPage.escapeHtml = ProductsPage.escapeHtml) /\
  (forall (toFixed : Q -> nat -> string) (p : Product.t) (n d : string),
      Spec.skeleton (ProductsPage.createProductCard toFixed (Spec.with_text n d p)) =
        Spec.skeleton (ProductsPage.createProductCard toFixed p) /\
      Spec.skeleton (UIManager.createProductCard toFixed (Spec.with_text n d p)) =
        Spec.skeleton (UIManager.createProductCard toFixed p) /\
      Spec.skeleton (ProductDetailPage.detailHTML toFixed (Spec.with_text n d p)) =
        Spec.skeleton (ProductDetailPage.detailHTML toFixed p) /\
      Spec.skeleton (ProductDetailPage.relatedCard toFixed (Spec.with_text n d p)) =
        Spec.skeleton (ProductDetailPage.relatedCard toFixed p)).
Proof.
  split; [|split; [|split]].
  - intros s c Hc Hocc.
    apply (occurs_skeleton _ _ Hc Hocc). apply skeleton_escapeHtml.
  - intros s. apply ampersands_checked_sound, ampersands_checked_escapeHtml.
  - exact escapeHtml_copies.
  - intros toFixed p n d.
    unfold ProductsPage.createProductCard, UIManager.createProductCard,
      ProductDetailPage.detailHTML, ProductDetailPage.relatedCard.
    destruct escapeHtml_copies as [-> ->].
    rewrite !skeleton_concat. cbn [List.map Spec.with_text Product.name
      Product.description Product.details Product.category Product.icon
      Product.price Product.id].
    rewrite !skeleton_escapeHtml. repeat split; reflexivity.
Qed.

Lemma escapeHtml_neutralises_markup_witness :
  ~ Spec.occurs "<" (ProductsPage.escapeHtml "<b>Tom & Jerry's</b>").
Proof.
  apply (proj1 escapeHtml_neutralises_markup). reflexivity.
Defined.

(** C10.  Product text can inject markup on the home page: the featured
    card inserts the category as it is, where the listing card, the
    detail markup and the related card pass it through [escapeHtml].
    For the product whose category is [<img src=x onerror=alert(1)>],
    whatever the price formatting, the featured card holds that element
    verbatim, and its markup characters are not those of the card of the
    same product with the category [Medicine]; in the three other
    templates the markup characters are the same for both. *)
Theorem featured_card_category_injects_markup :
  forall (toFixed : Q -> nat -> string),
    let unsafe := markup_category_product in
    let harmless := Spec.with_category "Medicine" markup_category_product in
    (exists pre post,
        UIManager.createProductCard toFixed unsafe =
        (pre ++ "><img src=x onerror=alert(1)></span>" ++ post)%string) /\
    Spec.skeleton (UIManager.createProductCard toFixed unsafe) <>
      Spec.skeleton (UIManager.createProductCard toFixed harmless) /\
    Spec.skeleton (ProductsPage.createProductCard toFixed unsafe) =
      Spec.skeleton (ProductsPage.createProductCard toFixed harmless) /\
    Spec.skeleton (ProductDetailPage.detailHTML toFixed unsafe) =
      Spec.skeleton (ProductDetailPage.detailHTML toFixed harmless) /\
    Spec.skeleton (ProductDetailPage.relatedCard toFixed unsafe) =
      Spec.skeleton (ProductDetailPage.relatedCard toFixed harmless).
Proof.
  intros toFixed unsafe harmless.
  split; [|split].
  - apply includes_iff. vm_compute. reflexivity.
  - intros H. vm_compute in H. discriminate H.
  - unfold ProductsPage.createProductCard, ProductDetailPage.detailHTML,
      ProductDetailPage.relatedCard.
    destruct escapeHtml_copies as [_ ->].
    rewrite !skeleton_concat.
    cbn [List.map unsafe harmless markup_category_product Spec.with_category
         Product.name Product.description Product.details Product.category
         Product.icon Product.price Product.id JS.or_else JS.truthy].
    rewrite !skeleton_escapeHtml. repeat split; reflexivity.
Qed.

Example escapeHtml_sample :
  ProductsPage.escapeHtml "<b>Tom & Jerry's</b>" =
  "&lt;b&gt;Tom &amp; Jerry&#039;s&lt;/b&gt;"%string.
Proof. reflexivity. Qed.

(* ================================================================== *)
(** * Part III: further properties of the code                         *)
(* ================================================================== *)

(** ** [escapeHtml] as a function on text *)

Section EscapingMore.
Local Open Scope string_scope.

Lemma escapeHtml_app (a b : string) :
  ProductsPage.escapeHtml (a ++ b) =
  ProductsPage.escapeHtml a ++ ProductsPage.escapeHtml b.
Proof.
  induction a as [|x a IH]; [reflexivity|].
  cbn [String.append]. now rewrite !escapeHtml_cons, IH, append_assoc.
Qed.

(** What one character becomes tells which character it was. *)
Lemma escaped_char_inj (a b : ascii) (s t : string) :
  Spec.escaped_char a ++ s = Spec.escaped_char b ++ t -> a = b /\ s = t.
Proof.
  unfold Spec.escaped_char.
  destruct (Ascii.eqb_spec a "&") as [->|Ha1];
    [|destruct (Ascii.eqb_spec a "<") as [->|Ha2];
      [|destruct (Ascii.eqb_spec a ">") as [->|Ha3];
        [|destruct (Ascii.eqb_spec a JS.dquote) as [->|Ha4];
          [|destruct (Ascii.eqb_spec a "'") as [->|Ha5]]]]];
  (destruct (Ascii.eqb_spec b "&") as [->|Hb1];
    [|destruct (Ascii.eqb_spec b "<") as [->|Hb2];
      [|destruct (Ascii.eqb_spec b ">") as [->|Hb3];
        [|destruct (Ascii.eqb_spec b JS.dquote) as [->|Hb4];
          [|destruct (Ascii.eqb_spec b "'") as [->|Hb5]]]]]);
  cbn [String.append]; intros H;
  try discriminate H;
  try (injection H as H; now split);
  try (injection H as E H; first [now split; [|exact H] | congruence]).
Qed.

Lemma escapeHtml_empty_inv (s : string) :
  ProductsPage.escapeHtml s = EmptyString -> s = EmptyString.
Proof.
  destruct s as [|a s]; [reflexivity|]. rewrite escapeHtml_cons.
  unfold Spec.escaped_char.
  repeat match goal with
         | |- context [if ?c then _ else _] => destruct c
         end; discriminate.
Qed.
End EscapingMore.

Lemma escapeHtml_inj (a b : string) :
  ProductsPage.escapeHtml a = ProductsPage.escapeHtml b -> a = b.
Proof.
  revert b. induction a as [|x a IH]; intros b H.
  - symmetry. apply escapeHtml_empty_inv. now rewrite <- H.
  - destruct b as [|y b].
    + apply escapeHtml_empty_inv in H. discriminate.
    + rewrite !escapeHtml_cons in H. apply escaped_char_inj in H.
      destruct H as [-> H]. f_equal. now apply IH.
Qed.

Lemma escaped_char_cases (a : ascii) :
  (Spec.special_char a = false /\ Spec.escaped_char a = String a EmptyString) \/
  (Spec.special_char a = true /\
   4 <= String.length (Spec.escaped_char a) <= 6).
Proof.
  unfold Spec.special_char, Spec.escaped_char. cbn [existsb].
  destruct (Ascii.eqb a "&"); [right; cbn; split; [reflexivity|lia]|].
  destruct (Ascii.eqb a "<"); [right; cbn; split; [reflexivity|lia]|].
  destruct (Ascii.eqb a ">"); [right; cbn; split; [reflexivity|lia]|].
  destruct (Ascii.eqb a JS.dquote); [right; cbn; split; [reflexivity|lia]|].
  destruct (Ascii.eqb a "'"); [right; cbn; split; [reflexivity|lia]|].
  left. split; reflexivity.
Qed.

Lemma escapeHtml_length (s : string) :
  String.length s <= String.length (ProductsPage.escapeHtml s) <= 6 * String.length s /\
  (String.length (ProductsPage.escapeHtml s) = String.length s -> Spec.plain s = true).
Proof.
  induction s as [|a s [IHb IHp]]; [cbn; split; [lia|reflexivity]|].
  rewrite escapeHtml_cons, length_append.
  cbn [String.length Spec.plain].
  destruct (escaped_char_cases a) as [[Hs ->]|[Hs Hl]]; rewrite Hs; cbn [String.length negb andb].
  - split; [lia|]. intros H. apply IHp. lia.
  - split; [lia|]. intros H. lia.
Qed.

Lemma escapeHtml_plain (s : string) :
  Spec.plain s = true -> ProductsPage.escapeHtml s = s.
Proof.
  induction s as [|a s IH]; [reflexivity|].
  cbn [Spec.plain]. intros H. apply andb_true_iff in H. destruct H as [Ha Hs].
  apply negb_true_iff in Ha. rewrite escapeHtml_cons, (IH Hs).
  destruct (escaped_char_cases a) as [[_ ->]|[Hsp _]]; [reflexivity|congruence].
Qed.

(** X1.  [escapeHtml] loses nothing: two texts with the same escaped
    form are the same text. *)
Theorem escapeHtml_injective :
  forall a b : string,
    ProductsPage.escapeHtml a = ProductsPage.escapeHtml b -> a = b.
Proof. exact escapeHtml_inj. Qed.

Lemma escapeHtml_injective_witness :
  "Tom & Jerry"%string = "Tom & Jerry"%string.
Proof.
  apply escapeHtml_injective. reflexivity.
Defined.

(** X2.  [escapeHtml] leaves a text unchanged exactly when the text has
    none of the five characters it replaces; escaping a second time
    changes the result unless that is the case; the escaped text is at
    least as long and at most six times as long as the text. *)
Theorem escapeHtml_fixed_points :
  forall s : string,
    (ProductsPage.escapeHtml s = s <-> Spec.plain s = true) /\
    (ProductsPage.escapeHtml (ProductsPage.escapeHtml s) = ProductsPage.escapeHtml s <->
     Spec.plain s = true) /\
    String.length s <= String.length (ProductsPage.escapeHtml s) <= 6 * String.length s.
Proof.
  intros s. destruct (escapeHtml_length s) as [Hb Hp].
  assert (H1 : ProductsPage.escapeHtml s = s <-> Spec.plain s = true).
  { split; [|apply escapeHtml_plain]. intros H. apply Hp. now rewrite H. }
  split; [exact H1|]. split; [|exact Hb].
  rewrite <- H1. split.
  - apply escapeHtml_inj.
  - intros H. now rewrite !H.
Qed.

(** X3.  Escaping a concatenation is concatenating the escaped parts:
    text may be escaped piece by piece. *)
Theorem escapeHtml_concatenation :
  forall a b : string,
    ProductsPage.escapeHtml (a ++ b) =
    (ProductsPage.escapeHtml a ++ ProductsPage.escapeHtml b)%string.
Proof. exact escapeHtml_app. Qed.

(** ** The structure of the generated HTML *)

Section HtmlStructure.
Local Open Scope string_scope.

Lemma structure_app (x y : string) :
  Spec.structure (x ++ y) = Spec.structure x ++ Spec.structure y.
Proof.
  induction x as [|a x IH]; simpl; [reflexivity|].
  destruct (Spec.structural_char a); simpl; now rewrite IH.
Qed.

Lemma structure_concat (l : list string) :
  Spec.structure (String.concat EmptyString l) =
  String.concat EmptyString (List.map Spec.structure l).
Proof.
  induction l as [|x l IH]; [reflexivity|].
  cbn [List.map]. now rewrite !concat_cons, structure_app, IH.
Qed.

Lemma structure_escapeHtml (s : string) :
  Spec.structure (ProductsPage.escapeHtml s) = EmptyString.
Proof.
  induction s as [|a s IH]; [reflexivity|].
  rewrite escapeHtml_cons, structure_app, IH, append_nil_r.
  unfold Spec.escaped_char.
  destruct (Ascii.eqb a "&") eqn:E1; [reflexivity|].
  destruct (Ascii.eqb a "<") eqn:E2; [reflexivity|].
  destruct (Ascii.eqb a ">") eqn:E3; [reflexivity|].
  destruct (Ascii.eqb a JS.dquote) eqn:E4; [reflexivity|].
  destruct (Ascii.eqb a "'") eqn:E5; [reflexivity|].
  simpl. unfold Spec.structural_char. simpl. now rewrite E2, E3, E4.
Qed.

(** A percent-encoded component holds no structural character. *)
Lemma structure_encode_char (c : ascii) :
  Spec.structure (JS.encode_char c) = EmptyString.
Proof.
  destruct c as [[|] [|] [|] [|] [|] [|] [|] [|]]; vm_compute; reflexivity.
Qed.

Lemma structure_encodeURIComponent (s : string) :
  Spec.structure (JS.encodeURIComponent s) = EmptyString.
Proof.
  induction s as [|a s IH]; [reflexivity|].
  cbn [JS.encodeURIComponent]. now rewrite structure_app, structure_encode_char, IH.
Qed.

(** Nor does the numeral of an integer. *)
Lemma structure_uint (u : Decimal.uint) :
  Spec.structure (NilEmpty.string_of_uint u) = EmptyString.
Proof. induction u; simpl; [reflexivity|assumption..]. Qed.

Lemma structure_String_of_Z (z : Z) :
  Spec.structure (JS.String_of_Z z) = EmptyString.
Proof.
  unfold JS.String_of_Z, NilZero.string_of_int, NilZero.string_of_uint.
  destruct (Z.to_int z) as [u|u]; destruct u; simpl; try reflexivity;
    apply structure_uint.
Qed.
End HtmlStructure.

Ltac structure_of_template :=
  cbv zeta; rewrite !structure_concat; cbn [List.map];
  cbn [Spec.with_fields Spec.with_category Product.id Product.name
       Product.description Product.details Product.category Product.price
       Product.icon];
  rewrite ?structure_escapeHtml, ?structure_encodeURIComponent,
    ?structure_String_of_Z.

(** X4.  In the listing card, the detail markup and the related card no
    text field of a product (name, description, details, category, icon
    folder) can change the tags or the double-quoted attribute values:
    the structural characters of the HTML are the same whatever these
    fields hold. *)
Theorem templates_structure_independent_of_text :
  forall (toFixed : Q -> nat -> string) (p : Product.t) (n d dt c i : string),
    Spec.structure (ProductsPage.createProductCard toFixed (Spec.with_fields n d dt c i p)) =
      Spec.structure (ProductsPage.createProductCard toFixed p) /\
    Spec.structure (ProductDetailPage.detailHTML toFixed (Spec.with_fields n d dt c i p)) =
      Spec.structure (ProductDetailPage.detailHTML toFixed p) /\
    Spec.structure (ProductDetailPage.relatedCard toFixed (Spec.with_fields n d dt c i p)) =
      Spec.structure (ProductDetailPage.relatedCard toFixed p).
Proof.
  intros toFixed p n d dt c i.
  unfold ProductsPage.createProductCard, ProductDetailPage.detailHTML,
    ProductDetailPage.relatedCard.
  destruct escapeHtml_copies as [_ ->].
  structure_of_template. repeat split; reflexivity.
Qed.

(** X5.  The featured card of the home page escapes the name and the
    description but not the category: its structure does not depend on
    the name, the description, the details or the icon folder, and it
    changes with the category exactly when the structural characters of
    the category shown ([category || 'Medicine']) change. *)
Theorem featured_card_category_unescaped :
  forall (toFixed : Q -> nat -> string) (p : Product.t),
    (forall n d dt i,
        Spec.structure
          (UIManager.createProductCard toFixed
             (Spec.with_fields n d dt (Product.category p) i p)) =
        Spec.structure (UIManager.createProductCard toFixed p)) /\
    (forall c c',
        Spec.structure (UIManager.createProductCard toFixed (Spec.with_category c p)) =
        Spec.structure (UIManager.createProductCard toFixed (Spec.with_category c' p)) <->
        Spec.structure (JS.or_else c "Medicine") =
        Spec.structure (JS.or_else c' "Medicine")).
Proof.
  intros toFixed p. unfold UIManager.createProductCard.
  destruct escapeHtml_copies as [-> _].
  split.
  - intros n d dt i. structure_of_template. reflexivity.
  - intros c c'. structure_of_template. rewrite !concat_cons. split.
    + intros H. repeat (apply append_inv_head in H).
      now apply append_inv_tail in H.
    + intros H. now rewrite H.
Qed.

Example featured_card_injection :
  Spec.structure
    (UIManager.createProductCard (fun _ _ => "10.00"%string)
       (Spec.with_category "<img src=x onerror=alert(1)>" amlo)) <>
  Spec.structure (UIManager.createProductCard (fun _ _ => "10.00"%string) amlo).
Proof. vm_compute. discriminate. Qed.

(** ** Folder identifiers: from the card to the prober *)

Section FolderFacts.
Local Open Scope string_scope.

(** [decodeURIComponent] undoes [encodeURIComponent], character by
    character (checked on the 256 code units). *)
Lemma decode_encode_char (c : ascii) (t : string) :
  JS.decodeURIComponent (JS.encode_char c ++ t) =
  option_map (String c) (JS.decodeURIComponent t).
Proof.
  destruct c as [[|] [|] [|] [|] [|] [|] [|] [|]]; reflexivity.
Qed.

Lemma decode_encode (s : string) :
  JS.decodeURIComponent (JS.encodeURIComponent s) = Some s.
Proof.
  induction s as [|c s IH]; [reflexivity|].
  cbn [JS.encodeURIComponent]. now rewrite decode_encode_char, IH.
Qed.

Lemma replace_2F_other (c : ascii) (s : string) :
  Ascii.eqb c "%" = false ->
  JS.replace_2F (String c s) = String c (JS.replace_2F s).
Proof.
  intros H. destruct s as [|d [|e s]]; cbn [JS.replace_2F]; rewrite ?H; reflexivity.
Qed.

Lemma replace_2F_escape (d e : ascii) (s : string) :
  Ascii.eqb d "2" && Ascii.eqb e "F" = false ->
  Ascii.eqb d "%" = false -> Ascii.eqb e "%" = false ->
  JS.replace_2F (String "%" (String d (String e s))) =
  String "%" (String d (String e (JS.replace_2F s))).
Proof.
  intros H Hd He.
  change (JS.replace_2F (String "%" (String d (String e s))))
    with (if Ascii.eqb "%" "%" && Ascii.eqb d "2" && Ascii.eqb e "F"
          then String "/" (JS.replace_2F s)
          else String "%" (JS.replace_2F (String d (String e s)))).
  rewrite Ascii.eqb_refl. cbn [andb]. rewrite H.
  now rewrite (replace_2F_other d _ Hd), (replace_2F_other e _ He).
Qed.

Lemma replace_2F_encode_char (c : ascii) (t : string) :
  JS.replace_2F (JS.encode_char c ++ t) =
  Spec.encoded_path_char c ++ JS.replace_2F t.
Proof.
  destruct c as [[|] [|] [|] [|] [|] [|] [|] [|]];
    match goal with
    | |- JS.replace_2F (JS.encode_char ?c ++ _) = Spec.encoded_path_char ?c ++ _ =>
        let e := eval vm_compute in (JS.encode_char c) in
        let p := eval vm_compute in (Spec.encoded_path_char c) in
        change (JS.encode_char c) with e;
        change (Spec.encoded_path_char c) with p
    end;
    cbn [String.append];
    repeat first
      [ rewrite replace_2F_escape by reflexivity
      | rewrite replace_2F_other by reflexivity ];
    reflexivity.
Qed.

(** The folder of the candidate URLs, character by character. *)
Lemma replace_2F_encode (s : string) :
  JS.replace_2F (JS.encodeURIComponent s) = Spec.encoded_path s.
Proof.
  induction s as [|c s IH]; [reflexivity|].
  cbn [JS.encodeURIComponent Spec.encoded_path].
  now rewrite replace_2F_encode_char, IH.
Qed.

Lemma encoded_path_app (a b : string) :
  Spec.encoded_path (a ++ b) = Spec.encoded_path a ++ Spec.encoded_path b.
Proof.
  induction a as [|c a IH]; [reflexivity|].
  cbn [String.append Spec.encoded_path]. now rewrite IH, append_assoc.
Qed.

Lemma or_else_empty (s : string) : JS.or_else s EmptyString = s.
Proof. now destruct s. Qed.
End FolderFacts.

(** ** The prober: what is loaded and what is returned *)

Section ProbeBounds.
Variable loadImage : string -> bool.
Variable base encodedFolder : string.

Lemma try_extensions_loads (i : nat) (exts : list string) :
  let '(found, tried) :=
    Carousel.try_extensions loadImage base encodedFolder i exts in
  List.length tried <= List.length exts /\
  List.filter loadImage tried =
    match found with Some u => [u] | None => [] end.
Proof.
  induction exts as [|e exts IH]; cbn [Carousel.try_extensions].
  - split; [apply le_n|reflexivity].
  - destruct (loadImage (Carousel.candidate base encodedFolder i e)) eqn:E.
    + cbn [List.filter List.length]. rewrite E. split; [lia|reflexivity].
    + destruct (Carousel.try_extensions loadImage base encodedFolder i exts)
        as [found tried].
      cbn [List.filter List.length]. rewrite E. destruct IH as [Hl Hf].
      split; [lia|exact Hf].
Qed.

Lemma probe_from_loads (n i : nat) :
  let '(urls, tried) := Carousel.probe_from loadImage base encodedFolder i n in
  urls = List.filter loadImage tried /\
  List.length tried <= 3 * n /\
  List.length tried <= 3 * (List.length urls + 1).
Proof.
  revert i. induction n as [|n IH]; intros i; cbn [Carousel.probe_from].
  - cbn. repeat split; lia.
  - pose proof (try_extensions_loads i Carousel.EXTENSIONS) as Ht.
    destruct (Carousel.try_extensions loadImage base encodedFolder i Carousel.EXTENSIONS)
      as [[u|] t].
    + specialize (IH (S i)).
      destruct (Carousel.probe_from loadImage base encodedFolder (S i) n)
        as [urls tried].
      destruct Ht as [Hl Hf]. destruct IH as [Hu [Hb Hc]].
      change (List.length Carousel.EXTENSIONS) with 3 in Hl.
      rewrite filter_app, Hf, <- Hu, length_app. cbn [List.length List.app].
      repeat split; lia.
    + destruct Ht as [Hl Hf].
      change (List.length Carousel.EXTENSIONS) with 3 in Hl.
      cbn [List.length]. rewrite Hf. repeat split; lia.
Qed.
End ProbeBounds.

Lemma probeImages_returns_what_loaded_aux :
  forall (loadImage : string -> bool) (pathname folder : string),
    match Carousel.probeImages loadImage pathname folder with
    | (Some urls, tried) =>
        urls = List.filter loadImage tried /\
        List.length tried <= 36 /\
        List.length tried <= 3 * (List.length urls + 1)
    | (None, tried) => tried = []
    end.
Proof.
  intros loadImage pathname folder. unfold Carousel.probeImages.
  destruct (JS.truthy folder); cbn [negb]; [|cbn; repeat split; lia].
  destruct (JS.decodeURIComponent folder) as [d|]; [|reflexivity].
  destruct (JS.truthy (JS.trim d)); cbn [negb]; [|cbn; repeat split; lia].
  pose proof (probe_from_loads loadImage (Carousel.basePath pathname)
                (JS.replace_2F (JS.encodeURIComponent (JS.trim d)))
                Carousel.MAX_IMAGES 1) as H.
  destruct (Carousel.probe_from loadImage (Carousel.basePath pathname)
              (JS.replace_2F (JS.encodeURIComponent (JS.trim d))) 1 Carousel.MAX_IMAGES)
    as [urls tried].
  unfold Carousel.MAX_IMAGES in H. destruct H as [Hu [Hb Hc]].
  repeat split; [exact Hu|lia|exact Hc].
Qed.

(** X6.  Whatever the folder identifier and the host, [probeImages]
    returns exactly the URLs it tried that loaded, in the order tried;
    it attempts at most 36 loads, and at most three per URL returned
    plus three; when it rejects, nothing was loaded. *)
Theorem probeImages_returns_what_loaded :
  forall (loadImage : string -> bool) (pathname folder : string),
    match Carousel.probeImages loadImage pathname folder with
    | (Some urls, tried) =>
        urls = List.filter loadImage tried /\
        List.length tried <= 36 /\
        List.length tried <= 3 * (List.length urls + 1)
    | (None, tried) => tried = []
    end.
Proof. exact probeImages_returns_what_loaded_aux. Qed.

(** X7.  The folder part of every candidate URL keeps the [/] of the
    folder name and percent-encodes the rest character by character, so
    a sub-folder of the name is a sub-folder of the URL. *)
Theorem encoded_folder_keeps_slashes :
  forall a b : string,
    JS.replace_2F (JS.encodeURIComponent (a ++ "/" ++ b)) =
    (JS.replace_2F (JS.encodeURIComponent a) ++ "/" ++
     JS.replace_2F (JS.encodeURIComponent b))%string.
Proof.
  intros a b. rewrite !replace_2F_encode, encoded_path_app. reflexivity.
Qed.

Lemma probeImages_card_folder_spec :
  forall (loadImage : string -> bool) (pathname icon : string),
    let folder := JS.encodeURIComponent (JS.or_else icon EmptyString) in
    let url := Carousel.candidate (Carousel.basePath pathname)
                 (Spec.encoded_path (JS.trim icon)) in
    exists urls tried,
      Carousel.probeImages loadImage pathname folder = (Some urls, tried) /\
      Spec.within_cap url tried /\
      (JS.trim icon = EmptyString -> urls = [] /\ tried = []) /\
      (JS.trim icon <> EmptyString -> Spec.probed loadImage url urls).
Proof.
  intros loadImage pathname icon folder url. subst folder.
  rewrite or_else_empty. unfold Carousel.probeImages.
  rewrite decode_encode, replace_2F_encode. fold url.
  destruct (JS.truthy (JS.encodeURIComponent icon)) eqn:Ef; cbn [negb].
  - destruct (JS.truthy (JS.trim icon)) eqn:Et; cbn [negb].
    + destruct (Carousel.probe_from loadImage (Carousel.basePath pathname)
                  (Spec.encoded_path (JS.trim icon)) 1 Carousel.MAX_IMAGES)
        as [urls tried] eqn:Ep.
      apply probe_from_spec in Ep. fold url in Ep.
      destruct Ep as [Hlen [Hidx [Hstop Htried]]].
      unfold Carousel.MAX_IMAGES in *.
      exists urls, tried. split; [reflexivity|]. split; [|split].
      * intros u Hu. destruct (Htried u Hu) as [j [e [Hj [He ->]]]].
        exists j, e. repeat split; try lia; assumption.
      * intros H. apply truthy_true_iff in Et. contradiction.
      * intros _. split; [exact Hlen|]. split; [exact Hidx|exact Hstop].
    + apply truthy_false_iff in Et.
      exists [], []. split; [reflexivity|]. split; [intros u []|].
      split; [now split|]. intros H. contradiction.
  - assert (Hi : icon = EmptyString).
    { destruct icon as [|c icon]; [reflexivity|].
      cbn [JS.encodeURIComponent] in Ef. unfold JS.encode_char in Ef.
      destruct (JS.unreserved c); [discriminate|].
      destruct (N_of_ascii c <? 128)%N; discriminate. }
    subst icon. exists [], []. split; [reflexivity|]. split; [intros u []|].
    split; [now split|]. intros H. now contradiction H.
Qed.

(** X8.  The attribute [data-folder] the cards write for a product is
    always accepted by [probeImages]: for every icon folder the probe
    does not reject, it probes the folder named by the trimmed icon
    (with the [/] kept), returns nothing without a load when that is
    empty, and otherwise returns the images up to the first gap. *)
Theorem probeImages_of_card_folder :
  forall (loadImage : string -> bool) (pathname icon : string),
    let folder := JS.encodeURIComponent (JS.or_else icon EmptyString) in
    let url := Carousel.candidate (Carousel.basePath pathname)
                 (Spec.encoded_path (JS.trim icon)) in
    exists urls tried,
      Carousel.probeImages loadImage pathname folder = (Some urls, tried) /\
      Spec.within_cap url tried /\
      (JS.trim icon = EmptyString -> urls = [] /\ tried = []) /\
      (JS.trim icon <> EmptyString -> Spec.probed loadImage url urls).
Proof. exact probeImages_card_folder_spec. Qed.

(** ** The carousel renderer: the other branches of [create] *)

Lemma classList_add_in (token : string) (l : list string) :
  In token (Dom.classList_add token l).
Proof.
  unfold Dom.classList_add.
  destruct (existsb (String.eqb token) l) eqn:E.
  - apply existsb_exists in E. destruct E as [x [Hx Hq]].
    apply String.eqb_eq in Hq. now subst.
  - apply in_or_app. right. now left.
Qed.

Lemma classList_add_again (token : string) (l : list string) :
  Dom.classList_add token (Dom.classList_add token l) = Dom.classList_add token l.
Proof.
  unfold Dom.classList_add at 1.
  assert (H : existsb (String.eqb token) (Dom.classList_add token l) = true).
  { apply existsb_exists. exists token. split; [apply classList_add_in|].
    apply String.eqb_refl. }
  now rewrite H.
Qed.

(** X9.  With an empty URL list [create] renders the fallback, whatever
    the options: the container holds only the glyph and carries the
    class [product-image-fallback] (its other classes kept), no carousel
    is returned, no rotation is initialised; rendering the fallback
    again on the result changes nothing (the class is not added twice). *)
Theorem create_empty_renders_fallback :
  forall (random_id random_id' : string) (bootstrap bootstrap' : bool)
         (c : Dom.container) (opts opts' : Carousel.options),
    let out := Carousel.create random_id bootstrap (Some c) [] opts in
    exists c',
      Carousel.container_after out = Some c' /\
      Spec.shows_fallback c' /\
      (forall cls, In cls (Dom.classList c) -> In cls (Dom.classList c')) /\
      Carousel.returned out = None /\
      Carousel.initialised out = None /\
      Carousel.container_after
        (Carousel.create random_id' bootstrap' (Some c') [] opts') = Some c'.
Proof.
  intros random_id random_id' bootstrap bootstrap' c opts opts' out.
  subst out. cbn [Carousel.create].
  eexists. split; [reflexivity|]. split; [|split; [|split; [|split]]].
  - split; [eexists; reflexivity|]. cbn [Dom.classList]. apply classList_add_in.
  - intros cls H. cbn [Dom.classList]. unfold Dom.classList_add.
    destruct (existsb _ _); [exact H|]. apply in_or_app. now left.
  - reflexivity.
  - reflexivity.
  - cbn [Carousel.container_after Dom.classList Dom.aria_label].
    now rewrite classList_add_again.
Qed.

Lemma items_sources (alt : string) (idx : nat) (urls : list string) :
  Spec.image_sources
    (Dom.Element "div" [("class", "carousel-inner")]%string
       (Carousel.items alt idx urls)) =
  List.map Some urls.
Proof.
  unfold Spec.image_sources. cbn [Dom.children].
  revert idx. induction urls as [|u urls IH]; intros idx; [reflexivity|].
  cbn [Carousel.items List.map]. f_equal. apply IH.
Qed.

(** X10.  For a non-empty URL list, whatever the options, what was in
    the container before is discarded, the carousel is its only child,
    and the images of the items are the given URLs in the given order. *)
Theorem create_renders_urls_in_order :
  forall (random_id : string) (bootstrap : bool) (c : Dom.container)
         (u : string) (urls : list string) (opts : Carousel.options),
    let out := Carousel.create random_id bootstrap (Some c) (u :: urls) opts in
    exists carousel inner controls,
      Carousel.returned out = Some carousel /\
      option_map Dom.content (Carousel.container_after out) = Some [carousel] /\
      Dom.children carousel = inner :: controls /\
      Spec.image_sources inner = List.map Some (u :: urls) /\
      Dom.attr "id" carousel = Some ("bs-carousel-" ++ random_id)%string.
Proof.
  intros random_id bootstrap c u urls opts out. subst out.
  unfold Carousel.create.
  eexists _, _, _. split; [reflexivity|]. split; [reflexivity|].
  split; [reflexivity|]. split; [apply items_sources|reflexivity].
Qed.

(** X11.  With [auto] false and [controls] true (the detail page), the
    carousel does not ride by itself and has exactly two controls after
    its items, previous then next, each a button that targets this
    carousel by its id; the rotation widget, when there, is configured
    with no interval and no ride. *)
Theorem create_manual_has_both_controls :
  forall (random_id : string) (bootstrap : bool) (c : Dom.container)
         (urls : list string) (opts : Carousel.options),
    urls <> [] ->
    Carousel.auto opts = Some false ->
    Carousel.controls opts = Some true ->
    let out := Carousel.create random_id bootstrap (Some c) urls opts in
    exists carousel inner prev next id,
      Carousel.returned out = Some carousel /\
      Dom.children carousel = [inner; prev; next] /\
      Dom.attr "id" carousel = Some id /\
      Dom.attr "data-bs-ride" carousel = None /\
      Dom.has_class "carousel-control-prev" prev = true /\
      Dom.attr "data-bs-slide" prev = Some "prev"%string /\
      Dom.attr "data-bs-target" prev = Some ("#" ++ id)%string /\
      Dom.has_class "carousel-control-next" next = true /\
      Dom.attr "data-bs-slide" next = Some "next"%string /\
      Dom.attr "data-bs-target" next = Some ("#" ++ id)%string /\
      (bootstrap = true ->
       Carousel.initialised out =
       Some {| Carousel.cfg_interval := None; Carousel.cfg_ride := None;
               Carousel.cfg_touch := false |}).
Proof.
  intros random_id bootstrap c urls opts Hurls Hauto Hcontrols out. subst out.
  unfold Carousel.create. rewrite Hauto, Hcontrols.
  destruct urls as [|u urls]; [contradiction|].
  cbn [Carousel.default].
  eexists _, _, _, _, _. split; [reflexivity|]. split; [reflexivity|].
  split; [reflexivity|].
  split; [cbn; now destruct (Z.eqb _ 0)|].
  repeat (split; [reflexivity|]).
  intros ->. reflexivity.
Qed.

Lemma create_manual_has_both_controls_witness :
  exists carousel,
    Carousel.returned
      (Carousel.create "k3x9q2a" true (Some card_image)
         ["meds/1.jpg"; "meds/2.png"]%string ProductDetailPage.detail_options) = Some carousel /\
    Dom.attr "data-bs-ride" carousel = None /\
    List.length (Dom.children carousel) = 3.
Proof.
  destruct (create_manual_has_both_controls "k3x9q2a" true card_image
              ["meds/1.jpg"; "meds/2.png"]%string ProductDetailPage.detail_options)
    as [carousel [inner [prev [next [id [Hret [Hch [_ [Hride _]]]]]]]]].
  - discriminate.
  - reflexivity.
  - reflexivity.
  - exists carousel. split; [exact Hret|]. split; [exact Hride|].
    now rewrite Hch.
Defined.

Lemma card_folder_probe (loadImage : string -> bool) (pathname icon : string) :
  let folder := JS.encodeURIComponent (JS.or_else icon EmptyString) in
  let url := Carousel.candidate (Carousel.basePath pathname)
               (Spec.encoded_path (JS.trim icon)) in
  exists urls tried,
    Carousel.probeImages loadImage pathname folder = (Some urls, tried) /\
    urls = List.filter loadImage tried /\
    (urls = [] <-> JS.trim icon = EmptyString \/ Spec.none_loading loadImage url 1).
Proof.
  intros folder url.
  destruct (probeImages_card_folder_spec loadImage pathname icon)
    as [urls [tried [Hrun [_ [Hempty Hprobed]]]]].
  fold folder in Hrun. fold url in Hprobed.
  pose proof (probeImages_returns_what_loaded_aux loadImage pathname folder) as Hl.
  rewrite Hrun in Hl. destruct Hl as [Hf _].
  exists urls, tried. split; [exact Hrun|]. split; [exact Hf|]. split.
  - intros Hu. destruct (string_dec (JS.trim icon) EmptyString) as [Et|Hne];
      [now left|right].
    destruct (Hprobed Hne) as [_ [_ Hstop]].
    rewrite Hu in Hstop. apply Hstop. cbn. lia.
  - intros [Ht|Hnone]; [now apply Hempty|].
    destruct urls as [|u urls]; [reflexivity|exfalso].
    destruct (string_dec (JS.trim icon) EmptyString) as [Et|Hne].
    + destruct (Hempty Et). discriminate.
    + destruct (Hprobed Hne) as [_ [Hidx _]].
      destruct (Hidx 0 ltac:(cbn; lia))
        as [ext [[earlier [later [Hexts [_ Hload]]]] _]].
      assert (He : In ext Carousel.EXTENSIONS)
        by (rewrite Hexts; apply in_or_app; right; now left).
      specialize (Hnone ext He). congruence.
Qed.

(** X12.  A listing or featured card ends in the fallback exactly when
    the trimmed icon folder is empty or no image 1 exists there;
    otherwise the node holds, as its only content, a riding carousel
    without controls whose images are the images found, in order.  The
    callback never rejects
    on the [data-folder] that the cards write. *)
Theorem init_node_of_card_folder :
  forall (loadImage : string -> bool) (pathname random_id : string)
         (bootstrap : bool) (icon : string) (node : Dom.container),
    let folder := JS.encodeURIComponent (JS.or_else icon EmptyString) in
    let url := Carousel.candidate (Carousel.basePath pathname)
                 (Spec.encoded_path (JS.trim icon)) in
    exists out tried urls,
      Carousel.init_node loadImage pathname random_id bootstrap (Some folder) node =
        (Some out, tried) /\
      urls = List.filter loadImage tried /\
      (urls = [] <-> JS.trim icon = EmptyString \/ Spec.none_loading loadImage url 1) /\
      (urls = [] ->
       Carousel.returned out = None /\
       exists c', Carousel.container_after out = Some c' /\ Spec.shows_fallback c') /\
      (urls <> [] ->
       exists carousel inner,
         Carousel.returned out = Some carousel /\
         option_map Dom.content (Carousel.container_after out) = Some [carousel] /\
         Dom.children carousel = [inner] /\
         Spec.image_sources inner = List.map Some urls /\
         Dom.attr "data-bs-ride" carousel = Some "carousel"%string).
Proof.
  intros loadImage pathname random_id bootstrap icon node folder url.
  unfold Carousel.init_node. cbn [Carousel.default].
  destruct (card_folder_probe loadImage pathname icon)
    as [urls [tried [Hrun [Hf Hiff]]]].
  fold folder in Hrun. fold url in Hiff.
  subst folder. rewrite or_else_empty in *. rewrite or_else_empty. rewrite Hrun.
  exists (Carousel.create random_id bootstrap (Some node) urls Carousel.auto_options),
    tried, urls.
  split; [reflexivity|]. split; [exact Hf|]. split; [exact Hiff|]. split.
  - intros ->. split; [reflexivity|]. cbn [Carousel.create Carousel.container_after].
    eexists. split; [reflexivity|]. split; [eexists; reflexivity|].
    cbn [Dom.classList]. apply classList_add_in.
  - intros Hne. destruct urls as [|u urls]; [contradiction|].
    unfold Carousel.create, Carousel.auto_options. cbn [Carousel.default
      Carousel.auto Carousel.interval Carousel.controls].
    eexists _, _. split; [reflexivity|]. split; [reflexivity|].
    split; [reflexivity|]. split; [apply items_sources|reflexivity].
Qed.

(** X13.  On the detail page the carousel of the product shown is
    set up from the [data-folder] of the detail markup without a
    rejection to swallow: the container ends in the fallback exactly
    when the trimmed icon folder is empty or holds no image 1, and
    otherwise holds, as its only content, a carousel that does not ride,
    with the images found in order and the previous and next controls
    after them. *)
Theorem init_detail_carousel_of_product :
  forall (loadImage : string -> bool) (pathname random_id : string)
         (bootstrap : bool) (icon : string) (node : Dom.container),
    let folder := JS.encodeURIComponent (JS.or_else icon EmptyString) in
    let url := Carousel.candidate (Carousel.basePath pathname)
                 (Spec.encoded_path (JS.trim icon)) in
    exists out tried urls,
      ProductDetailPage.init_detail_carousel loadImage pathname random_id bootstrap
        (Some folder) node = (Some out, tried) /\
      urls = List.filter loadImage tried /\
      (urls = [] <-> JS.trim icon = EmptyString \/ Spec.none_loading loadImage url 1) /\
      (urls = [] ->
       Carousel.returned out = None /\
       exists c', Carousel.container_after out = Some c' /\ Spec.shows_fallback c') /\
      (urls <> [] ->
       exists carousel inner prev next,
         Carousel.returned out = Some carousel /\
         option_map Dom.content (Carousel.container_after out) = Some [carousel] /\
         Dom.children carousel = [inner; prev; next] /\
         Spec.image_sources inner = List.map Some urls /\
         Dom.attr "data-bs-ride" carousel = None /\
         Dom.has_class "carousel-control-prev" prev = true /\
         Dom.has_class "carousel-control-next" next = true).
Proof.
  intros loadImage pathname random_id bootstrap icon node folder url.
  unfold ProductDetailPage.init_detail_carousel. cbn [Carousel.default].
  destruct (card_folder_probe loadImage pathname icon)
    as [urls [tried [Hrun [Hf Hiff]]]].
  fold folder in Hrun. fold url in Hiff.
  subst folder. rewrite or_else_empty in *. rewrite or_else_empty. rewrite Hrun.
  exists (Carousel.create random_id bootstrap (Some node) urls
            ProductDetailPage.detail_options), tried, urls.
  split; [reflexivity|]. split; [exact Hf|]. split; [exact Hiff|]. split.
  - intros ->. split; [reflexivity|]. cbn [Carousel.create Carousel.container_after].
    eexists. split; [reflexivity|]. split; [eexists; reflexivity|].
    cbn [Dom.classList]. apply classList_add_in.
  - intros Hne. destruct urls as [|u urls]; [contradiction|].
    unfold Carousel.create, ProductDetailPage.detail_options. cbn [Carousel.default
      Carousel.auto Carousel.interval Carousel.controls].
    eexists _, _, _, _. split; [reflexivity|]. split; [reflexivity|].
    split; [reflexivity|].
    split; [apply items_sources|]. repeat split; reflexivity.
Qed.

(** ** The catalog store: [getFeatured], [search], [getById] *)

Lemma slice0_prefix {A : Type} (n : Z) (l : list A) :
  exists rest, l = JS.slice0 n l ++ rest.
Proof.
  unfold JS.slice0. eexists. symmetry. apply firstn_skipn.
Qed.

Lemma slice0_length {A : Type} (n : Z) (l : list A) :
  List.length (JS.slice0 n l) =
  if (n <? 0)%Z then List.length l - Z.to_nat (- n)
  else Nat.min (Z.to_nat n) (List.length l).
Proof.
  unfold JS.slice0. rewrite length_firstn.
  destruct (Z.ltb_spec n 0); lia.
Qed.

(** X14.  [getFeatured] returns the leading products of the catalog and
    leaves the catalog alone: without an argument the first six, or all
    when there are fewer; with a count that many, clamped to the catalog;
    with a negative count all but that many at the end. *)
Theorem getFeatured_leading_products :
  forall (count : option Z) (w : ProductManager.world),
    exists featured rest,
      ProductManager.getFeatured count w = (ProductManager.Normal featured, w) /\
      ProductManager.products w = featured ++ rest /\
      (count = None ->
       List.length featured = Nat.min 6 (List.length (ProductManager.products w))) /\
      (forall n, count = Some n -> (0 <= n)%Z ->
         List.length featured =
         Nat.min (Z.to_nat n) (List.length (ProductManager.products w))) /\
      (forall n, count = Some n -> (n < 0)%Z ->
         List.length featured =
         List.length (ProductManager.products w) - Z.to_nat (- n)).
Proof.
  intros count w. unfold ProductManager.getFeatured.
  set (n := match count with Some n => n | None => 6%Z end).
  destruct (slice0_prefix n (ProductManager.products w)) as [rest Hrest].
  exists (JS.slice0 n (ProductManager.products w)), rest.
  split; [reflexivity|]. split; [exact Hrest|].
  pose proof (slice0_length n (ProductManager.products w)) as Hl.
  split; [|split].
  - intros ->. subst n. exact Hl.
  - intros m -> Hm. subst n. rewrite Hl.
    destruct (Z.ltb_spec m 0); [lia|reflexivity].
  - intros m -> Hm. subst n. rewrite Hl.
    destruct (Z.ltb_spec m 0); [reflexivity|lia].
Qed.

Lemma includes_empty (s : string) : JS.includes s EmptyString = true.
Proof. destruct s; reflexivity. Qed.

(** X15.  [search] returns, in catalog order, exactly the products whose
    name or description contains the query without regard to letter
    case; the empty query returns the whole catalog; and for a non-empty
    query these are the products the search box of the listing page
    keeps when category and price exclude nothing. *)
Theorem search_matches_ignoring_case :
  forall (query : string) (w : ProductManager.world),
    exists found,
      ProductManager.search query w = (ProductManager.Normal found, w) /\
      (forall p, In p found <->
                 In p (ProductManager.products w) /\
                 (Spec.matches_ignoring_case query (Product.name p) \/
                  Spec.matches_ignoring_case query (Product.description p))) /\
      (query = EmptyString -> found = ProductManager.products w) /\
      (forall maxPrice sortBy,
          query <> EmptyString ->
          (forall p, In p (ProductManager.products w) ->
                     (Product.price p <= maxPrice)%Q) ->
          found =
          List.filter
            (ProductsPage.keep
               {| Filters.search := query; Filters.category := EmptyString;
                  Filters.maxPrice := maxPrice; Filters.sortBy := sortBy |})
            (ProductManager.products w)).
Proof.
  intros query w. unfold ProductManager.search. cbv zeta.
  eexists. split; [reflexivity|]. split; [|split].
  - intros p. rewrite filter_In, orb_true_iff, !includes_lower_iff. reflexivity.
  - intros ->. apply forallb_filter_id. apply forallb_forall. intros p _.
    cbn [JS.toLowerCase]. now rewrite includes_empty.
  - intros maxPrice sortBy Hq Hprices.
    apply filter_ext_in. intros p Hp.
    unfold ProductsPage.keep. cbv zeta. cbn [Filters.search Filters.category
      Filters.maxPrice JS.truthy andb].
    apply truthy_true_iff in Hq. rewrite Hq.
    assert (Hg : JS.gt (Product.price p) maxPrice = false)
      by (apply gt_false_iff; now apply Hprices).
    rewrite Hg.
    now destruct (JS.includes (JS.toLowerCase (Product.name p)) (JS.toLowerCase query)
                  || JS.includes (JS.toLowerCase (Product.description p))
                       (JS.toLowerCase query)).
Qed.

Lemma getById_find (z : Z) (w : ProductManager.world) :
  ProductManager.getById (Some z) w =
  (ProductManager.Normal
     (List.find (fun p => Z.eqb (Product.id p) z) (ProductManager.products w)), w).
Proof.
  unfold ProductManager.getById. cbn [JS.String_of_number].
  now rewrite parseInt_String_of_Z.
Qed.

Lemma find_unique_id (p : Product.t) (l : list Product.t) :
  In p l -> NoDup (List.map Product.id l) ->
  List.find (fun q => Z.eqb (Product.id q) (Product.id p)) l = Some p.
Proof.
  induction l as [|q l IH]; intros Hin Hnd; [contradiction|].
  cbn [List.find]. inversion Hnd as [|? ? Hq Hnd']; subst.
  destruct Hin as [->|Hin]; [now rewrite Z.eqb_refl|].
  destruct (Z.eqb_spec (Product.id q) (Product.id p)) as [E|_].
  - exfalso. apply Hq. rewrite E. now apply in_map.
  - now apply IH.
Qed.

(** X16.  For an id in the range where JS numbers are exact integers
    (below 2^53 in absolute value, where [String(id)] is the plain
    decimal numeral that [parseInt] reads back), [getById] finds the
    first product of the catalog with the given id and nothing when
    there is none; it finds nothing when the id is NaN; when the ids of
    the catalog are distinct, looking a product up by its id, in that
    range, gives that product back. *)
Theorem getById_first_match :
  forall (w : ProductManager.world),
    (forall z,
        (Z.abs z < 2 ^ 53)%Z ->
        exists r,
          ProductManager.getById (Some z) w = (ProductManager.Normal r, w) /\
          (r = None <->
           forall p, In p (ProductManager.products w) -> Product.id p <> z) /\
          (forall p, r = Some p ->
             exists before after,
               ProductManager.products w = before ++ p :: after /\
               Product.id p = z /\
               forall q, In q before -> Product.id q <> z)) /\
    ProductManager.getById None w = (ProductManager.Normal None, w) /\
    (NoDup (List.map Product.id (ProductManager.products w)) ->
     forall p, In p (ProductManager.products w) ->
       (Z.abs (Product.id p) < 2 ^ 53)%Z ->
       ProductManager.getById (Some (Product.id p)) w = (ProductManager.Normal (Some p), w)).
Proof.
  intros w. split; [|split].
  - intros z _. rewrite getById_find. eexists. split; [reflexivity|]. split.
    + split.
      * intros H p Hp E. apply (find_none _ _ H) in Hp.
        apply Z.eqb_neq in Hp. contradiction.
      * apply find_none_by_id.
    + intros p Hp. generalize dependent (ProductManager.products w).
      induction l as [|q l IH]; intros Hp; [discriminate|].
      cbn [List.find] in Hp.
      destruct (Z.eqb_spec (Product.id q) z) as [E|E].
      * injection Hp as ->. exists [], l. repeat split; try assumption.
        intros ? [].
      * destruct (IH Hp) as [before [after [-> [Hid Hb]]]].
        exists (q :: before), after. repeat split; try assumption.
        intros q' [<-|Hq']; [exact E|now apply Hb].
  - unfold ProductManager.getById. cbn. f_equal. f_equal.
    induction (ProductManager.products w) as [|q l IH]; [reflexivity|exact IH].
  - intros Hnd p Hp _. rewrite getById_find. now rewrite find_unique_id.
Qed.

(** ** The detail page: the product shown and its related products *)




(** X18.  The related products of the detail page are at most four, in
    catalog order; each is a product of the catalog of the same category
    as the product shown and with another id, so the product shown is
    never among them; when no more than four such products exist, all
    of them are related. *)
Theorem related_products :
  forall (allProducts : list Product.t) (product : Product.t),
    let others :=
      List.filter
        (fun p =>
           String.eqb (Product.category p) (Product.category product) &&
           negb (Z.eqb (Product.id p) (Product.id product)))
        allProducts in
    let related := ProductDetailPage.related allProducts product in
    List.length related <= 4 /\
    (exists rest, others = related ++ rest) /\
    (forall p, In p related ->
       In p allProducts /\
       Product.category p = Product.category product /\
       Product.id p <> Product.id product) /\
    ~ In product related /\
    (List.length others <= 4 -> related = others).
Proof.
  intros allProducts product others related.
  assert (Hin : forall p, In p related -> In p others).
  { intros p Hp. unfold related, ProductDetailPage.related in Hp. fold others in Hp.
    destruct (slice0_prefix 4 others) as [rest Hr]. rewrite Hr.
    apply in_or_app. now left. }
  assert (Hprops : forall p, In p related ->
             In p allProducts /\
             Product.category p = Product.category product /\
             Product.id p <> Product.id product).
  { intros p Hp. apply Hin in Hp. apply filter_In in Hp. destruct Hp as [Ha Hb].
    apply andb_true_iff in Hb. destruct Hb as [Hc Hi].
    apply String.eqb_eq in Hc. apply negb_true_iff, Z.eqb_neq in Hi. now split. }
  split; [|split; [|split; [|split]]].
  - unfold related, ProductDetailPage.related. fold others.
    rewrite slice0_length. cbn. lia.
  - apply slice0_prefix.
  - exact Hprops.
  - intros H. apply Hprops in H. destruct H as [_ [_ H]]. now apply H.
  - intros Hl. unfold related, ProductDetailPage.related. fold others.
    unfold JS.slice0. cbn [Z.ltb Z.compare].
    apply firstn_all2. lia.
Qed.

(** X19.  The related-products container shows the message that none
    was found exactly when the catalog has no other product of the
    category of the product shown; otherwise it shows the cards of the
    related products, one after the other, and not the message. *)
Theorem displayRelatedProducts_message :
  forall (toFixed : Q -> nat -> string) (allProducts : list Product.t)
         (product : Product.t),
    let html := ProductDetailPage.displayRelatedProducts toFixed allProducts product in
    let related := ProductDetailPage.related allProducts product in
    let message :=
      ("<p style=" ++ String JS.dquote
         "grid-column: 1/-1; text-align: center; padding: 2rem; color: #666;" ++
       String JS.dquote ">No related products found.</p>")%string in
    (related = [] <->
     forall p, In p allProducts ->
               Product.category p = Product.category product ->
               Product.id p = Product.id product) /\
    (related = [] -> html = message) /\
    (related <> [] ->
     html = String.concat EmptyString
              (List.map (ProductDetailPage.relatedCard toFixed) related) /\
     html <> message).
Proof.
  intros tf all product html related message.
  split; [|split].
  - subst related. unfold ProductDetailPage.related.
    set (keep := fun p : Product.t => _).
    assert (Hnil : JS.slice0 4 (List.filter keep all) = [] <-> List.filter keep all = []).
    { unfold JS.slice0. cbn [Z.ltb Z.compare].
      destruct (List.filter keep all) as [|x l]; [cbn; tauto|].
      split; [|discriminate].
      cbn [List.length].
      replace (Z.to_nat (Z.min 4 (Z.of_nat (S (List.length l)))))
        with (S (Z.to_nat (Z.min 3 (Z.of_nat (List.length l))))) by lia.
      discriminate. }
    rewrite Hnil. split.
    + intros Hf p Hin Hc.
      destruct (Z.eqb_spec (Product.id p) (Product.id product)) as [E|E]; [exact E|].
      exfalso.
      assert (Hk : In p (List.filter keep all)).
      { apply filter_In. split; [exact Hin|]. subst keep. cbn.
        apply andb_true_iff. split; [now apply String.eqb_eq|].
        now apply negb_true_iff, Z.eqb_neq. }
      rewrite Hf in Hk. exact Hk.
    + intros H. destruct (List.filter keep all) as [|x l] eqn:E; [reflexivity|].
      exfalso.
      assert (Hx : In x (List.filter keep all)) by (rewrite E; now left).
      apply filter_In in Hx. destruct Hx as [Hin Hk]. subst keep. cbn in Hk.
      apply andb_true_iff in Hk. destruct Hk as [Hc Hid].
      apply String.eqb_eq in Hc. apply negb_true_iff, Z.eqb_neq in Hid.
      now apply Hid, H.
  - intros H. subst html. unfold ProductDetailPage.displayRelatedProducts.
    fold related. rewrite H. reflexivity.
  - intros H. subst html. unfold ProductDetailPage.displayRelatedProducts.
    fold related. destruct related as [|r rs]; [congruence|].
    split; [reflexivity|].
    unfold JS.join. cbn [List.map]. rewrite concat_cons.
    unfold ProductDetailPage.relatedCard at 1. cbv zeta.
    rewrite concat_cons. unfold JS.br at 1. subst message. cbn [append].
    discriminate.
Qed.

(* ------------------------------------------------------------------ *)
(** ** The listing page: listeners and what the page shows *)

Section ListingFacts.
Variable localeCompare : string -> string -> Q.
Variable toFixed : Q -> nat -> string.

Local Abbreviation refresh := (ProductsPageUI.refresh localeCompare toFixed).
Local Abbreviation listener := (ProductsPageUI.listener localeCompare toFixed).
Local Abbreviation session := (ProductsPageUI.session localeCompare toFixed).

(** The catalog variable refers to an array that exists. *)
Local Abbreviation well_formed p :=
  (Heap.allocated (ProductsPage.heap (ProductsPageUI.state p))
                  (ProductsPage.allProducts (ProductsPageUI.state p))).

Lemma updateUI_shows (p : ProductsPageUI.page) :
  Listing.shows toFixed (ProductsPage.view (ProductsPageUI.state p))
                (ProductsPageUI.ui (ProductsPageUI.updateUI toFixed p)).
Proof.
  destruct p as [s d]. cbn [ProductsPageUI.state ProductsPageUI.updateUI
                            ProductsPageUI.set_ui ProductsPageUI.ui].
  set (v := ProductsPage.view s).
  unfold ProductsPageUI.updateNoResultsMessage, ProductsPageUI.updateProductCount,
    ProductsPageUI.displayProducts.
  destruct d as [a b c e f [g|] [n|] [m|]]; cbn; unfold Listing.shows; cbn;
    (split; [|split]); intros x Hx; try discriminate;
    injection Hx as <-; try reflexivity.
  all: destruct v; reflexivity.
Qed.

Lemma updateUI_elements (p : ProductsPageUI.page) :
  Listing.elements (ProductsPageUI.ui (ProductsPageUI.updateUI toFixed p)) =
  Listing.elements (ProductsPageUI.ui p).
Proof.
  destruct p as [s d]. cbn.
  unfold ProductsPageUI.updateNoResultsMessage, ProductsPageUI.updateProductCount,
    ProductsPageUI.displayProducts.
  destruct d as [a b c e f [g|] [n|] [m|]]; reflexivity.
Qed.

(** [updateUI] leaves the inputs and the price label alone. *)
Lemma updateUI_inputs (p : ProductsPageUI.page) :
  let d := ProductsPageUI.ui p in
  let d' := ProductsPageUI.ui (ProductsPageUI.updateUI toFixed p) in
  ProductsPageUI.searchInput d' = ProductsPageUI.searchInput d /\
  ProductsPageUI.categoryFilter d' = ProductsPageUI.categoryFilter d /\
  ProductsPageUI.priceRange d' = ProductsPageUI.priceRange d /\
  ProductsPageUI.priceValue d' = ProductsPageUI.priceValue d /\
  ProductsPageUI.sortSelect d' = ProductsPageUI.sortSelect d.
Proof.
  destruct p as [s d]. cbn.
  unfold ProductsPageUI.updateNoResultsMessage, ProductsPageUI.updateProductCount,
    ProductsPageUI.displayProducts.
  destruct d as [a b c e f [g|] [n|] [m|]]; cbn; repeat split.
Qed.

Lemma refresh_state (p : ProductsPageUI.page) :
  ProductsPageUI.state (refresh p) =
  ProductsPage.applyFilters localeCompare (ProductsPageUI.state p).
Proof. reflexivity. Qed.

Lemma refresh_spec (p : ProductsPageUI.page) :
  well_formed p ->
  let p' := refresh p in
  well_formed p' /\
  ProductsPage.catalog (ProductsPageUI.state p') =
    ProductsPage.catalog (ProductsPageUI.state p) /\
  ProductsPage.filters (ProductsPageUI.state p') =
    ProductsPage.filters (ProductsPageUI.state p) /\
  ProductsPage.view (ProductsPageUI.state p') =
    JS.sort (ProductsPage.comparator localeCompare
               (Filters.sortBy (ProductsPage.filters (ProductsPageUI.state p))))
      (List.filter (ProductsPage.keep (ProductsPage.filters (ProductsPageUI.state p)))
                   (ProductsPage.catalog (ProductsPageUI.state p))) /\
  Listing.shows toFixed (ProductsPage.view (ProductsPageUI.state p'))
                (ProductsPageUI.ui p') /\
  Listing.elements (ProductsPageUI.ui p') = Listing.elements (ProductsPageUI.ui p).
Proof.
  intros Hwf p'. subst p'. rewrite refresh_state.
  split; [|split; [|split; [|split; [|split]]]].
  - now apply applyFilters_allocated.
  - unfold ProductsPage.catalog.
    destruct (applyFilters_variables localeCompare (ProductsPageUI.state p)) as [-> _].
    now apply applyFilters_frame.
  - reflexivity.
  - apply applyFilters_view.
  - apply (updateUI_shows
             {| ProductsPageUI.state :=
                  ProductsPage.applyFilters localeCompare (ProductsPageUI.state p);
                ProductsPageUI.ui := ProductsPageUI.ui p |}).
  - apply (updateUI_elements
             {| ProductsPageUI.state :=
                  ProductsPage.applyFilters localeCompare (ProductsPageUI.state p);
                ProductsPageUI.ui := ProductsPageUI.ui p |}).
Qed.

Lemma shows_outputs (v : list Product.t) (d d1 : ProductsPageUI.dom) :
  Listing.outputs d1 = Listing.outputs d ->
  Listing.shows toFixed v d -> Listing.shows toFixed v d1.
Proof.
  unfold Listing.outputs, Listing.shows. intros H. injection H as -> -> ->. tauto.
Qed.

(** What a listener does to the page: nothing (no such element), or it
    sets filter properties and input values and then refreshes, or it
    stops at the missing price label before the refresh. *)
Lemma listener_cases (e : ProductsPageUI.event) (p : ProductsPageUI.page) :
  match listener e p with
  | ProductsPageUI.Done p' =>
      p' = p \/
      exists f d1,
        Listing.elements d1 = Listing.elements (ProductsPageUI.ui p) /\
        Listing.outputs d1 = Listing.outputs (ProductsPageUI.ui p) /\
        p' = refresh {| ProductsPageUI.state :=
                         ProductsPage.with_filters f (ProductsPageUI.state p);
                       ProductsPageUI.ui := d1 |}
  | ProductsPageUI.TypeError p' =>
      ProductsPageUI.priceRange (ProductsPageUI.ui p) <> None /\
      ProductsPageUI.priceValue (ProductsPageUI.ui p) = None /\
      exists f d1,
        Listing.elements d1 = Listing.elements (ProductsPageUI.ui p) /\
        Listing.outputs d1 = Listing.outputs (ProductsPageUI.ui p) /\
        p' = {| ProductsPageUI.state :=
                         ProductsPage.with_filters f (ProductsPageUI.state p);
                       ProductsPageUI.ui := d1 |}
  | ProductsPageUI.NotModelled => True
  end.
Proof.
  destruct p as [s d].
  destruct d as [[a|] [b|] [c|] [l|] [o|] g n m]; destruct e as [v|v|v|v|];
    unfold ProductsPageUI.listener, ProductsPageUI.clearAllFilters,
      ProductsPageUI.write_priceValue;
    cbn -[ProductsPageUI.refresh JS.parseInt JS.String_of_Z];
    try destruct (JS.parseInt v) as [z|];
    cbn -[ProductsPageUI.refresh JS.parseInt JS.String_of_Z];
    try exact I; try (left; reflexivity);
    try (right; eexists _, _; split; [|split]; [| |reflexivity]; reflexivity);
    try (split; [discriminate|]; split; [reflexivity|];
         eexists _, _; split; [|split]; [| |reflexivity]; reflexivity).
Qed.

Lemma elements_price (d d' : ProductsPageUI.dom) :
  Listing.elements d' = Listing.elements d ->
  (ProductsPageUI.priceRange d <> None -> ProductsPageUI.priceValue d <> None) ->
  ProductsPageUI.priceRange d' <> None -> ProductsPageUI.priceValue d' <> None.
Proof.
  unfold Listing.elements. intros H.
  injection H as _ _ Hr Hv _ _ _ _.
  destruct (ProductsPageUI.priceRange d'), (ProductsPageUI.priceRange d),
    (ProductsPageUI.priceValue d'), (ProductsPageUI.priceValue d);
    cbn in *; try discriminate; intros H1 H2; try congruence.
  exfalso. apply H1; congruence.
Qed.

(** Whatever the events, the catalog stays what it was and no element
    appears or disappears. *)
Lemma session_frame (events : list ProductsPageUI.event) :
  forall p p',
    well_formed p ->
    session events p = Some p' ->
    well_formed p' /\
    ProductsPage.catalog (ProductsPageUI.state p') =
      ProductsPage.catalog (ProductsPageUI.state p) /\
    Listing.elements (ProductsPageUI.ui p') = Listing.elements (ProductsPageUI.ui p).
Proof.
  induction events as [|e rest IH]; intros p p' Hwf Hs; cbn in Hs.
  - injection Hs as <-. auto.
  - pose proof (listener_cases e p) as Hc.
    destruct (listener e p) as [q|q|]; [| |discriminate].
    + destruct Hc as [->|[f [d1 [He [_ ->]]]]]; [now apply IH|].
      destruct (refresh_spec {| ProductsPageUI.state :=
                         ProductsPage.with_filters f (ProductsPageUI.state p);
                       ProductsPageUI.ui := d1 |} Hwf)
        as [Hwf' [Hcat [_ [_ [_ Hel]]]]].
      destruct (IH _ _ Hwf' Hs) as [H1 [H2 H3]].
      split; [exact H1|]. split.
      * rewrite H2, Hcat. reflexivity.
      * rewrite H3, Hel. exact He.
    + destruct Hc as [_ [_ [f [d1 [He [_ ->]]]]]].
      destruct (IH {| ProductsPageUI.state :=
                        ProductsPage.with_filters f (ProductsPageUI.state p);
                      ProductsPageUI.ui := d1 |} p' Hwf Hs) as [H1 [H2 H3]].
      split; [exact H1|]. split.
      * rewrite H2. reflexivity.
      * rewrite H3. exact He.
Qed.

(** The view is the filtered and sorted catalog for the filter object,
    and the elements show the view. *)
Local Abbreviation consistent p :=
  (ProductsPage.view (ProductsPageUI.state p) =
     JS.sort (ProductsPage.comparator localeCompare
                (Filters.sortBy (ProductsPage.filters (ProductsPageUI.state p))))
       (List.filter (ProductsPage.keep (ProductsPage.filters (ProductsPageUI.state p)))
                    (ProductsPage.catalog (ProductsPageUI.state p))) /\
   Listing.shows toFixed (ProductsPage.view (ProductsPageUI.state p))
                 (ProductsPageUI.ui p)).

Lemma refresh_consistent (p : ProductsPageUI.page) :
  well_formed p -> consistent (refresh p).
Proof.
  intros Hwf.
  destruct (refresh_spec p Hwf) as [_ [Hcat [Hf [Hv [Hs _]]]]].
  split; [|exact Hs]. rewrite Hv, Hf, Hcat. reflexivity.
Qed.

Lemma session_consistent (events : list ProductsPageUI.event) :
  forall p p',
    well_formed p ->
    (ProductsPageUI.priceRange (ProductsPageUI.ui p) <> None ->
     ProductsPageUI.priceValue (ProductsPageUI.ui p) <> None) ->
    consistent p ->
    session events p = Some p' ->
    consistent p'.
Proof.
  induction events as [|e rest IH]; intros p p' Hwf Hpv Hc Hs; cbn in Hs.
  - injection Hs as <-. exact Hc.
  - pose proof (listener_cases e p) as Hl.
    destruct (listener e p) as [q|q|]; [| |discriminate].
    + destruct Hl as [->|[f [d1 [He [_ ->]]]]]; [now apply (IH p)|].
      set (p1 := {| ProductsPageUI.state :=
                         ProductsPage.with_filters f (ProductsPageUI.state p);
                       ProductsPageUI.ui := d1 |}) in *.
      assert (Hwf1 : well_formed p1) by exact Hwf.
      destruct (refresh_spec p1 Hwf1) as [Hwf' [_ [_ [_ [_ Hel]]]]].
      apply (IH (refresh p1)); [exact Hwf'| |now apply refresh_consistent|exact Hs].
      apply (elements_price (ProductsPageUI.ui p)); [|exact Hpv].
      rewrite Hel. exact He.
    + destruct Hl as [Hr [Hv _]]. exfalso. now apply Hpv.
Qed.

Lemma listener_in_model (e : ProductsPageUI.event) (p : ProductsPageUI.page) :
  Listing.in_model e = true -> listener e p <> ProductsPageUI.NotModelled.
Proof.
  destruct p as [s d].
  destruct d as [[a|] [b|] [c|] [l|] [o|] g n m]; destruct e as [v|v|v|v|];
    unfold ProductsPageUI.listener, ProductsPageUI.clearAllFilters,
      ProductsPageUI.write_priceValue, Listing.in_model;
    cbn -[ProductsPageUI.refresh JS.parseInt JS.String_of_Z];
    try destruct (JS.parseInt v) as [z|];
    cbn -[ProductsPageUI.refresh JS.parseInt JS.String_of_Z];
    intros H; try discriminate.
Qed.

(** A session of events of the model runs to its end. *)
Lemma session_defined (events : list ProductsPageUI.event) :
  forallb Listing.in_model events = true ->
  forall p, exists p', session events p = Some p'.
Proof.
  induction events as [|e rest IH]; intros H p; cbn in *.
  - now exists p.
  - apply andb_true_iff in H. destruct H as [He Hrest].
    pose proof (listener_in_model e p He) as Hn.
    destruct (listener e p) as [q|q|]; [now apply IH|now apply IH|congruence].
Qed.

(** With an empty catalog the page stays empty, errors or not. *)
Lemma session_empty (events : list ProductsPageUI.event) :
  forall p p',
    well_formed p ->
    ProductsPage.catalog (ProductsPageUI.state p) = [] ->
    ProductsPage.view (ProductsPageUI.state p) = [] ->
    Listing.shows toFixed [] (ProductsPageUI.ui p) ->
    session events p = Some p' ->
    ProductsPage.view (ProductsPageUI.state p') = [] /\
    Listing.shows toFixed [] (ProductsPageUI.ui p').
Proof.
  induction events as [|e rest IH]; intros p p' Hwf Hcat Hv Hsh Hs; cbn in Hs.
  - injection Hs as <-. auto.
  - pose proof (listener_cases e p) as Hl.
    destruct (listener e p) as [q|q|]; [| |discriminate].
    + destruct Hl as [->|[f [d1 [He [_ ->]]]]]; [now apply (IH p)|].
      set (p1 := {| ProductsPageUI.state :=
                      ProductsPage.with_filters f (ProductsPageUI.state p);
                    ProductsPageUI.ui := d1 |}) in *.
      assert (Hwf1 : well_formed p1) by exact Hwf.
      destruct (refresh_spec p1 Hwf1) as [Hwf' [Hc' [_ [Hv' [Hs' _]]]]].
      assert (Hcat1 : ProductsPage.catalog (ProductsPageUI.state p1) = []) by exact Hcat.
      rewrite Hcat1 in Hv'. cbn [List.filter JS.sort] in Hv'.
      apply (IH (refresh p1)); [exact Hwf'| | | |exact Hs].
      * now rewrite Hc'.
      * exact Hv'.
      * now rewrite Hv' in Hs'.
    + destruct Hl as [_ [_ [f [d1 [_ [Ho ->]]]]]].
      apply (IH {| ProductsPageUI.state :=
                     ProductsPage.with_filters f (ProductsPageUI.state p);
                   ProductsPageUI.ui := d1 |}); [exact Hwf|exact Hcat|exact Hv| |exact Hs].
      now apply (shows_outputs [] (ProductsPageUI.ui p)).
Qed.

(** [clearAllFilters] on a page with the price label (or without the
    slider): the filter object is reset, the inputs are set to the
    defaults, and the page is refreshed. *)
Lemma clearAllFilters_done (p : ProductsPageUI.page) :
  (ProductsPageUI.priceRange (ProductsPageUI.ui p) <> None ->
   ProductsPageUI.priceValue (ProductsPageUI.ui p) <> None) ->
  exists d3,
    listener ProductsPageUI.ClearClick p =
      ProductsPageUI.Done
        (refresh {| ProductsPageUI.state :=
                      ProductsPage.with_filters ProductsPage.initial_filters
                        (ProductsPageUI.state p);
                    ProductsPageUI.ui := d3 |}) /\
    Listing.elements d3 = Listing.elements (ProductsPageUI.ui p) /\
    ProductsPageUI.searchInput d3 =
      option_map (fun _ => EmptyString) (ProductsPageUI.searchInput (ProductsPageUI.ui p)) /\
    ProductsPageUI.categoryFilter d3 =
      option_map (fun _ => EmptyString) (ProductsPageUI.categoryFilter (ProductsPageUI.ui p)) /\
    ProductsPageUI.priceRange d3 =
      option_map (fun _ => "250"%string) (ProductsPageUI.priceRange (ProductsPageUI.ui p)) /\
    (ProductsPageUI.priceRange (ProductsPageUI.ui p) <> None ->
     ProductsPageUI.priceValue d3 = Some "250"%string) /\
    ProductsPageUI.sortSelect d3 =
      option_map (fun _ => "name"%string) (ProductsPageUI.sortSelect (ProductsPageUI.ui p)).
Proof.
  destruct p as [s d].
  destruct d as [[a|] [b|] [c|] [l|] [o|] g n m];
    unfold ProductsPageUI.listener, ProductsPageUI.clearAllFilters,
      ProductsPageUI.write_priceValue;
    cbn -[ProductsPageUI.refresh]; intros H;
    try (exfalso; now apply H);
    eexists; (split; [reflexivity|]); cbn; repeat split; intros Hx;
    try reflexivity; exfalso; now apply Hx.
Qed.

Lemma init_page (pathname : string) (fetch : string -> ProductManager.fetch_outcome)
      (d : ProductsPageUI.dom) (w : ProductManager.world)
      (all : list Product.t) (w' : ProductManager.world) :
  ProductManager.loadProducts pathname fetch w = (ProductManager.Normal all, w') ->
  ProductsPageUI.init localeCompare toFixed pathname fetch d w =
    (ProductManager.Normal
       (refresh {| ProductsPageUI.state := ProductsPage.loaded all;
                   ProductsPageUI.ui := d |}), w').
Proof.
  intros H. unfold ProductsPageUI.init, ProductManager.bind. rewrite H. reflexivity.
Qed.

Lemma apply_sort_filter (all : list Product.t) (f : Filters.t) :
  ProductsPage.apply localeCompare all f =
  JS.sort (ProductsPage.comparator localeCompare (Filters.sortBy f))
          (List.filter (ProductsPage.keep f) all).
Proof.
  unfold ProductsPage.apply. rewrite applyFilters_view. reflexivity.
Qed.

Lemma loaded_well_formed (all : list Product.t) (d : ProductsPageUI.dom) :
  well_formed {| ProductsPageUI.state := ProductsPage.loaded all;
                 ProductsPageUI.ui := d |}.
Proof. unfold Heap.allocated. cbn. lia. Qed.

End ListingFacts.

Lemma loadProducts_failure (pathname : string)
      (fetch : string -> ProductManager.fetch_outcome) (w : ProductManager.world) :
  Spec.fetch_failed (fetch (Spec.productsPath pathname)) ->
  exists w', ProductManager.loadProducts pathname fetch w = (ProductManager.Normal [], w').
Proof.
  unfold ProductManager.loadProducts, ProductManager.try_catch, ProductManager.bind,
    ProductManager.await_fetch, ProductManager.await_json, Spec.productsPath.
  destruct (fetch _) as [e|[[|] status [l|]]]; cbn; intros H;
    try discriminate; eexists; reflexivity.
Qed.

(** X20.  On a listing page that has the price label (or no price
    slider), after [init] and any sequence of input, change and click
    events in which every value of the price slider is a numeral (so
    that [maxPrice] is a number), whatever the fetch gave: the catalog
    is still the loaded
    one, the list on display is the filtered and sorted catalog for the
    current filter object, the grid holds one card for each product of
    that list in its order, the counter its length, the no-results
    message is displayed exactly when it is empty, and the listener of
    the next event completes without an error. *)
Theorem session_shows_filtered_catalog :
  forall (localeCompare : string -> string -> Q) (toFixed : Q -> nat -> string)
         (pathname : string) (fetch : string -> ProductManager.fetch_outcome)
         (d : ProductsPageUI.dom) (w : ProductManager.world)
         (events : list ProductsPageUI.event),
    (ProductsPageUI.priceRange d <> None -> ProductsPageUI.priceValue d <> None) ->
    forallb Listing.in_model events = true ->
    exists all w' p0 p',
      ProductManager.loadProducts pathname fetch w = (ProductManager.Normal all, w') /\
      ProductsPageUI.init localeCompare toFixed pathname fetch d w =
        (ProductManager.Normal p0, w') /\
      ProductsPageUI.session localeCompare toFixed events p0 = Some p' /\
      ProductsPage.catalog (ProductsPageUI.state p') = all /\
      ProductsPage.view (ProductsPageUI.state p') =
        ProductsPage.apply localeCompare all
          (ProductsPage.filters (ProductsPageUI.state p')) /\
      Listing.shows toFixed (ProductsPage.view (ProductsPageUI.state p'))
                    (ProductsPageUI.ui p') /\
      Listing.elements (ProductsPageUI.ui p') = Listing.elements d /\
      (forall e, Listing.in_model e = true ->
         exists q, ProductsPageUI.listener localeCompare toFixed e p' =
                   ProductsPageUI.Done q).
Proof.
  intros lc tf pathname fetch d w events Hpv Hev.
  destruct (loadProducts_returns pathname fetch w) as [all [w' Hl]].
  set (start := {| ProductsPageUI.state := ProductsPage.loaded all;
                   ProductsPageUI.ui := d |}).
  pose proof (loaded_well_formed all d) as Hwf. fold start in Hwf.
  destruct (refresh_spec lc tf start Hwf) as [Hwf0 [Hc0 [_ [_ [_ He0]]]]].
  destruct (session_defined lc tf events Hev (ProductsPageUI.refresh lc tf start))
    as [p' Hs].
  exists all, w', (ProductsPageUI.refresh lc tf start), p'.
  split; [exact Hl|]. split; [now apply init_page|]. split; [exact Hs|].
  destruct (session_frame lc tf events _ _ Hwf0 Hs) as [_ [Hc He]].
  assert (Hcons : ProductsPage.view (ProductsPageUI.state p') =
                  JS.sort (ProductsPage.comparator lc
                             (Filters.sortBy (ProductsPage.filters (ProductsPageUI.state p'))))
                    (List.filter
                       (ProductsPage.keep (ProductsPage.filters (ProductsPageUI.state p')))
                       (ProductsPage.catalog (ProductsPageUI.state p'))) /\
                  Listing.shows tf (ProductsPage.view (ProductsPageUI.state p'))
                    (ProductsPageUI.ui p')).
  { apply (session_consistent lc tf events (ProductsPageUI.refresh lc tf start));
      [exact Hwf0| |now apply refresh_consistent|exact Hs].
    apply (elements_price d); [exact He0|exact Hpv]. }
  destruct Hcons as [Hv Hsh].
  assert (Hall : ProductsPage.catalog (ProductsPageUI.state p') = all)
    by (rewrite Hc, Hc0; reflexivity).
  assert (Hel : Listing.elements (ProductsPageUI.ui p') = Listing.elements d)
    by (rewrite He, He0; reflexivity).
  split; [exact Hall|]. split; [|split; [exact Hsh|split; [exact Hel|]]].
  - rewrite apply_sort_filter, Hv, Hall. reflexivity.
  - intros e Hin.
    pose proof (listener_cases lc tf e p') as Hcase.
    pose proof (listener_in_model lc tf e p' Hin) as Hmod.
    destruct (ProductsPageUI.listener lc tf e p') as [q|q|];
      [now exists q| |congruence].
    destruct Hcase as [Hr [Hnone _]]. exfalso.
    now apply (elements_price d (ProductsPageUI.ui p') Hel Hpv).
Qed.

Lemma session_shows_filtered_catalog_witness :
  exists all w' p0 p',
    ProductManager.loadProducts "/products/index.html" fetch_scenario
      ProductManager.initial = (ProductManager.Normal all, w') /\
    ProductsPageUI.init codeunit_compare (fun _ _ => "0.00"%string)
      "/products/index.html" fetch_scenario full_dom ProductManager.initial =
      (ProductManager.Normal p0, w') /\
    ProductsPageUI.session codeunit_compare (fun _ _ => "0.00"%string)
      [ProductsPageUI.PriceInput "7"; ProductsPageUI.SearchInput "z";
       ProductsPageUI.ClearClick]%string p0 = Some p' /\
    ProductsPage.catalog (ProductsPageUI.state p') = all /\
    ProductsPage.view (ProductsPageUI.state p') =
      ProductsPage.apply codeunit_compare all
        (ProductsPage.filters (ProductsPageUI.state p')) /\
    Listing.shows (fun _ _ => "0.00"%string)
                  (ProductsPage.view (ProductsPageUI.state p'))
                  (ProductsPageUI.ui p') /\
    Listing.elements (ProductsPageUI.ui p') = Listing.elements full_dom /\
    (forall e, Listing.in_model e = true ->
       exists q, ProductsPageUI.listener codeunit_compare (fun _ _ => "0.00"%string)
                   e p' = ProductsPageUI.Done q).
Proof.
  apply (session_shows_filtered_catalog codeunit_compare (fun _ _ => "0.00"%string)
           "/products/index.html" fetch_scenario full_dom ProductManager.initial).
  - intros _. discriminate.
  - reflexivity.
Defined.

(** X21.  Clearing the filters brings the initial listing back, on a
    page that has the price label (or no price slider): after [init] and
    any events in which every value of the price slider is a numeral,
    [clearAllFilters] completes with the filter
    object at its defaults, the same list on display and the same grid,
    counter and message as right after [init], and every input the page
    has at its default value. *)
Theorem clearAllFilters_restores_initial_listing :
  forall (localeCompare : string -> string -> Q) (toFixed : Q -> nat -> string)
         (pathname : string) (fetch : string -> ProductManager.fetch_outcome)
         (d : ProductsPageUI.dom) (w : ProductManager.world)
         (events : list ProductsPageUI.event),
    (ProductsPageUI.priceRange d <> None -> ProductsPageUI.priceValue d <> None) ->
    forallb Listing.in_model events = true ->
    exists w' p0 p' p'',
      ProductsPageUI.init localeCompare toFixed pathname fetch d w =
        (ProductManager.Normal p0, w') /\
      ProductsPageUI.session localeCompare toFixed events p0 = Some p' /\
      ProductsPageUI.listener localeCompare toFixed ProductsPageUI.ClearClick p' =
        ProductsPageUI.Done p'' /\
      ProductsPage.filters (ProductsPageUI.state p'') = ProductsPage.initial_filters /\
      ProductsPage.view (ProductsPageUI.state p'') =
        ProductsPage.view (ProductsPageUI.state p0) /\
      Listing.outputs (ProductsPageUI.ui p'') = Listing.outputs (ProductsPageUI.ui p0) /\
      ProductsPageUI.searchInput (ProductsPageUI.ui p'') =
        option_map (fun _ => EmptyString) (ProductsPageUI.searchInput d) /\
      ProductsPageUI.categoryFilter (ProductsPageUI.ui p'') =
        option_map (fun _ => EmptyString) (ProductsPageUI.categoryFilter d) /\
      ProductsPageUI.priceRange (ProductsPageUI.ui p'') =
        option_map (fun _ => "250"%string) (ProductsPageUI.priceRange d) /\
      (ProductsPageUI.priceRange d <> None ->
       ProductsPageUI.priceValue (ProductsPageUI.ui p'') = Some "250"%string) /\
      ProductsPageUI.sortSelect (ProductsPageUI.ui p'') =
        option_map (fun _ => "name"%string) (ProductsPageUI.sortSelect d).
Proof.
  intros lc tf pathname fetch d w events Hpv Hev.
  destruct (loadProducts_returns pathname fetch w) as [all [w' Hl]].
  set (start := {| ProductsPageUI.state := ProductsPage.loaded all;
                   ProductsPageUI.ui := d |}).
  pose proof (loaded_well_formed all d) as Hwf. fold start in Hwf.
  destruct (refresh_spec lc tf start Hwf) as [Hwf0 [Hc0 [Hf0 [Hv0 [Hsh0 He0]]]]].
  destruct (session_defined lc tf events Hev (ProductsPageUI.refresh lc tf start))
    as [p' Hs].
  destruct (session_frame lc tf events _ _ Hwf0 Hs) as [Hwf' [Hc He]].
  assert (Hepv : ProductsPageUI.priceRange (ProductsPageUI.ui p') <> None ->
                 ProductsPageUI.priceValue (ProductsPageUI.ui p') <> None).
  { apply (elements_price d); [|exact Hpv]. rewrite He, He0. reflexivity. }
  destruct (clearAllFilters_done lc tf p' Hepv)
    as [d3 [Hclear [He3 [Hi1 [Hi2 [Hi3 [Hi4 Hi5]]]]]]].
  set (p1 := {| ProductsPageUI.state :=
                  ProductsPage.with_filters ProductsPage.initial_filters
                    (ProductsPageUI.state p');
                ProductsPageUI.ui := d3 |}) in *.
  assert (Hwf1 : Heap.allocated (ProductsPage.heap (ProductsPageUI.state p1))
                   (ProductsPage.allProducts (ProductsPageUI.state p1))) by exact Hwf'.
  destruct (refresh_spec lc tf p1 Hwf1) as [_ [_ [Hf1 [Hv1 [Hsh1 He1]]]]].
  destruct (updateUI_inputs tf
              {| ProductsPageUI.state :=
                   ProductsPage.applyFilters lc (ProductsPageUI.state p1);
                 ProductsPageUI.ui := d3 |}) as [Hu1 [Hu2 [Hu3 [Hu4 Hu5]]]].
  cbn [ProductsPageUI.ui] in Hu1, Hu2, Hu3, Hu4, Hu5.
  assert (Hview : ProductsPage.view (ProductsPageUI.state (ProductsPageUI.refresh lc tf p1)) =
                  ProductsPage.view (ProductsPageUI.state (ProductsPageUI.refresh lc tf start))).
  { rewrite Hv1, Hv0.
    change (ProductsPage.filters (ProductsPageUI.state p1))
      with ProductsPage.initial_filters.
    change (ProductsPage.filters (ProductsPageUI.state start))
      with ProductsPage.initial_filters.
    change (ProductsPage.catalog (ProductsPageUI.state p1))
      with (ProductsPage.catalog (ProductsPageUI.state p')).
    rewrite Hc, Hc0. reflexivity. }
  assert (Hsome : forall (x y : option string) (E : Listing.present x = Listing.present y),
             (forall a, x = Some a -> forall b, y = Some b -> a = b) -> x = y).
  { intros [a|] [b|] E H; cbn in E; try discriminate; [|reflexivity].
    f_equal. now apply (H a eq_refl b). }
  exists w', (ProductsPageUI.refresh lc tf start), p', (ProductsPageUI.refresh lc tf p1).
  split; [now apply init_page|]. split; [exact Hs|]. split; [exact Hclear|].
  split; [exact Hf1|]. split; [exact Hview|].
  assert (Hel : Listing.elements (ProductsPageUI.ui (ProductsPageUI.refresh lc tf p1)) =
                Listing.elements (ProductsPageUI.ui (ProductsPageUI.refresh lc tf start))).
  { rewrite He1. cbn [p1 ProductsPageUI.ui]. rewrite He3, He. reflexivity. }
  split.
  - unfold Listing.elements in Hel. injection Hel as _ _ _ _ _ Eg Ec Em.
    rewrite Hview in Hsh1.
    destruct Hsh1 as [Sg1 [Sc1 Sm1]]. destruct Hsh0 as [Sg0 [Sc0 Sm0]].
    unfold Listing.outputs. f_equal; [f_equal|].
    + apply Hsome; [exact Eg|]. intros a Ha b Hb.
      rewrite (Sg1 a Ha), (Sg0 b Hb). reflexivity.
    + apply Hsome; [exact Ec|]. intros a Ha b Hb.
      rewrite (Sc1 a Ha), (Sc0 b Hb). reflexivity.
    + apply Hsome; [exact Em|]. intros a Ha b Hb.
      rewrite (Sm1 a Ha), (Sm0 b Hb). reflexivity.
  - assert (Hin : forall (x y : option string) (c : string),
               Listing.present x = Listing.present y ->
               option_map (fun _ => c) x = option_map (fun _ => c) y).
    { intros [a|] [b|] c E; cbn in E; try discriminate; reflexivity. }
    assert (Hd : Listing.elements (ProductsPageUI.ui p') = Listing.elements d)
      by (rewrite He, He0; reflexivity).
    unfold Listing.elements in Hd. injection Hd as E1 E2 E3 E4 E5 _ _ _.
    unfold ProductsPageUI.refresh.
    change (ProductsPageUI.ui p1) with d3.
    rewrite Hu1, Hu2, Hu3, Hu4, Hu5, Hi1, Hi2, Hi3, Hi5.
    repeat split; try (now apply Hin).
    intros Hr. apply Hi4.
    destruct (ProductsPageUI.priceRange (ProductsPageUI.ui p')),
      (ProductsPageUI.priceRange d); cbn in E3; try discriminate; congruence.
Qed.

Lemma clearAllFilters_restores_initial_listing_witness :
  exists w' p0 p' p'',
    ProductsPageUI.init codeunit_compare (fun _ _ => "0.00"%string)
      "/products/index.html" fetch_scenario full_dom ProductManager.initial =
      (ProductManager.Normal p0, w') /\
    ProductsPageUI.session codeunit_compare (fun _ _ => "0.00"%string)
      [ProductsPageUI.PriceInput "7"; ProductsPageUI.SortChange "price-high"]%string
      p0 = Some p' /\
    ProductsPageUI.listener codeunit_compare (fun _ _ => "0.00"%string)
      ProductsPageUI.ClearClick p' = ProductsPageUI.Done p'' /\
    ProductsPage.filters (ProductsPageUI.state p'') = ProductsPage.initial_filters /\
    ProductsPage.view (ProductsPageUI.state p'') =
      ProductsPage.view (ProductsPageUI.state p0) /\
    Listing.outputs (ProductsPageUI.ui p'') = Listing.outputs (ProductsPageUI.ui p0) /\
    ProductsPageUI.searchInput (ProductsPageUI.ui p'') =
      option_map (fun _ => EmptyString) (ProductsPageUI.searchInput full_dom) /\
    ProductsPageUI.categoryFilter (ProductsPageUI.ui p'') =
      option_map (fun _ => EmptyString) (ProductsPageUI.categoryFilter full_dom) /\
    ProductsPageUI.priceRange (ProductsPageUI.ui p'') =
      option_map (fun _ => "250"%string) (ProductsPageUI.priceRange full_dom) /\
    (ProductsPageUI.priceRange full_dom <> None ->
     ProductsPageUI.priceValue (ProductsPageUI.ui p'') = Some "250"%string) /\
    ProductsPageUI.sortSelect (ProductsPageUI.ui p'') =
      option_map (fun _ => "name"%string) (ProductsPageUI.sortSelect full_dom).
Proof.
  apply (clearAllFilters_restores_initial_listing codeunit_compare
           (fun _ _ => "0.00"%string) "/products/index.html" fetch_scenario
           full_dom ProductManager.initial).
  - intros _. discriminate.
  - reflexivity.
Defined.

(** X22.  On a page with the price slider but without the price label,
    the listener of the slider and [clearAllFilters] both stop with a
    TypeError after they changed the filter object and before they
    refresh: the filter object has the new values while the list on
    display, the grid, the counter and the message are the old ones;
    [clearAllFilters] has reset the search and category inputs and the
    slider, not the sort select. *)
Theorem listeners_stop_without_price_label :
  forall (localeCompare : string -> string -> Q) (toFixed : Q -> nat -> string)
         (value : string) (maxPrice : Z) (p : ProductsPageUI.page),
    ProductsPageUI.priceRange (ProductsPageUI.ui p) <> None ->
    ProductsPageUI.priceValue (ProductsPageUI.ui p) = None ->
    JS.parseInt value = Some maxPrice ->
    let f := ProductsPage.filters (ProductsPageUI.state p) in
    exists p' p'',
      ProductsPageUI.listener localeCompare toFixed (ProductsPageUI.PriceInput value) p =
        ProductsPageUI.TypeError p' /\
      ProductsPage.filters (ProductsPageUI.state p') =
        {| Filters.search := Filters.search f; Filters.category := Filters.category f;
           Filters.maxPrice := inject_Z maxPrice; Filters.sortBy := Filters.sortBy f |} /\
      ProductsPage.view (ProductsPageUI.state p') =
        ProductsPage.view (ProductsPageUI.state p) /\
      Listing.outputs (ProductsPageUI.ui p') = Listing.outputs (ProductsPageUI.ui p) /\
      ProductsPageUI.listener localeCompare toFixed ProductsPageUI.ClearClick p =
        ProductsPageUI.TypeError p'' /\
      ProductsPage.filters (ProductsPageUI.state p'') = ProductsPage.initial_filters /\
      ProductsPage.view (ProductsPageUI.state p'') =
        ProductsPage.view (ProductsPageUI.state p) /\
      Listing.outputs (ProductsPageUI.ui p'') = Listing.outputs (ProductsPageUI.ui p) /\
      ProductsPageUI.searchInput (ProductsPageUI.ui p'') =
        option_map (fun _ => EmptyString)
                   (ProductsPageUI.searchInput (ProductsPageUI.ui p)) /\
      ProductsPageUI.categoryFilter (ProductsPageUI.ui p'') =
        option_map (fun _ => EmptyString)
                   (ProductsPageUI.categoryFilter (ProductsPageUI.ui p)) /\
      ProductsPageUI.priceRange (ProductsPageUI.ui p'') = Some "250"%string /\
      ProductsPageUI.sortSelect (ProductsPageUI.ui p'') =
        ProductsPageUI.sortSelect (ProductsPageUI.ui p).
Proof.
  intros lc tf value z [s d] Hr Hv Hz f. subst f.
  destruct d as [a b [c|] [l|] o g n m]; cbn in Hr, Hv;
    [discriminate| |congruence|congruence].
  unfold ProductsPageUI.listener, ProductsPageUI.clearAllFilters,
    ProductsPageUI.write_priceValue.
  cbn -[ProductsPageUI.refresh JS.parseInt JS.String_of_Z].
  rewrite Hz. cbn -[ProductsPageUI.refresh JS.parseInt JS.String_of_Z].
  eexists _, _. repeat split.
Qed.

Lemma listeners_stop_without_price_label_witness :
  exists p' p'',
    ProductsPageUI.listener codeunit_compare (fun _ _ => "0.00"%string)
      (ProductsPageUI.PriceInput "7")
      {| ProductsPageUI.state := ProductsPage.init codeunit_compare scenario_catalog;
         ProductsPageUI.ui := slider_only_dom |} = ProductsPageUI.TypeError p' /\
    ProductsPage.filters (ProductsPageUI.state p') =
      {| Filters.search := EmptyString; Filters.category := EmptyString;
         Filters.maxPrice := inject_Z 7; Filters.sortBy := "name"%string |} /\
    ProductsPage.view (ProductsPageUI.state p') = [amlo; zinc] /\
    Listing.outputs (ProductsPageUI.ui p') = Listing.outputs slider_only_dom /\
    ProductsPageUI.listener codeunit_compare (fun _ _ => "0.00"%string)
      ProductsPageUI.ClearClick
      {| ProductsPageUI.state := ProductsPage.init codeunit_compare scenario_catalog;
         ProductsPageUI.ui := slider_only_dom |} = ProductsPageUI.TypeError p'' /\
    ProductsPage.filters (ProductsPageUI.state p'') = ProductsPage.initial_filters /\
    ProductsPage.view (ProductsPageUI.state p'') = [amlo; zinc] /\
    Listing.outputs (ProductsPageUI.ui p'') = Listing.outputs slider_only_dom /\
    ProductsPageUI.searchInput (ProductsPageUI.ui p'') = None /\
    ProductsPageUI.categoryFilter (ProductsPageUI.ui p'') = None /\
    ProductsPageUI.priceRange (ProductsPageUI.ui p'') = Some "250"%string /\
    ProductsPageUI.sortSelect (ProductsPageUI.ui p'') = Some "price-low"%string.
Proof.
  apply (listeners_stop_without_price_label codeunit_compare (fun _ _ => "0.00"%string)
           "7"%string 7%Z
           {| ProductsPageUI.state := ProductsPage.init codeunit_compare scenario_catalog;
              ProductsPageUI.ui := slider_only_dom |}).
  - discriminate.
  - reflexivity.
  - reflexivity.
Defined.

(** X23.  When the catalog cannot be fetched, the listing page shows an
    empty listing and keeps showing it whatever the events (every value
    of the price slider being a numeral), whichever elements the page
    has: no product on display, an empty grid, the
    counter at 0 and the no-results message displayed. *)
Theorem listing_of_failed_load_stays_empty :
  forall (localeCompare : string -> string -> Q) (toFixed : Q -> nat -> string)
         (pathname : string) (fetch : string -> ProductManager.fetch_outcome)
         (d : ProductsPageUI.dom) (w : ProductManager.world)
         (events : list ProductsPageUI.event),
    Spec.fetch_failed (fetch (Spec.productsPath pathname)) ->
    forallb Listing.in_model events = true ->
    exists w' p0 p',
      ProductsPageUI.init localeCompare toFixed pathname fetch d w =
        (ProductManager.Normal p0, w') /\
      ProductsPageUI.session localeCompare toFixed events p0 = Some p' /\
      ProductsPage.view (ProductsPageUI.state p') = [] /\
      (forall g, ProductsPageUI.productsGrid (ProductsPageUI.ui p') = Some g ->
                 g = EmptyString) /\
      (forall c, ProductsPageUI.productsCount (ProductsPageUI.ui p') = Some c ->
                 c = "0"%string) /\
      (forall m, ProductsPageUI.noResults (ProductsPageUI.ui p') = Some m ->
                 m = "block"%string).
Proof.
  intros lc tf pathname fetch d w events Hfail Hev.
  destruct (loadProducts_failure pathname fetch w Hfail) as [w' Hl].
  set (start := {| ProductsPageUI.state := ProductsPage.loaded [];
                   ProductsPageUI.ui := d |}).
  pose proof (loaded_well_formed [] d) as Hwf. fold start in Hwf.
  destruct (refresh_spec lc tf start Hwf) as [Hwf0 [Hc0 [_ [Hv0 [Hsh0 _]]]]].
  destruct (session_defined lc tf events Hev (ProductsPageUI.refresh lc tf start))
    as [p' Hs].
  change (ProductsPage.catalog (ProductsPageUI.state start)) with (@nil Product.t)
    in Hc0, Hv0.
  cbn [List.filter JS.sort] in Hv0. rewrite Hv0 in Hsh0.
  destruct (session_empty lc tf events _ _ Hwf0 Hc0 Hv0 Hsh0 Hs) as [Hv [Sg [Sc Sm]]].
  exists w', (ProductsPageUI.refresh lc tf start), p'.
  split; [now apply (init_page lc tf pathname fetch d w [] w')|].
  split; [exact Hs|]. split; [exact Hv|].
  split; [exact Sg|]. split; [exact Sc|exact Sm].
Qed.

Lemma listing_of_failed_load_stays_empty_witness :
  exists w' p0 p',
    ProductsPageUI.init codeunit_compare (fun _ _ => "0.00"%string)
      "/products/index.html" fetch_404 slider_only_dom ProductManager.initial =
      (ProductManager.Normal p0, w') /\
    ProductsPageUI.session codeunit_compare (fun _ _ => "0.00"%string)
      [ProductsPageUI.PriceInput "7"; ProductsPageUI.ClearClick]%string p0 = Some p' /\
    ProductsPage.view (ProductsPageUI.state p') = [] /\
    (forall g, ProductsPageUI.productsGrid (ProductsPageUI.ui p') = Some g ->
               g = EmptyString) /\
    (forall c, ProductsPageUI.productsCount (ProductsPageUI.ui p') = Some c ->
               c = "0"%string) /\
    (forall m, ProductsPageUI.noResults (ProductsPageUI.ui p') = Some m ->
               m = "block"%string).
Proof.
  apply (listing_of_failed_load_stays_empty codeunit_compare (fun _ _ => "0.00"%string)
           "/products/index.html" fetch_404 slider_only_dom ProductManager.initial).
  - reflexivity.
  - reflexivity.
Defined.

(* ------------------------------------------------------------------ *)
(** ** The home page: featured products and the navigation links *)

(** X24.  The home page, from the first load: the featured container
    receives the cards of the first six products of the catalog that was
    loaded (all of them when there are fewer), in catalog order; when
    the catalog could not be loaded it receives no card at all; a page
    without the container gets nothing written. *)
Theorem home_page_featured_products :
  forall (toFixed : Q -> nat -> string) (pathname : string)
         (fetch : string -> ProductManager.fetch_outcome)
         (container : string) (links : list Main.nav_link),
    exists featured marked w',
      Main.onDOMContentLoaded toFixed pathname fetch (Some container) links
        ProductManager.initial =
        (ProductManager.Normal (Some featured, marked), w') /\
      featured =
        String.concat EmptyString
          (List.map (UIManager.createProductCard toFixed)
                    (List.firstn 6 (ProductManager.products w'))) /\
      (forall status catalog,
          fetch (Spec.productsPath pathname) =
            ProductManager.Fulfilled
              {| ProductManager.ok := true; ProductManager.status := status;
                 ProductManager.json := Some catalog |} ->
          ProductManager.products w' = catalog) /\
      ((forall status catalog,
           fetch (Spec.productsPath pathname) <>
             ProductManager.Fulfilled
               {| ProductManager.ok := true; ProductManager.status := status;
                  ProductManager.json := Some catalog |}) ->
       featured = EmptyString) /\
      (exists w'',
          Main.onDOMContentLoaded toFixed pathname fetch None links
            ProductManager.initial =
            (ProductManager.Normal
               (None, Main.mark_active (Main.page_of pathname) links), w'')).
Proof.
  intros tf pathname fetch container links.
  assert (Hslice : forall l : list Product.t, JS.slice0 6 l = List.firstn 6 l).
  { intros l. unfold JS.slice0. cbn [Z.ltb Z.compare].
    destruct (Z.min_spec 6 (Z.of_nat (List.length l))) as [[H ->]|[H ->]].
    - reflexivity.
    - rewrite Nat2Z.id. rewrite firstn_all.
      symmetry. apply firstn_all2. lia. }
  unfold Main.onDOMContentLoaded, UIManager.displayFeaturedProducts,
    ProductManager.getFeatured, ProductManager.loadProducts, ProductManager.try_catch,
    ProductManager.bind, ProductManager.ret, ProductManager.await_fetch,
    ProductManager.await_json, Spec.productsPath, JS.join.
  destruct (fetch _) as [e|[[|] status [l|]]]; cbn -[JS.slice0 List.firstn];
    eexists _, _, _; (split; [reflexivity|]); cbn -[JS.slice0 List.firstn];
    rewrite ?Hslice; (split; [reflexivity|]);
    (split; [|split; [|eexists; reflexivity]]);
    try (intros s c H; discriminate H); try (intros _; reflexivity).
  - intros s c H. injection H as _ H. now subst.
  - intros H. exfalso. now apply (H status l).
Qed.

Section NavFacts.
Local Open Scope string_scope.

Lemma split_slash_cons (s : string) :
  exists x xs, Main.split_slash s = x :: xs.
Proof.
  induction s as [|c s [x [xs IH]]]; cbn.
  - eexists _, _. reflexivity.
  - destruct (Ascii.eqb c "/"); [eexists _, _; reflexivity|].
    rewrite IH. eexists _, _. reflexivity.
Qed.

Lemma split_slash_app (a f : string) :
  Main.split_slash (a ++ String "/" f) =
  (Main.split_slash a ++ Main.split_slash f)%list.
Proof.
  induction a as [|c a IH]; cbn.
  - reflexivity.
  - destruct (Ascii.eqb c "/").
    + rewrite IH. reflexivity.
    + rewrite IH. destruct (split_slash_cons a) as [x [xs ->]]. reflexivity.
Qed.

Lemma split_slash_file (f : string) :
  no_slash f = true -> Main.split_slash f = [f].
Proof.
  induction f as [|c f IH]; cbn; [reflexivity|].
  intros H. apply andb_true_iff in H. destruct H as [Hc Hf].
  apply negb_true_iff in Hc. rewrite Hc, (IH Hf). reflexivity.
Qed.

Lemma last_app_cons {A : Type} (l : list A) (x : A) (l' : list A) (d : A) :
  List.last (l ++ x :: l') d = List.last (x :: l') d.
Proof.
  induction l as [|y l IH]; [reflexivity|].
  cbn [app]. rewrite <- IH.
  destruct (l ++ x :: l')%list eqn:E; [|reflexivity].
  destruct l; discriminate.
Qed.

Lemma page_of_path (dir file : string) :
  no_slash file = true ->
  Main.page_of (dir ++ String "/" file) =
  match file with EmptyString => "index.html" | _ => file end.
Proof.
  intros H. unfold Main.page_of.
  rewrite split_slash_app, (split_slash_file file H), last_app_cons.
  destruct file; reflexivity.
Qed.

Lemma mark_active_prefix (currentPage : string) (rest : list Main.nav_link) :
  (rest = [] \/ exists l after, rest = l :: after /\ Main.href l = None) ->
  forall before,
    Forall (fun l => Main.href l <> None) before ->
    exists before',
      Main.mark_active currentPage (before ++ rest) =
        ((before' ++ rest)%list, match rest with [] => true | _ :: _ => false end) /\
      Forall2
        (fun l l' =>
           Main.href l' = Main.href l /\
           forall h, Main.href l = Some h ->
             (Main.page_of h = currentPage ->
              Main.classList l' = Dom.classList_add "active" (Main.classList l)) /\
             (Main.page_of h <> currentPage -> l' = l))
        before before'.
Proof.
  intros Hrest before. induction before as [|l before IH]; intros Hb.
  - exists []. split; [|constructor]. cbn [app].
    destruct Hrest as [->|[l [after [-> Hl]]]]; cbn; [reflexivity|].
    rewrite Hl. reflexivity.
  - inversion Hb as [|? ? Hl Hb']; subst.
    destruct (IH Hb') as [before' [Hm HF]].
    destruct (Main.href l) as [h|] eqn:Eh; [|congruence].
    cbn [app Main.mark_active]. rewrite Eh, Hm.
    eexists (_ :: before'). split; [reflexivity|].
    constructor; [|exact HF].
    destruct (String.eqb_spec (Main.page_of h) currentPage) as [E|E]; cbn.
    + split; [congruence|]. intros h' Hh'.
      assert (h' = h) by congruence. subst h'.
      split; [reflexivity|congruence].
    + split; [reflexivity|]. intros h' Hh'.
      assert (h' = h) by congruence. subst h'.
      split; [congruence|reflexivity].
Qed.

End NavFacts.

(** X25.  The loop over the navigation links handles the links up to
    the first one without an [href], and stops there with an error,
    leaving that link and every later one as they were; it completes
    when every link has the attribute.  A link it handles keeps its
    target; it gets the class [active] (added once) when the last
    segment of its target is the current page, and is left as it was
    otherwise. *)
Theorem mark_active_up_to_first_bare_link :
  forall (currentPage : string) (before rest : list Main.nav_link),
    Forall (fun l => Main.href l <> None) before ->
    (rest = [] \/ exists l after, rest = l :: after /\ Main.href l = None) ->
    exists before',
      Main.mark_active currentPage (before ++ rest) =
        ((before' ++ rest)%list, match rest with [] => true | _ :: _ => false end) /\
      Forall2
        (fun l l' =>
           Main.href l' = Main.href l /\
           forall h, Main.href l = Some h ->
             (Main.page_of h = currentPage ->
              Main.classList l' =
                Dom.classList_add "active"%string (Main.classList l)) /\
             (Main.page_of h <> currentPage -> l' = l))
        before before'.
Proof.
  intros currentPage before rest Hb Hrest.
  now apply mark_active_prefix.
Qed.

Lemma mark_active_up_to_first_bare_link_witness :
  exists before',
    Main.mark_active "index.html" ([contact_link; home_link] ++ [bare_link; home_link]) =
      ((before' ++ [bare_link; home_link])%list, false) /\
    Forall2
      (fun l l' =>
         Main.href l' = Main.href l /\
         forall h, Main.href l = Some h ->
           (Main.page_of h = "index.html"%string ->
            Main.classList l' =
              Dom.classList_add "active"%string (Main.classList l)) /\
           (Main.page_of h <> "index.html"%string -> l' = l))
      [contact_link; home_link] before'.
Proof.
  apply (mark_active_up_to_first_bare_link "index.html"%string
           [contact_link; home_link] [bare_link; home_link]).
  - repeat constructor; discriminate.
  - right. exists bare_link, [home_link]. split; reflexivity.
Defined.

(** X26.  The page of a path is its part after the last [/], read as
    [index.html] when that part is empty; the directory plays no role,
    so that a link to the index of any directory counts as the current
    page on the index of any other. *)
Theorem page_of_last_segment :
  forall (dir dir' file : string),
    no_slash file = true ->
    Main.page_of (dir ++ String "/" file) =
      match file with EmptyString => "index.html"%string | _ => file end /\
    Main.page_of (dir ++ String "/" file) = Main.page_of (dir' ++ String "/" file) /\
    Main.page_of (dir ++ String "/" EmptyString) =
      Main.page_of (dir' ++ String "/" "index.html").
Proof.
  intros dir dir' file H.
  split; [now apply page_of_path|]. split.
  - rewrite !page_of_path by exact H. reflexivity.
  - rewrite !page_of_path by reflexivity. reflexivity.
Qed.

Lemma page_of_last_segment_witness :
  Main.page_of ("/products" ++ String "/" "product-detail.html") =
    "product-detail.html"%string /\
  Main.page_of ("/products" ++ String "/" "product-detail.html") =
    Main.page_of (".." ++ String "/" "product-detail.html") /\
  Main.page_of ("/products" ++ String "/" EmptyString) =
    Main.page_of (".." ++ String "/" "index.html").
Proof.
  apply (page_of_last_segment "/products" ".." "product-detail.html").
  reflexivity.
Defined.
